(** * Employee management API: data-access layer

    A shallow embedding of the record service (services/employee.service.ts),
    the cache service (services/cache.service.ts), the Employee model
    (models/Employee.model.ts) and the employee resolvers
    (graphql/resolvers/employee.resolver.ts).

    Asynchronous code is written in a state-and-exception monad over a
    [World] holding the Employee collection, the Redis keyspace, the two
    failure flags of the cache and a trace of the calls made to both
    stores.  Numbers are mathematical integers; the two quotients the code
    computes in floating point (average age, attendance rate) are exact
    rationals here.

    The model does what Mongoose does around a query: it casts the ids
    of a filter, and throws when one does not cast; it runs the setters of
    a path on the values of new documents, of updates and of filters; and
    it validates a new document before the pre-save hook runs.

    Requests run one at a time.  Left out: the expansion of [createdBy]
    into a user by [populate] and the expiry of cache entries after their
    time to live.

    A second part embeds the authentication code, whose result is the
    [IContext] the resolvers receive: the User model, the token
    utilities, the middleware, AuthService and its resolvers, as
    functions over the User collection; with them the password rules of
    the validators, the error conversion and the batch function of the
    user loader. *)

From Stdlib Require Import ZArith QArith Qround Lia Ascii String.
From stdpp Require Import base option list gmap strings pretty.

Open Scope string_scope.
Open Scope list_scope.
Open Scope Z_scope.

(** ** Data model (models/Employee.model.ts, models/User.model.ts, types/) *)

Inductive UserRole := ADMIN | EMPLOYEE.

Inductive AttendanceStatus := present | absent | late.

Record IAttendance := {
  date : Z;
  status : AttendanceStatus;
  remarks : option string
}.

Record IEmployee := {
  _id : string;
  employeeId : string;
  name : string;
  email : string;
  age : Z;
  class : string;
  subjects : list string;
  attendance : list IAttendance;
  joiningDate : Z;
  salary : option Q;
  department : option string;
  isActive : bool;
  createdBy : string;
  createdAt : Z;
  updatedAt : Z
}.

(** [IEmployeeFilter], extended with the [_id] key that the [employees]
    resolver puts into the filter object of a member. *)
Record IEmployeeFilter := {
  filter_id : option string;
  filter_name : option string;
  filter_email : option string;
  filter_class : option string;
  filter_department : option string;
  filter_ageMin : option Z;
  filter_ageMax : option Z;
  filter_isActive : option bool;
  filter_subject : option string
}.

Record IEmployeeInput := {
  new_name : string;
  new_email : string;
  new_age : Z;
  new_class : string;
  new_subjects : list string;
  new_salary : option Q;
  new_department : option string;
  new_joiningDate : option Z
}.

Record IUpdateEmployeeInput := {
  set_name : option string;
  set_email : option string;
  set_age : option Z;
  set_class : option string;
  set_subjects : option (list string);
  set_salary : option Q;
  set_department : option string;
  set_isActive : option bool
}.

Record IPaginationInput := {
  input_page : option Z;
  input_limit : option Z
}.

Inductive SortOrder := ASC | DESC.

Record ISortInput := {
  field : option string;
  order : option SortOrder
}.

(** A JavaScript number as it can reach the [pages] field: a finite
    integer, an infinity or NaN; [Null] is what JSON makes of the last
    three when the envelope goes through the cache. *)
Inductive JsNumber :=
  | Fin (z : Z)
  | PosInf
  | NegInf
  | NaN
  | Null.

Record IPaginationInfo := {
  total : Z;
  page : Z;
  limit : Z;
  pages : JsNumber;
  hasNextPage : bool;
  hasPrevPage : bool
}.

Record IPaginatedResponse := {
  data : list IEmployee;
  pagination : IPaginationInfo
}.

(** The context user built by the authentication middleware. *)
Record ContextUser := {
  user_id : string;
  user_email : string;
  role : UserRole;
  employeeRef : option string
}.

Record IContext := { user : option ContextUser }.

(** The store query assembled by [getEmployees]. *)
Record Query := {
  query_isActive : bool;
  query_name : option string;
  query_email : option string;
  query_class : option string;
  query_department : option string;
  query_age : option (option Z * option Z);
  query_subjects : option string
}.

(** The object whose JSON text is the suffix of a list cache key. *)
Record KeyObject := {
  key_query : Query;
  key_skip : Z;
  key_limit : Z;
  key_sort : ISortInput
}.

(** What a cache entry or a service result denotes.  The cache holds JSON
    texts; a text is represented by the value it parses to. *)
Inductive Json :=
  | JConnection (r : IPaginatedResponse)
  | JEmployee (e : IEmployee).

Record DepartmentCount := {
  dc_department : option string;
  dc_count : Z
}.

Record EmployeeStats := {
  totalEmployees : Z;
  activeEmployees : Z;
  inactiveEmployees : Z;
  averageAge : Q;
  departmentCounts : list DepartmentCount;
  averageAttendanceRate : Q
}.

(** ** Exceptions, log and trace *)

Inductive Exn :=
  | GraphQLError (message : string) (code : string)
  | MongooseValidationError
  | MongooseCastError
  | MongoServerError (reason : string)
  | RedisError.

Inductive LogLevel := warn | error.

Inductive Event :=
  | RedisGet (key : string)
  | RedisSetex (key : string) (ttl : Z)
  | RedisSet (key : string)
  | RedisDel (keys : list string)
  | RedisKeys (pattern : string)
  | DbFind (q : Query) (skip lim : Z)
  | DbCount (q : Query)
  | DbCountAll
  | DbCountActive (b : bool)
  | DbFindOne (mail : string) (ne : option string)
  | DbFindById (id : string)
  | DbFindByIds (ids : list string)
  | DbInsert (id : string)
  | DbUpdateById (id : string)
  | DbUpdateMany (ids : list string)
  | DbTextFind (search : string) (skip lim : Z)
  | DbTextCount (search : string)
  | DbAggregate (pipeline : string)
  | Logged (level : LogLevel) (msg : string).

(** ** The platform: JSON, the query engine and the schema validators

    These belong to the JavaScript runtime, MongoDB and Mongoose.  They are
    an interface here; the service code is written against it. *)
Class Platform := {
  (** [JSON.stringify] on the cache-key object *)
  JSON_stringify : KeyObject -> string;
  (** two key objects with the same text query the same active flag *)
  JSON_stringify_flag :
    forall k1 k2,
      JSON_stringify k1 = JSON_stringify k2 ->
      query_isActive (key_query k1) = query_isActive (key_query k2);
  (** and carry the same [skip] and [limit], which are printed as numbers *)
  JSON_stringify_page :
    forall k1 k2,
      JSON_stringify k1 = JSON_stringify k2 ->
      key_skip k1 = key_skip k2 /\ key_limit k1 = key_limit k2;
  (** [{ $regex: pattern, $options: 'i' }] against a field value *)
  regex_i : string -> string -> bool;
  (** [{ $text: { $search } }] against a document *)
  text_search : string -> IEmployee -> bool;
  (** [.sort({ [field]: order })] with order 1 or -1 *)
  sort_docs : string -> Z -> list IEmployee -> list IEmployee;
  sort_docs_perm : forall f o l, sort_docs f o l ≡ₚ l;
  (** [.sort({ score: { $meta: 'textScore' } })] *)
  sort_by_score : string -> list IEmployee -> list IEmployee;
  (** schema validation run by [save()]; it runs before the pre-save hook *)
  validate_doc : IEmployee -> bool;
  (** [employeeId] is [required]: a document without a code fails it *)
  validate_doc_employeeId :
    forall d, validate_doc d = true -> employeeId d <> "";
  (** [runValidators] on a [$set], on the values the setters leave *)
  validate_set : IUpdateEmployeeInput -> bool;
  (** [runValidators] on a [$push] to [attendance] *)
  validate_push : IAttendance -> bool;
  (** the [n]-th ObjectId the driver generates *)
  ObjectId : nat -> string;
  (** can the string be cast to an ObjectId? *)
  casts_to_ObjectId : string -> bool;
  (** the setters of the [email] path, [lowercase] and [trim]: Mongoose
      applies them to the value of a new document, of a [$set] and of a
      query filter *)
  email_setters : string -> string;
  (** they change nothing in a value they have left *)
  email_setters_idem :
    forall s, email_setters (email_setters s) = email_setters s;
  (** the setter [trim] of the [name], [class] and [department] paths *)
  trim_setter : string -> string
}.

(** ** World and monad *)

Record World := {
  employees : list IEmployee;      (* the Employee collection *)
  redis : gmap string Json;        (* the Redis keyspace *)
  isConnected : bool;              (* CacheService.isConnected *)
  redis_failing : bool;            (* every client command rejects *)
  trace : list Event;              (* calls made, oldest first *)
  now : Z;                         (* Date.now() *)
  oid_next : nat                   (* ObjectIds generated so far *)
}.

Inductive Result (A : Type) :=
  | Ok (a : A)
  | Throw (e : Exn).
Arguments Ok {A} a.
Arguments Throw {A} e.

Definition M (A : Type) : Type := World -> Result A * World.

Definition ret {A} (a : A) : M A := fun w => (Ok a, w).

Definition throw {A} (e : Exn) : M A := fun w => (Throw e, w).

Definition bind {A B} (m : M A) (k : A -> M B) : M B := fun w =>
  match m w with
  | (Ok a, w') => k a w'
  | (Throw e, w') => (Throw e, w')
  end.

Definition try_catch {A} (m : M A) (handler : Exn -> M A) : M A := fun w =>
  match m w with
  | (Ok a, w') => (Ok a, w')
  | (Throw e, w') => handler e w'
  end.

Notation "'let*' x ':=' m 'in' k" := (bind m (fun x => k))
  (at level 10, x pattern, m at level 100, k at level 200).

Definition emit (ev : Event) : M unit := fun w =>
  (Ok tt, {| employees := employees w; redis := redis w;
             isConnected := isConnected w; redis_failing := redis_failing w;
             trace := trace w ++ [ev]; now := now w; oid_next := oid_next w |}).

Definition set_employees (l : list IEmployee) : M unit := fun w =>
  (Ok tt, {| employees := l; redis := redis w;
             isConnected := isConnected w; redis_failing := redis_failing w;
             trace := trace w; now := now w; oid_next := oid_next w |}).

Definition set_redis (m : gmap string Json) : M unit := fun w =>
  (Ok tt, {| employees := employees w; redis := m;
             isConnected := isConnected w; redis_failing := redis_failing w;
             trace := trace w; now := now w; oid_next := oid_next w |}).

Definition fresh_oid `{Platform} : M string := fun w =>
  (Ok (ObjectId (oid_next w)),
   {| employees := employees w; redis := redis w;
      isConnected := isConnected w; redis_failing := redis_failing w;
      trace := trace w; now := now w; oid_next := S (oid_next w) |}).

Definition gets {A} (f : World -> A) : M A := fun w => (Ok (f w), w).

Definition logger (level : LogLevel) (msg : string) : M unit :=
  emit (Logged level msg).

(** ** CacheService (services/cache.service.ts) *)

(** Redis glob matching, for the two wildcards [*] and [?].  Character
    classes and escapes are not interpreted: the patterns of the service
    are a literal prefix followed by [*]. *)
Fixpoint glob_match (pattern s : string) {struct pattern} : bool :=
  match pattern with
  | EmptyString => match s with EmptyString => true | _ => false end
  | String c pattern' =>
      if Ascii.eqb c "*"%char then
        (fix star (s : string) : bool :=
           glob_match pattern' s ||
           match s with
           | EmptyString => false
           | String _ s' => star s'
           end) s
      else
        match s with
        | EmptyString => false
        | String d s' =>
            (Ascii.eqb c "?"%char || Ascii.eqb c d) && glob_match pattern' s'
        end
  end.

(** The ioredis client: every command rejects while [redis_failing]. *)
Definition client_command {A} (ev : Event) (run : M A) : M A :=
  let* _ := emit ev in
  let* failing := gets redis_failing in
  if failing then throw RedisError else run.

Definition client_get (key : string) : M (option Json) :=
  client_command (RedisGet key) (gets (fun w => redis w !! key)).

(** [SETEX] refuses an expiry that is not positive. *)
Definition client_setex (key : string) (ttl : Z) (value : Json) : M unit :=
  client_command (RedisSetex key ttl)
    (if ttl <=? 0 then throw RedisError
     else let* m := gets redis in set_redis (<[key := value]> m)).

Definition client_set (key : string) (value : Json) : M unit :=
  client_command (RedisSet key)
    (let* m := gets redis in set_redis (<[key := value]> m)).

Definition client_del (keys : list string) : M unit :=
  client_command (RedisDel keys)
    (let* m := gets redis in set_redis (foldr delete m keys)).

Definition client_keys (pattern : string) : M (list string) :=
  client_command (RedisKeys pattern)
    (let* m := gets redis in
     ret (filter (fun k => glob_match pattern k = true) (map fst (map_to_list m)))).

Module CacheService.

Definition get (key : string) : M (option Json) :=
  let* connected := gets isConnected in
  if negb connected then
    let* _ := logger warn "Redis not connected, skipping cache get" in
    ret None
  else
    try_catch (client_get key)
      (fun _ => let* _ := logger error "Cache get error:" in ret None).

Definition set (key : string) (value : Json) (ttl : option Z) : M unit :=
  let* connected := gets isConnected in
  if negb connected then
    logger warn "Redis not connected, skipping cache set"
  else
    try_catch
      (match ttl with
       | Some t => if t =? 0 then client_set key value
                   else client_setex key t value
       | None => client_set key value
       end)
      (fun _ => logger error "Cache set error:").

Definition delete (key : string) : M unit :=
  let* connected := gets isConnected in
  if negb connected then ret tt
  else
    try_catch (client_del [key])
      (fun _ => logger error "Cache delete error:").

Definition deletePattern (pattern : string) : M unit :=
  let* connected := gets isConnected in
  if negb connected then ret tt
  else
    try_catch
      (let* keys := client_keys pattern in
       if (0 <? Z.of_nat (length keys)) then client_del keys else ret tt)
      (fun _ => logger error "Cache delete pattern error:").

End CacheService.

(** ** JavaScript helpers *)

(** Truthiness of an optional string and of an optional number. *)
Definition truthy_str (o : option string) : bool :=
  match o with
  | Some s => negb (String.eqb s "")
  | None => false
  end.

Definition truthy_num (o : option Z) : bool :=
  match o with
  | Some n => negb (n =? 0)
  | None => false
  end.

(** [Math.ceil(a / b)] on integer operands. *)
Definition Math_ceil_div (a b : Z) : JsNumber :=
  if b =? 0 then
    if a =? 0 then NaN else if 0 <? a then PosInf else NegInf
  else Fin (- ((- a) / b)).

(** [n < x] for an integer [n]. *)
Definition js_lt (n : Z) (x : JsNumber) : bool :=
  match x with
  | Fin z => n <? z
  | PosInf => true
  | NegInf => false
  | NaN => false
  | Null => n <? 0
  end.

(** [JSON.parse(JSON.stringify(result))]: a number that is not finite
    comes back as null. *)
Definition json_number (x : JsNumber) : JsNumber :=
  match x with
  | Fin z => Fin z
  | _ => Null
  end.

Definition JSON_roundtrip (r : IPaginatedResponse) : IPaginatedResponse :=
  {| data := data r;
     pagination :=
       {| total := total (pagination r);
          page := page (pagination r);
          limit := limit (pagination r);
          pages := json_number (pages (pagination r));
          hasNextPage := hasNextPage (pagination r);
          hasPrevPage := hasPrevPage (pagination r) |} |}.

(** [String(n).padStart(width, '0')] *)
Definition padStart0 (width : nat) (s : string) : string :=
  String.concat "" (replicate (width - String.length s) "0") +:+ s.

(** [Promise.all] of two calls: both are issued, the first rejection wins. *)
Definition Promise_all2 {A B} (a : M A) (b : M B) : M (A * B) := fun w =>
  let '(ra, w1) := a w in
  let '(rb, w2) := b w1 in
  match ra, rb with
  | Ok x, Ok y => (Ok (x, y), w2)
  | Throw e, _ => (Throw e, w2)
  | Ok _, Throw e => (Throw e, w2)
  end.

(** [Promise.all] of a list of calls that return nothing. *)
Fixpoint Promise_all_ (ms : list (M unit)) : M unit :=
  match ms with
  | [] => ret tt
  | m :: rest => let* _ := m in Promise_all_ rest
  end.

(** ** The Employee model (models/Employee.model.ts) *)

Definition opt_all {A} (o : option A) (p : A -> bool) : bool :=
  match o with
  | Some a => p a
  | None => true
  end.

(** Does a document satisfy a query? *)
Definition matches `{Platform} (q : Query) (e : IEmployee) : bool :=
  Bool.eqb (isActive e) (query_isActive q)
  && opt_all (query_name q) (fun pat => regex_i pat (name e))
  && opt_all (query_email q) (fun pat => regex_i pat (email e))
  && opt_all (query_class q) (fun c => String.eqb (class e) c)
  && opt_all (query_department q)
       (fun d => match department e with
                 | Some d' => String.eqb d' d
                 | None => false
                 end)
  && opt_all (query_age q)
       (fun '(lo, hi) =>
          opt_all lo (fun m => m <=? age e) && opt_all hi (fun m => age e <=? m))
  && opt_all (query_subjects q)
       (fun s => existsb (String.eqb s) (subjects e)).

(** [.skip(skip).limit(lim)]: a limit of 0 is no limit, a negative limit
    counts as its absolute value. *)
Definition page_slice {A} (skip lim : Z) (l : list A) : list A :=
  let rest := drop (Z.to_nat skip) l in
  if lim =? 0 then rest else take (Z.to_nat (Z.abs lim)) rest.

Definition has_id (id : string) (e : IEmployee) : bool := String.eqb (_id e) id.

(** [{ $set: input }], with the [updatedAt] timestamp; the strings go
    through the setters of their paths. *)
Definition apply_set `{Platform} (input : IUpdateEmployeeInput) (t : Z)
  (e : IEmployee) : IEmployee :=
  {| _id := _id e;
     employeeId := employeeId e;
     name := default (name e) (trim_setter <$> set_name input);
     email := default (email e) (email_setters <$> set_email input);
     age := default (age e) (set_age input);
     class := default (class e) (trim_setter <$> set_class input);
     subjects := default (subjects e) (set_subjects input);
     attendance := attendance e;
     joiningDate := joiningDate e;
     salary := match set_salary input with Some s => Some s | None => salary e end;
     department := match set_department input with
                   | Some d => Some (trim_setter d)
                   | None => department e
                   end;
     isActive := default (isActive e) (set_isActive input);
     createdBy := createdBy e;
     createdAt := createdAt e;
     updatedAt := t |}.

(** [{ $push: { attendance } }], with the [updatedAt] timestamp. *)
Definition apply_push (a : IAttendance) (t : Z) (e : IEmployee) : IEmployee :=
  {| _id := _id e;
     employeeId := employeeId e;
     name := name e;
     email := email e;
     age := age e;
     class := class e;
     subjects := subjects e;
     attendance := attendance e ++ [a];
     joiningDate := joiningDate e;
     salary := salary e;
     department := department e;
     isActive := isActive e;
     createdBy := createdBy e;
     createdAt := createdAt e;
     updatedAt := t |}.

(** Apply [f] to the first document with the given id. *)
Fixpoint update_first (id : string) (f : IEmployee -> IEmployee)
  (docs : list IEmployee) : list IEmployee :=
  match docs with
  | [] => []
  | e :: rest => if has_id id e then f e :: rest
                 else e :: update_first id f rest
  end.

(** The documents other than the first one with the given id. *)
Fixpoint others (id : string) (docs : list IEmployee) : list IEmployee :=
  match docs with
  | [] => []
  | e :: rest => if has_id id e then rest else e :: others id rest
  end.

Definition email_in (mail : string) (docs : list IEmployee) : bool :=
  existsb (fun e => String.eqb (email e) mail) docs.

(** Would the unique index on [email] reject this [$set] on document [id]?
    The index holds the addresses as the setters left them. *)
Definition set_breaks_unique_email `{Platform} (input : IUpdateEmployeeInput)
  (id : string) (docs : list IEmployee) : bool :=
  match set_email input with
  | Some mail => email_in (email_setters mail) (others id docs)
  | None => false
  end.

(** Does the document hold the address of the filter [{ email: mail }]?
    The filter value goes through the setters of the path; the stored
    addresses went through them when they were written, and are compared
    in that form. *)
Definition same_address `{Platform} (mail : string) (e : IEmployee) : bool :=
  String.eqb (email_setters (email e)) (email_setters mail).

(** Does the id of a filter cast to an ObjectId?  The ids of the
    documents of the collection do; for any other string the cast
    decides. *)
Definition casts `{Platform} (id : string) (docs : list IEmployee) : bool :=
  casts_to_ObjectId id || existsb (has_id id) docs.

(** [updateMany]: documents are updated in collection order; a unique-index
    violation stops the run and leaves the earlier updates in place. *)
Fixpoint update_many `{Platform} (ids : list string)
  (input : IUpdateEmployeeInput) (t : Z) (before after : list IEmployee)
  : bool * list IEmployee :=
  match after with
  | [] => (true, before)
  | e :: rest =>
      if bool_decide (_id e ∈ ids) then
        if match set_email input with
           | Some mail => email_in (email_setters mail) (before ++ rest)
           | None => false
           end
        then (false, before ++ e :: rest)
        else update_many ids input t (before ++ [apply_set input t e]) rest
      else update_many ids input t (before ++ [e]) rest
  end.

(** The pre-save hook: [EMP] followed by the count plus one on six digits. *)
Definition pre_save_employeeId (count : nat) : string :=
  "EMP" +:+ padStart0 6 (pretty (count + 1)%nat).

Definition with_employeeId (code : string) (e : IEmployee) : IEmployee :=
  {| _id := _id e;
     employeeId := code;
     name := name e;
     email := email e;
     age := age e;
     class := class e;
     subjects := subjects e;
     attendance := attendance e;
     joiningDate := joiningDate e;
     salary := salary e;
     department := department e;
     isActive := isActive e;
     createdBy := createdBy e;
     createdAt := createdAt e;
     updatedAt := updatedAt e |}.

Definition is_present (a : IAttendance) : bool :=
  match status a with
  | present => true
  | _ => false
  end.

(** [$match isActive, $group by department, $project]: one row per
    distinct department value of the active documents, [None] included. *)
Definition group_by_department (docs : list IEmployee) : list DepartmentCount :=
  let active := filter (fun e => isActive e = true) docs in
  map (fun d => {| dc_department := d;
                   dc_count := Z.of_nat
                     (length (filter (fun e => department e = d) active)) |})
      (remove_dups (map department active)).

(** [$unwind attendance, $group null]: no row when nothing was unwound. *)
Definition attendance_totals (docs : list IEmployee) : option (Z * Z) :=
  let entries := flat_map attendance docs in
  match entries with
  | [] => None
  | _ => Some (Z.of_nat (length entries),
               Z.of_nat (length (filter (fun a => is_present a = true) entries)))
  end.

(** [$group null, $avg age]: no row on an empty collection. *)
Definition average_age (docs : list IEmployee) : option Q :=
  match docs with
  | [] => None
  | _ => Some (Qdiv (inject_Z (foldr Z.add 0 (map age docs)))
                    (inject_Z (Z.of_nat (length docs))))
  end.

Module Employee.
Section Model.
Context `{Platform}.

Definition find (q : Query) (sortField : string) (sortOrder : Z)
  (skip lim : Z) : M (list IEmployee) :=
  let* _ := emit (DbFind q skip lim) in
  if skip <? 0 then throw (MongoServerError "skip must be non-negative")
  else
    let* docs := gets employees in
    ret (page_slice skip lim
           (sort_docs sortField sortOrder
              (filter (fun e => matches q e = true) docs))).

Definition countDocuments (q : Query) : M Z :=
  let* _ := emit (DbCount q) in
  let* docs := gets employees in
  ret (Z.of_nat (length (filter (fun e => matches q e = true) docs))).

(** [countDocuments()] *)
Definition countAll : M Z :=
  let* _ := emit DbCountAll in
  let* docs := gets employees in
  ret (Z.of_nat (length docs)).

(** [countDocuments({ isActive: b })] *)
Definition countActive (b : bool) : M Z :=
  let* _ := emit (DbCountActive b) in
  let* docs := gets employees in
  ret (Z.of_nat (length (filter (fun e => isActive e = b) docs))).

(** [findOne({ email })] and [findOne({ email, _id: { $ne: id } })] *)
Definition findOne (mail : string) (ne : option string)
  : M (option IEmployee) :=
  let* _ := emit (DbFindOne mail ne) in
  let* docs := gets employees in
  if negb (match ne with Some id => casts id docs | None => true end)
  then throw MongooseCastError
  else
    ret (List.find
           (fun e => same_address mail e
                     && match ne with
                        | Some id => negb (has_id id e)
                        | None => true
                        end) docs).

Definition findById (id : string) : M (option IEmployee) :=
  let* _ := emit (DbFindById id) in
  let* docs := gets employees in
  if negb (casts id docs) then throw MongooseCastError
  else ret (List.find (has_id id) docs).

(** [find({ _id: { $in: ids } })] *)
Definition findByIds (ids : list string) : M (list IEmployee) :=
  let* _ := emit (DbFindByIds ids) in
  let* docs := gets employees in
  if negb (forallb (fun id => casts id docs) ids) then throw MongooseCastError
  else ret (filter (fun e => _id e ∈ ids) docs).

(** [save()] of a new document: validation, then the pre-save hook, then
    the insert, which the unique indexes on [employeeId] and [email] can
    reject. *)
Definition save (doc : IEmployee) : M IEmployee :=
  if negb (validate_doc doc) then throw MongooseValidationError
  else
    let* doc :=
      (if String.eqb (employeeId doc) "" then
         let* count := countAll in
         ret (with_employeeId (pre_save_employeeId (Z.to_nat count)) doc)
       else ret doc) in
    let* _ := emit (DbInsert (_id doc)) in
    let* docs := gets employees in
    if email_in (email doc) docs
       || existsb (fun e => String.eqb (employeeId e) (employeeId doc)) docs
    then throw (MongoServerError "E11000 duplicate key")
    else
      let* _ := set_employees (docs ++ [doc]) in
      ret doc.

(** [findByIdAndUpdate(id, { $set: input }, { new: true, runValidators })]:
    the filter and the update are cast, then the validators run, then
    the command is sent. *)
Definition findByIdAndUpdate_set (id : string) (input : IUpdateEmployeeInput)
  (runValidators : bool) : M (option IEmployee) :=
  let* docs := gets employees in
  if negb (casts id docs) then throw MongooseCastError
  else if runValidators && negb (validate_set input)
  then throw MongooseValidationError
  else
    let* _ := emit (DbUpdateById id) in
    match List.find (has_id id) docs with
    | None => ret None
    | Some e =>
        if set_breaks_unique_email input id docs
        then throw (MongoServerError "E11000 duplicate key")
        else
          let* t := gets now in
          let* _ := set_employees (update_first id (apply_set input t) docs) in
          ret (Some (apply_set input t e))
    end.

(** [findByIdAndUpdate(id, { $push: { attendance } },
     { new: true, runValidators: true })] *)
Definition findByIdAndUpdate_push (id : string) (a : IAttendance)
  : M (option IEmployee) :=
  let* docs := gets employees in
  if negb (casts id docs) then throw MongooseCastError
  else if negb (validate_push a) then throw MongooseValidationError
  else
    let* _ := emit (DbUpdateById id) in
    match List.find (has_id id) docs with
    | None => ret None
    | Some e =>
        let* t := gets now in
        let* _ := set_employees (update_first id (apply_push a t) docs) in
        ret (Some (apply_push a t e))
    end.

(** [updateMany({ _id: { $in: ids } }, { $set: input })] *)
Definition updateMany (ids : list string) (input : IUpdateEmployeeInput)
  : M unit :=
  let* docs := gets employees in
  if negb (forallb (fun id => casts id docs) ids) then throw MongooseCastError
  else
  let* _ := emit (DbUpdateMany ids) in
  let* t := gets now in
  let '(ok, docs') := update_many ids input t [] docs in
  let* _ := set_employees docs' in
  if ok then ret tt else throw (MongoServerError "E11000 duplicate key").

(** [find({ $text, isActive: true }).sort(score).skip().limit()] *)
Definition textFind (search : string) (skip lim : Z) : M (list IEmployee) :=
  let* _ := emit (DbTextFind search skip lim) in
  if skip <? 0 then throw (MongoServerError "skip must be non-negative")
  else
    let* docs := gets employees in
    ret (page_slice skip lim
           (sort_by_score search
              (filter (fun e => (text_search search e && isActive e) = true)
                 docs))).

(** [countDocuments({ $text, isActive: true })] *)
Definition textCount (search : string) : M Z :=
  let* _ := emit (DbTextCount search) in
  let* docs := gets employees in
  ret (Z.of_nat
         (length (filter (fun e => (text_search search e && isActive e) = true)
                    docs))).

Definition aggregate {A} (pipeline : string) (f : list IEmployee -> A) : M A :=
  let* _ := emit (DbAggregate pipeline) in
  let* docs := gets employees in
  ret (f docs).

End Model.
End Employee.

(** ** EmployeeService (services/employee.service.ts) *)

Definition empty_filter : IEmployeeFilter :=
  {| filter_id := None; filter_name := None; filter_email := None;
     filter_class := None; filter_department := None; filter_ageMin := None;
     filter_ageMax := None; filter_isActive := None; filter_subject := None |}.

(** [{ _id: ref }] *)
Definition only_id (ref : string) : IEmployeeFilter :=
  {| filter_id := Some ref; filter_name := None; filter_email := None;
     filter_class := None; filter_department := None; filter_ageMin := None;
     filter_ageMax := None; filter_isActive := None; filter_subject := None |}.

Module EmployeeService.
Section Service.
Context `{Platform}.

Definition CACHE_TTL : Z := 300.

(** The "Build query" block of [getEmployees]. *)
Definition build_query (filter : IEmployeeFilter) : Query :=
  {| query_isActive := default true (filter_isActive filter);
     query_name :=
       if truthy_str (filter_name filter) then filter_name filter else None;
     query_email :=
       if truthy_str (filter_email filter) then filter_email filter else None;
     query_class :=
       if truthy_str (filter_class filter) then filter_class filter else None;
     query_department :=
       if truthy_str (filter_department filter)
       then filter_department filter else None;
     query_age :=
       if truthy_num (filter_ageMin filter) || truthy_num (filter_ageMax filter)
       then Some (if truthy_num (filter_ageMin filter)
                  then filter_ageMin filter else None,
                  if truthy_num (filter_ageMax filter)
                  then filter_ageMax filter else None)
       else None;
     query_subjects :=
       if truthy_str (filter_subject filter)
       then filter_subject filter else None |}.

(** The envelope built by [getEmployees] and [searchEmployees]. *)
Definition envelope (items : list IEmployee) (n pg lim : Z)
  : IPaginatedResponse :=
  let pgs := Math_ceil_div n lim in
  {| data := items;
     pagination := {| total := n; page := pg; limit := lim; pages := pgs;
                      hasNextPage := js_lt pg pgs;
                      hasPrevPage := 1 <? pg |} |}.

Definition getEmployees (filter : IEmployeeFilter)
  (pagination : option IPaginationInput) (sort : option ISortInput) : M Json :=
  let pagination :=
    default {| input_page := Some 1; input_limit := Some 10 |} pagination in
  let sort :=
    default {| field := Some "createdAt"; order := Some DESC |} sort in
  let page := default 1 (input_page pagination) in
  let limit := default 10 (input_limit pagination) in
  let skip := (page - 1) * limit in
  let query := build_query filter in
  let cacheKey :=
    "employees:" +:+
    JSON_stringify {| key_query := query; key_skip := skip;
                      key_limit := limit; key_sort := sort |} in
  let* cached := CacheService.get cacheKey in
  match cached with
  | Some text => ret text
  | None =>
      let sortOrder := match order sort with Some ASC => 1 | _ => -1 end in
      let sortField :=
        if truthy_str (field sort) then default "createdAt" (field sort)
        else "createdAt" in
      let* (data, total) :=
        Promise_all2 (Employee.find query sortField sortOrder skip limit)
                     (Employee.countDocuments query) in
      let result := envelope data total page limit in
      let* _ := CacheService.set cacheKey
                  (JConnection (JSON_roundtrip result)) (Some CACHE_TTL) in
      ret (JConnection result)
  end.

Definition getEmployeeById (id : string) : M (option Json) :=
  let cacheKey := "employee:" +:+ id in
  let* cached := CacheService.get cacheKey in
  match cached with
  | Some text => ret (Some text)
  | None =>
      let* employee := Employee.findById id in
      match employee with
      | Some e =>
          let* _ := CacheService.set cacheKey (JEmployee e) (Some CACHE_TTL) in
          ret (Some (JEmployee e))
      | None => ret None
      end
  end.

(** [new Employee({ ...input, createdBy })]: the strings go through the
    setters of their paths, and [employeeId] is left unset. *)
Definition new_Employee (input : IEmployeeInput) (createdBy : string)
  : M IEmployee :=
  let* id := fresh_oid in
  let* t := gets now in
  ret {| _id := id;
         employeeId := "";
         name := trim_setter (new_name input);
         email := email_setters (new_email input);
         age := new_age input;
         class := trim_setter (new_class input);
         subjects := new_subjects input;
         attendance := [];
         joiningDate := default t (new_joiningDate input);
         salary := new_salary input;
         department := trim_setter <$> new_department input;
         isActive := true;
         createdBy := createdBy;
         createdAt := t;
         updatedAt := t |}.

Definition createEmployee (input : IEmployeeInput) (createdBy : string)
  : M IEmployee :=
  let* existing := Employee.findOne (new_email input) None in
  match existing with
  | Some _ =>
      throw (GraphQLError "Employee with this email already exists"
               "DUPLICATE_EMAIL")
  | None =>
      let* employee := new_Employee input createdBy in
      let* employee := Employee.save employee in
      let* _ := CacheService.deletePattern "employees:*" in
      ret employee
  end.

Definition updateEmployee (id : string) (input : IUpdateEmployeeInput)
  : M (option IEmployee) :=
  let* _ :=
    (if truthy_str (set_email input) then
       let* existing :=
         Employee.findOne (default "" (set_email input)) (Some id) in
       match existing with
       | Some _ => throw (GraphQLError "Email already in use" "DUPLICATE_EMAIL")
       | None => ret tt
       end
     else ret tt) in
  let* employee := Employee.findByIdAndUpdate_set id input true in
  match employee with
  | Some e =>
      let* _ := Promise_all_
                  [CacheService.delete ("employee:" +:+ id);
                   CacheService.deletePattern "employees:*"] in
      ret (Some e)
  | None => ret None
  end.

Definition set_inactive : IUpdateEmployeeInput :=
  {| set_name := None; set_email := None; set_age := None;
     set_class := None; set_subjects := None; set_salary := None;
     set_department := None; set_isActive := Some false |}.

Definition deleteEmployee (id : string) : M bool :=
  let* employee := Employee.findByIdAndUpdate_set id set_inactive false in
  match employee with
  | Some _ =>
      let* _ := Promise_all_
                  [CacheService.delete ("employee:" +:+ id);
                   CacheService.deletePattern "employees:*"] in
      ret true
  | None => ret false
  end.

Definition searchEmployees (searchQuery : string)
  (pagination : option IPaginationInput) : M IPaginatedResponse :=
  let pagination :=
    default {| input_page := None; input_limit := None |} pagination in
  let page := default 1 (input_page pagination) in
  let limit := default 10 (input_limit pagination) in
  let skip := (page - 1) * limit in
  let* (data, total) :=
    Promise_all2 (Employee.textFind searchQuery skip limit)
                 (Employee.textCount searchQuery) in
  ret (envelope data total page limit).

Definition markAttendance (employeeId : string) (a : IAttendance)
  : M (option IEmployee) :=
  let* employee := Employee.findByIdAndUpdate_push employeeId a in
  match employee with
  | Some e =>
      let* _ := CacheService.delete ("employee:" +:+ employeeId) in
      ret (Some e)
  | None => ret None
  end.

Definition bulkUpdateEmployees (ids : list string)
  (input : IUpdateEmployeeInput) : M (list IEmployee) :=
  let* _ := Employee.updateMany ids input in
  let* _ := Promise_all_
              (map (fun id => CacheService.delete ("employee:" +:+ id)) ids
               ++ [CacheService.deletePattern "employees:*"]) in
  Employee.findByIds ids.

(** The attendance rate of [getEmployeeStats], from the aggregation row. *)
Definition attendance_rate (row : option (Z * Z)) : Q :=
  match row with
  | Some (totalDays, presentDays) =>
      (inject_Z presentDays / inject_Z totalDays * inject_Z 100)%Q
  | None => 0%Q
  end.

Definition getEmployeeStats : M EmployeeStats :=
  let* totalEmployees := Employee.countAll in
  let* activeEmployees := Employee.countActive true in
  let* inactiveEmployees := Employee.countActive false in
  let* avgAgeResult := Employee.aggregate "avgAge" average_age in
  let* departmentCounts :=
    Employee.aggregate "departmentCounts" group_by_department in
  let* attendanceStats :=
    Employee.aggregate "attendanceStats" attendance_totals in
  ret {| totalEmployees := totalEmployees;
         activeEmployees := activeEmployees;
         inactiveEmployees := inactiveEmployees;
         averageAge := match avgAgeResult with
                       | Some a => if Qeq_bool a 0 then 0%Q else a
                       | None => 0%Q
                       end;
         departmentCounts :=
           filter (fun d => truthy_str (dc_department d) = true)
             departmentCounts;
         averageAttendanceRate := attendance_rate attendanceStats |}.

End Service.
End EmployeeService.

(** ** employeeResolver (graphql/resolvers/employee.resolver.ts) *)

(** [Object.keys(input)] for an update input. *)
Definition key_if {A} (o : option A) (key : string) : list string :=
  match o with
  | Some _ => [key]
  | None => []
  end.

Definition Object_keys (input : IUpdateEmployeeInput) : list string :=
  key_if (set_name input) "name"
  ++ key_if (set_email input) "email"
  ++ key_if (set_age input) "age"
  ++ key_if (set_class input) "class"
  ++ key_if (set_subjects input) "subjects"
  ++ key_if (set_salary input) "salary"
  ++ key_if (set_department input) "department"
  ++ key_if (set_isActive input) "isActive".

Definition is_admin (u : ContextUser) : bool :=
  match role u with ADMIN => true | EMPLOYEE => false end.

Definition is_employee (u : ContextUser) : bool :=
  match role u with EMPLOYEE => true | ADMIN => false end.

(** [context.user.employeeRef?.toString() !== id] *)
Definition ref_differs (u : ContextUser) (id : string) : bool :=
  match employeeRef u with
  | Some r => negb (String.eqb r id)
  | None => true
  end.

Definition not_authenticated {A} : M A :=
  throw (GraphQLError "Not authenticated" "UNAUTHENTICATED").

Definition admin_required {A} : M A :=
  throw (GraphQLError "Admin access required" "FORBIDDEN").

Definition not_found {A} : M A :=
  throw (GraphQLError "Employee not found" "NOT_FOUND").

Module employeeResolver.
Section Resolver.
Context `{Platform}.

Definition allowedFields : list string := ["subjects"; "class"].

Definition employees (filter : option IEmployeeFilter)
  (pagination : option IPaginationInput) (sort : option ISortInput)
  (context : IContext) : M Json :=
  match user context with
  | None => not_authenticated
  | Some u =>
      let queryFilter := default empty_filter filter in
      let queryFilter :=
        match is_employee u, employeeRef u with
        | true, Some ref => only_id ref
        | _, _ => queryFilter
        end in
      EmployeeService.getEmployees queryFilter pagination sort
  end.

Definition employee (id : string) (context : IContext) : M Json :=
  match user context with
  | None => not_authenticated
  | Some u =>
      if is_employee u && ref_differs u id then
        throw (GraphQLError "Not authorized to view this employee" "FORBIDDEN")
      else
        let* found := EmployeeService.getEmployeeById id in
        match found with
        | Some e => ret e
        | None => not_found
        end
  end.

Definition searchEmployees (query : string)
  (pagination : option IPaginationInput) (context : IContext)
  : M IPaginatedResponse :=
  match user context with
  | None => not_authenticated
  | Some u =>
      if negb (is_admin u) then
        throw (GraphQLError "Not authorized" "FORBIDDEN")
      else EmployeeService.searchEmployees query pagination
  end.

Definition employeeStats (context : IContext) : M EmployeeStats :=
  match user context with
  | None => admin_required
  | Some u =>
      if negb (is_admin u) then admin_required
      else EmployeeService.getEmployeeStats
  end.

Definition createEmployee (input : IEmployeeInput) (context : IContext)
  : M IEmployee :=
  match user context with
  | None => admin_required
  | Some u =>
      if negb (is_admin u) then admin_required
      else EmployeeService.createEmployee input (user_id u)
  end.

Definition updateEmployee (id : string) (input : IUpdateEmployeeInput)
  (context : IContext) : M IEmployee :=
  match user context with
  | None => not_authenticated
  | Some u =>
      let* _ :=
        (if is_employee u then
           if ref_differs u id then
             throw (GraphQLError "Not authorized" "FORBIDDEN")
           else
             let restrictedFields :=
               filter (fun key => key ∉ allowedFields) (Object_keys input) in
             if 0 <? Z.of_nat (length restrictedFields) then
               throw (GraphQLError
                        ("Employees can only update: "
                         +:+ String.concat ", " allowedFields)
                        "FORBIDDEN")
             else ret tt
         else ret tt) in
      let* updated := EmployeeService.updateEmployee id input in
      match updated with
      | Some e => ret e
      | None => not_found
      end
  end.

Definition deleteEmployee (id : string) (context : IContext) : M bool :=
  match user context with
  | None => admin_required
  | Some u =>
      if negb (is_admin u) then admin_required
      else
        let* result := EmployeeService.deleteEmployee id in
        if negb result then not_found else ret true
  end.

Definition markAttendance (employeeId : string) (a : IAttendance)
  (context : IContext) : M IEmployee :=
  match user context with
  | None => not_authenticated
  | Some u =>
      if is_employee u && ref_differs u employeeId then
        throw (GraphQLError "Not authorized" "FORBIDDEN")
      else
        let* updated := EmployeeService.markAttendance employeeId a in
        match updated with
        | Some e => ret e
        | None => not_found
        end
  end.

Definition bulkUpdateEmployees (ids : list string)
  (input : IUpdateEmployeeInput) (context : IContext) : M (list IEmployee) :=
  match user context with
  | None => admin_required
  | Some u =>
      if negb (is_admin u) then admin_required
      else EmployeeService.bulkUpdateEmployees ids input
  end.

End Resolver.
End employeeResolver.

(** ** Configuration (config/environment.ts) *)

Definition defaultPageSize : Z := 10.
Definition maxPageSize : Z := 100.

(** ** Specification-side definitions *)

Definition cache_unavailable (w : World) : Prop :=
  isConnected w = false \/ redis_failing w = true.

Definition cache_available (w : World) : Prop :=
  isConnected w = true /\ redis_failing w = false.

Section Direct.
Context `{Platform}.

(** The list read taken to the store directly: the page slice, the
    count and the envelope, with no cache in between. *)
Definition direct_getEmployees (filter : IEmployeeFilter)
  (pagination : option IPaginationInput) (sort : option ISortInput) : M Json :=
  let pagination :=
    default {| input_page := Some 1; input_limit := Some 10 |} pagination in
  let sort :=
    default {| field := Some "createdAt"; order := Some DESC |} sort in
  let page := default 1 (input_page pagination) in
  let limit := default 10 (input_limit pagination) in
  let query := EmployeeService.build_query filter in
  let* (data, total) :=
    Promise_all2
      (Employee.find query
         (if truthy_str (field sort) then default "createdAt" (field sort)
          else "createdAt")
         (match order sort with Some ASC => 1 | _ => -1 end)
         ((page - 1) * limit) limit)
      (Employee.countDocuments query) in
  ret (JConnection (EmployeeService.envelope data total page limit)).

(** The single-record read taken to the store directly. *)
Definition direct_getEmployeeById (id : string) : M (option Json) :=
  let* found := Employee.findById id in
  ret (JEmployee <$> found).

End Direct.

(** [w] after the calls [evs] were recorded. *)
Definition logged (evs : list Event) (w : World) : World :=
  {| employees := employees w; redis := redis w;
     isConnected := isConnected w; redis_failing := redis_failing w;
     trace := trace w ++ evs; now := now w; oid_next := oid_next w |}.

(** [w] with another keyspace. *)
Definition with_redis (m : gmap string Json) (w : World) : World :=
  {| employees := employees w; redis := m;
     isConnected := isConnected w; redis_failing := redis_failing w;
     trace := trace w; now := now w; oid_next := oid_next w |}.

(** [w] with another collection. *)
Definition with_employees (docs : list IEmployee) (w : World) : World :=
  {| employees := docs; redis := redis w;
     isConnected := isConnected w; redis_failing := redis_failing w;
     trace := trace w; now := now w; oid_next := oid_next w |}.

(** The keys of the list-query namespace. *)
Definition list_key (k : string) : Prop := String.prefix "employees:" k = true.

(** The keys a pattern selects in a keyspace. *)
Definition matching_keys (pattern : string) (m : gmap string Json)
  : list string :=
  filter (fun k => glob_match pattern k = true) (map fst (map_to_list m)).

(** A pattern text without wildcards. *)
Fixpoint literal (p : string) : bool :=
  match p with
  | EmptyString => true
  | String c p' =>
      negb (Ascii.eqb c "*"%char) && negb (Ascii.eqb c "?"%char) && literal p'
  end.

(** A text in which the character [c] does not occur. *)
Fixpoint free_of (c : ascii) (s : string) : bool :=
  match s with
  | EmptyString => true
  | String c' s' => negb (Ascii.eqb c' c) && free_of c s'
  end.

(** A pattern text that Redis reads character by character: it has no
    wildcard, opens no character class and escapes nothing. *)
Definition plain_text (p : string) : bool :=
  literal p && free_of "["%char p && free_of "\"%char p.

(** The page number and the page size a call works with. *)
Definition page_of (pagination : option IPaginationInput) : Z :=
  default 1 (pagination ≫= input_page).

Definition limit_of (pagination : option IPaginationInput) : Z :=
  default 10 (pagination ≫= input_limit).

Section Keys.
Context `{Platform}.

(** The cache key [getEmployees] computes for a call. *)
Definition cacheKey (filter : IEmployeeFilter)
  (pagination : option IPaginationInput) (sort : option ISortInput) : string :=
  "employees:" +:+
  JSON_stringify
    {| key_query := EmployeeService.build_query filter;
       key_skip := (page_of pagination - 1) * limit_of pagination;
       key_limit := limit_of pagination;
       key_sort := default {| field := Some "createdAt"; order := Some DESC |}
                     sort |}.

(** The documents a list call selects, before sorting and slicing. *)
Definition selected (f : IEmployeeFilter) (docs : list IEmployee)
  : list IEmployee :=
  filter (fun e => matches (EmployeeService.build_query f) e = true) docs.

(** The envelope the store gives for a list call. *)
Definition store_page (f : IEmployeeFilter)
  (pg : option IPaginationInput) (s : option ISortInput)
  (docs : list IEmployee) : IPaginatedResponse :=
  let s' := default {| field := Some "createdAt"; order := Some DESC |} s in
  EmployeeService.envelope
    (page_slice ((page_of pg - 1) * limit_of pg) (limit_of pg)
       (sort_docs
          (if truthy_str (field s') then default "createdAt" (field s')
           else "createdAt")
          (match order s' with Some ASC => 1 | _ => -1 end)
          (selected f docs)))
    (Z.of_nat (length (selected f docs)))
    (page_of pg) (limit_of pg).

End Keys.

(** The lookup of [key] finds nothing: the cache is unavailable or holds no
    such entry. *)
Definition cache_misses (w : World) (key : string) : Prop :=
  cache_unavailable w \/ redis w !! key = None.

(** The keyspace after [delete key] and [deletePattern "employees:*"]. *)
Definition evicted (key : string) (m : gmap string Json) : gmap string Json :=
  foldr delete (delete key m) (matching_keys "employees:*" (delete key m)).

(** The filter [{ isActive: false }]. *)
Definition inactive_filter : IEmployeeFilter :=
  {| filter_id := None; filter_name := None; filter_email := None;
     filter_class := None; filter_department := None; filter_ageMin := None;
     filter_ageMax := None; filter_isActive := Some false;
     filter_subject := None |}.

(** Does a document other than [id] hold the address [mail]? *)
Definition held_by_other `{Platform} (mail id : string) (e : IEmployee)
  : bool :=
  same_address mail e && negb (has_id id e).

(** The duplicate check of [updateEmployee] fires, for an id that casts. *)
Definition update_is_duplicate `{Platform} (id : string)
  (input : IUpdateEmployeeInput) (docs : list IEmployee) : bool :=
  truthy_str (set_email input)
  && bool_decide
       (is_Some (List.find (held_by_other (default "" (set_email input)) id)
                   docs)).

(** Roster-wide attendance counts, record by record. *)
Definition total_entries (docs : list IEmployee) : Z :=
  foldr Z.add 0 (map (fun e => Z.of_nat (length (attendance e))) docs).

Definition total_present (docs : list IEmployee) : Z :=
  foldr Z.add 0
    (map (fun e => Z.of_nat
                     (length (filter (fun a => is_present a = true)
                                (attendance e)))) docs).

(** The number of active records of a department. *)
Definition active_in_department (dept : string) (docs : list IEmployee) : Z :=
  Z.of_nat
    (length (filter (fun e => department e = Some dept /\ isActive e = true)
               docs)).

(** The invariant of the page envelope that answers a request for page
    [pg] with page size [lim]: it carries that page and that size, [pages]
    is the ceiling of [total / limit], that is the one integer [n] with
    [(n - 1) * limit < total <= n * limit], and the two flags compare
    [page] with it and with 1. *)
Definition envelope_ok (pg lim : Z) (p : IPaginationInfo) : Prop :=
  page p = pg
  /\ limit p = lim
  /\ exists n,
       pages p = Fin n
       /\ n = Qceiling (total p # Z.to_pos (limit p))
       /\ (n - 1) * limit p < total p <= n * limit p
       /\ hasNextPage p = (page p <? n)
       /\ hasPrevPage p = (1 <? page p)
       /\ (page p = n -> hasNextPage p = false)
       /\ (page p = 1 -> hasPrevPage p = false).

(** A value may be stored under a key: under the key of a list request
    for page [pg] with a page size of at least 1, it must be an envelope
    that satisfies the invariant for that page and that size. *)
Definition fits `{Platform} (key : string) (value : Json) : Prop :=
  forall ko pg,
    key = "employees:" +:+ JSON_stringify ko ->
    1 <= key_limit ko ->
    key_skip ko = (pg - 1) * key_limit ko ->
    exists r,
      value = JConnection r /\ envelope_ok pg (key_limit ko) (pagination r).

(** Every entry of the keyspace is as [ok] wants it. *)
Definition cache_holds (ok : string -> Json -> Prop) (w : World) : Prop :=
  forall k v, redis w !! k = Some v -> ok k v.

(** Every entry of the list namespace holds an envelope that satisfies the
    invariant. *)
Definition list_cache_ok `{Platform} (w : World) : Prop := cache_holds fits w.

Section Flags.
Context `{Platform}.

(** Under the key of a list query, the value is an envelope whose items
    all carry the active flag that the query asks for. *)
Definition shows_flag (key : string) (value : Json) : Prop :=
  forall ko,
    key = "employees:" +:+ JSON_stringify ko ->
    exists r,
      value = JConnection r
      /\ Forall (fun e => isActive e = query_isActive (key_query ko)) (data r).

Definition list_cache_flags (w : World) : Prop := cache_holds shows_flag w.

End Flags.

Section Traces.
Context `{Platform}.

(** The calls a list read makes, in order. *)
Definition list_calls (w : World) (f : IEmployeeFilter)
  (pg : option IPaginationInput) (s : option ISortInput) : list Event :=
  let key := cacheKey f pg s in
  let skip := (page_of pg - 1) * limit_of pg in
  let store := [DbFind (EmployeeService.build_query f) skip (limit_of pg);
                DbCount (EmployeeService.build_query f)] in
  if isConnected w then
    if redis_failing w then
      [RedisGet key; Logged error "Cache get error:"] ++ store
      ++ (if skip <? 0 then []
          else [RedisSetex key 300; Logged error "Cache set error:"])
    else
      match redis w !! key with
      | Some _ => [RedisGet key]
      | None =>
          [RedisGet key] ++ store
          ++ (if skip <? 0 then [] else [RedisSetex key 300])
      end
  else
    [Logged warn "Redis not connected, skipping cache get"] ++ store
    ++ (if skip <? 0 then []
        else [Logged warn "Redis not connected, skipping cache set"]).

End Traces.

(** An update of the name alone. *)
Definition rename_to (new : string) : IUpdateEmployeeInput :=
  {| set_name := Some new; set_email := None; set_age := None;
     set_class := None; set_subjects := None; set_salary := None;
     set_department := None; set_isActive := None |}.

(** The message that names the fields a member may update. *)
Definition allowed_fields_message : string :=
  "Employees can only update: subjects, class".

(** A call keeps a property of the world, whatever it returns. *)
Definition preserves {A} (P : World -> Prop) (m : M A) : Prop :=
  forall w, P w -> P (snd (m w)).

(** ** A reference platform for the executable examples

    Documents keep their collection order, a pattern matches a value that
    contains it, a new document passes validation when it carries a code,
    every update passes it, the cache-key text lists the fields of the key
    object, an ObjectId is cast from 24 hexadecimal digits or from 12
    characters, and the setters work on ASCII. *)

Definition contains (pattern value : string) : bool :=
  bool_decide (is_Some (String.index 0 pattern value)).

Definition show_opt (o : option string) : string := default "-" o.

Definition show_num (o : option Z) : string :=
  match o with
  | Some n => pretty n
  | None => "-"
  end.

Definition show_key (k : KeyObject) : string :=
  let q := key_query k in
  String.concat "|"
    [ (if query_isActive q then "true" else "false");
      pretty (key_skip k); pretty (key_limit k);
      show_opt (query_name q); show_opt (query_email q);
      show_opt (query_class q); show_opt (query_department q);
      match query_age q with
      | Some (lo, hi) => show_num lo +:+ ".." +:+ show_num hi
      | None => "-"
      end;
      show_opt (query_subjects q);
      show_opt (field (key_sort k));
      match order (key_sort k) with
      | Some ASC => "ASC"
      | Some DESC => "DESC"
      | None => "-"
      end ].

(** [toLowerCase] on the letters A to Z. *)
Definition lower_ascii (c : ascii) : ascii :=
  let n := Ascii.N_of_ascii c in
  if (65 <=? n)%N && (n <=? 90)%N then Ascii.ascii_of_N (n + 32) else c.

Fixpoint toLowerCase (s : string) : string :=
  match s with
  | EmptyString => EmptyString
  | String c r => String (lower_ascii c) (toLowerCase r)
  end.

Fixpoint trimStart (s : string) : string :=
  match s with
  | EmptyString => EmptyString
  | String c r => if Ascii.is_space c then trimStart r else s
  end.

Fixpoint trimEnd (s : string) : string :=
  match s with
  | EmptyString => EmptyString
  | String c r =>
      match trimEnd r with
      | EmptyString => if Ascii.is_space c then EmptyString else String c EmptyString
      | r' => String c r'
      end
  end.

Definition trim (s : string) : string := trimEnd (trimStart s).

Definition is_hex (c : ascii) : bool :=
  let n := Ascii.N_of_ascii c in
  ((48 <=? n) && (n <=? 57) || (65 <=? n) && (n <=? 70)
   || (97 <=? n) && (n <=? 102))%N.

Fixpoint all_hex (s : string) : bool :=
  match s with
  | EmptyString => true
  | String c r => is_hex c && all_hex r
  end.

(** What the driver casts to an ObjectId: 24 hexadecimal digits, or a
    string of 12 characters. *)
Definition is_ObjectId_text (s : string) : bool :=
  (String.length s =? 24)%nat && all_hex s || (String.length s =? 12)%nat.

#[export] Instance reference_platform : Platform.
Proof.
  refine {|
    JSON_stringify := show_key;
    regex_i := contains;
    text_search := fun s e => contains s (name e) || contains s (email e);
    sort_docs := fun _ _ l => l;
    sort_by_score := fun _ l => l;
    validate_doc := fun d => negb (String.eqb (employeeId d) "");
    validate_set := fun _ => true;
    validate_push := fun _ => true;
    ObjectId := fun n => "oid" +:+ pretty n;
    casts_to_ObjectId := is_ObjectId_text;
    email_setters := fun s => trim (toLowerCase s);
    trim_setter := trim
  |}.
  - intros k1 k2. unfold show_key.
    destruct (query_isActive (key_query k1)), (query_isActive (key_query k2));
      simpl; intros Heq; solve [reflexivity | discriminate Heq].
  - assert (forall x s, free_of "|" s = true ->
                        free_of "|" (pretty_N_go x s) = true) as Hgo.
    { intros x. induction (N.lt_wf_0 x) as [x _ IH]. intros s Hs.
      destruct (decide (x = 0)%N) as [-> | Hx]; [done |].
      rewrite pretty_N_go_step by lia. apply IH; [apply N.div_lt; lia |].
      simpl. rewrite Hs. unfold pretty_N_char. by repeat case_match. }
    assert (forall z : Z, free_of "|" (pretty z) = true) as Hnum.
    { intros [| x | x]; [done | |].
      - unfold pretty, pretty_Z, pretty, pretty_positive, pretty, pretty_N.
        case_decide; [done |]. by apply Hgo.
      - unfold pretty, pretty_Z, pretty, pretty_positive, pretty, pretty_N.
        case_decide; [done |]. simpl. by apply Hgo. }
    assert (forall a b r1 r2,
               free_of "|" a = true -> free_of "|" b = true ->
               a +:+ String "|" r1 = b +:+ String "|" r2 ->
               a = b /\ r1 = r2) as Hsplit.
    { induction a as [| c a IH]; intros [| d b] r1 r2 Ha Hb; simpl.
      - by intros [= ->].
      - intros [= <- _]. done.
      - intros [= -> _]. done.
      - intros [= -> Heq]. simpl in Ha, Hb.
        apply andb_prop in Ha as [_ Ha]. apply andb_prop in Hb as [_ Hb].
        destruct (IH b r1 r2 Ha Hb Heq) as [-> ->]. done. }
    intros k1 k2. unfold show_key.
    intros Heq.
    destruct (query_isActive (key_query k1)), (query_isActive (key_query k2));
      simpl in Heq; try discriminate Heq.
    + injection Heq as Heq.
      apply Hsplit in Heq as [Hs Heq]; [| apply Hnum ..].
      apply Hsplit in Heq as [Hl _]; [| apply Hnum ..].
      split; by apply (inj pretty).
    + injection Heq as Heq.
      apply Hsplit in Heq as [Hs Heq]; [| apply Hnum ..].
      apply Hsplit in Heq as [Hl _]; [| apply Hnum ..].
      split; by apply (inj pretty).
  - reflexivity.
  - intros d Hd Hcode. rewrite Hcode in Hd. discriminate Hd.
  - assert (forall c, Ascii.is_space (lower_ascii c) = Ascii.is_space c)
      as Hspace.
    { by intros [[] [] [] [] [] [] [] []]. }
    assert (forall c, lower_ascii (lower_ascii c) = lower_ascii c) as Hletter.
    { by intros [[] [] [] [] [] [] [] []]. }
    assert (forall s, toLowerCase (trimStart s) = trimStart (toLowerCase s))
      as Hstart.
    { induction s as [| c s IH]; [done |]. simpl. rewrite Hspace.
      by destruct (Ascii.is_space c). }
    assert (forall s, toLowerCase (trimEnd s) = trimEnd (toLowerCase s))
      as Hend.
    { induction s as [| c s IH]; [done |]. simpl. rewrite <- IH.
      destruct (trimEnd s); simpl; [| done].
      rewrite Hspace. by destruct (Ascii.is_space c). }
    assert (forall s, toLowerCase (toLowerCase s) = toLowerCase s) as Hlower.
    { induction s as [| c s IH]; [done |]. simpl. by rewrite Hletter, IH. }
    assert (forall s, trimEnd (trimEnd s) = trimEnd s) as Htwice.
    { induction s as [| c s IH]; [done |]. simpl.
      destruct (trimEnd s) as [| a r] eqn:Hr.
      - destruct (Ascii.is_space c) eqn:Hc; [done |]. simpl. by rewrite Hc.
      - change (trimEnd (String c (String a r)))
          with (match trimEnd (String a r) with
                | EmptyString =>
                    if Ascii.is_space c then EmptyString
                    else String c EmptyString
                | r' => String c r'
                end).
        by rewrite IH. }
    assert (forall s, trimStart (trimEnd (trimStart s)) = trimEnd (trimStart s))
      as Hboth.
    { induction s as [| c s IH]; [done |]. cbn [trimStart].
      destruct (Ascii.is_space c) eqn:Hc; [exact IH |]. simpl.
      destruct (trimEnd s); rewrite ?Hc; simpl; by rewrite ?Hc. }
    intros s. unfold trim.
    by rewrite Hend, Hstart, Hlower, Hboth, Htwice.
Defined.

Definition john : IEmployee :=
  {| _id := "e1"; employeeId := "EMP000001"; name := "John Doe";
     email := "john@example.com"; age := 30; class := "Grade 10";
     subjects := ["Math"; "Physics"]; attendance := [];
     joiningDate := 0; salary := None; department := Some "Science";
     isActive := true; createdBy := "u0"; createdAt := 0; updatedAt := 0 |}.

Definition jane : IEmployee :=
  {| _id := "e2"; employeeId := "EMP000002"; name := "Jane Smith";
     email := "jane@x.com"; age := 28; class := "Grade 10";
     subjects := ["Math"]; attendance := [];
     joiningDate := 0; salary := None; department := None;
     isActive := true; createdBy := "u0"; createdAt := 0; updatedAt := 0 |}.

(** A world with a working, empty cache. *)
Definition world_of (docs : list IEmployee) : World :=
  {| employees := docs; redis := ∅; isConnected := true;
     redis_failing := false; trace := []; now := 1000; oid_next := 0 |}.

(** The same world with the cache connection down. *)
Definition world_without_cache (docs : list IEmployee) : World :=
  {| employees := docs; redis := ∅; isConnected := false;
     redis_failing := false; trace := []; now := 1000; oid_next := 0 |}.

Definition member_user (ref : option string) : ContextUser :=
  {| user_id := "u1"; user_email := "john@example.com";
     role := EMPLOYEE; employeeRef := ref |}.

Definition member (ref : option string) : IContext :=
  {| user := Some (member_user ref) |}.

Definition admin_user : ContextUser :=
  {| user_id := "u0"; user_email := "admin@example.com";
     role := ADMIN; employeeRef := None |}.

Definition admin : IContext := {| user := Some admin_user |}.

Definition present_today : IAttendance :=
  {| date := 1000; status := present; remarks := None |}.

(** An update of the e-mail address alone. *)
Definition readdress_to (mail : string) : IUpdateEmployeeInput :=
  {| set_name := None; set_email := Some mail; set_age := None;
     set_class := None; set_subjects := None; set_salary := None;
     set_department := None; set_isActive := None |}.

(** The input of the end-to-end scenario. *)
Definition jane_input : IEmployeeInput :=
  {| new_name := "Jane Smith"; new_email := "jane@x.com"; new_age := 28;
     new_class := "Grade 10"; new_subjects := ["Math"]; new_salary := None;
     new_department := None; new_joiningDate := None |}.

(** The first page of ten, as the cache holds it for a store with [john]. *)
Definition first_page_of_john : Json :=
  JConnection
    {| data := [john];
       pagination := {| total := 1; page := 1; limit := 10; pages := Fin 1;
                        hasNextPage := false; hasPrevPage := false |} |}.

(** The operations of the scenario in sequence, each on the world the
    previous one left: create as admin, which [save()] refuses; list; soft
    delete of the stored record; list with the default filter; list with
    [isActive: false].  The error of the creation and the totals are
    collected along the way. *)
Definition scenario : M (option Exn * Z * bool * Z * Z) :=
  let total_of (v : Json) : Z :=
    match v with
    | JConnection r => total (pagination r)
    | JEmployee _ => -1
    end in
  let* refused :=
    try_catch
      (let* _ := employeeResolver.createEmployee jane_input admin in ret None)
      (fun e => ret (Some e)) in
  let* listed := employeeResolver.employees None None None admin in
  let* deleted := employeeResolver.deleteEmployee "e1" admin in
  let* active := employeeResolver.employees None None None admin in
  let* inactive :=
    employeeResolver.employees (Some inactive_filter) None None admin in
  ret (refused, total_of listed, deleted, total_of active,
       total_of inactive).

(** ** Relations between two states of the collection *)

(** Does [set] store the value?  Without an expiry, and with an expiry of
    0, it sends [SET]; otherwise [SETEX], which refuses a negative
    expiry. *)
Definition ttl_accepted (ttl : option Z) : bool :=
  match ttl with
  | Some t => 0 <=? t
  | None => true
  end.

(** A property of the collection, read in a world. *)
Definition on_store (Q : list IEmployee -> Prop) (w : World) : Prop :=
  Q (employees w).

(** [d'] is a later state of the document [d]: the identity and the
    creation data are the same and the attendance log is only extended. *)
Definition later_state (d d' : IEmployee) : Prop :=
  _id d' = _id d /\ employeeId d' = employeeId d
  /\ createdBy d' = createdBy d /\ createdAt d' = createdAt d
  /\ joiningDate d' = joiningDate d
  /\ attendance d `prefix_of` attendance d'.

(** [docs'] holds a later state of every document of [docs], at the same
    position, followed by the documents inserted since. *)
Definition grows_from (docs docs' : list IEmployee) : Prop :=
  exists upd new, docs' = upd ++ new /\ Forall2 later_state docs upd.

(** No two documents share an email. *)
Definition unique_emails (docs : list IEmployee) : Prop :=
  NoDup (map email docs).

(** The document at position [i] carries the code the pre-save hook gives
    the [i]-th insert. *)
Definition codes_in_sequence (docs : list IEmployee) : Prop :=
  forall i d, docs !! i = Some d -> employeeId d = pre_save_employeeId i.

(** ** The attendance rate of one record (models/Employee.model.ts) *)

(** The virtual [attendanceRate]. *)
Definition attendanceRate (e : IEmployee) : Q :=
  if (length (attendance e) =? 0)%nat then 0%Q
  else
    let presentDays :=
      length (filter (fun a => is_present a = true) (attendance e)) in
    (inject_Z (Z.of_nat presentDays)
     / inject_Z (Z.of_nat (length (attendance e))) * inject_Z 100)%Q.

(** ** JavaScript errors, as the authentication code inspects them *)

Record JsError := {
  error_name : string;             (* error.name *)
  error_message : string;          (* error.message *)
  error_code : option string       (* error.extensions?.code *)
}.

(** [new GraphQLError(message, { extensions: { code } })] *)
Definition new_GraphQLError (message code : string) : JsError :=
  {| error_name := "GraphQLError"; error_message := message;
     error_code := Some code |}.

(** [new Error(message)] *)
Definition new_Error (message : string) : JsError :=
  {| error_name := "Error"; error_message := message; error_code := None |}.

(** Errors raised by Mongoose and by the driver. *)
Definition CastError : JsError :=
  {| error_name := "CastError";
     error_message := "Cast to ObjectId failed";
     error_code := None |}.

Definition ValidationError : JsError :=
  {| error_name := "ValidationError";
     error_message := "User validation failed";
     error_code := None |}.

Definition DuplicateKeyError : JsError :=
  {| error_name := "MongoServerError";
     error_message := "E11000 duplicate key error";
     error_code := None |}.

(** ** Users (models/User.model.ts) *)

Module User.

Record IUser := {
  _id : string;
  email : string;
  password : option string;      (* absent when the field is not selected *)
  role : UserRole;
  firstName : string;
  lastName : string;
  isActive : bool;
  lastLogin : option Z;
  employeeRef : option string;
  createdAt : Z;
  updatedAt : Z
}.

(** The virtual [fullName]. *)
Definition fullName (u : IUser) : string :=
  firstName u +:+ " " +:+ lastName u.

(** [.select('-password')], and the default projection of a schema whose
    password has [select: false]. *)
Definition without_password (u : IUser) : IUser :=
  {| _id := _id u; email := email u; password := None; role := role u;
     firstName := firstName u; lastName := lastName u;
     isActive := isActive u; lastLogin := lastLogin u;
     employeeRef := employeeRef u; createdAt := createdAt u;
     updatedAt := updatedAt u |}.

Definition with_password (hash : string) (u : IUser) : IUser :=
  {| _id := _id u; email := email u; password := Some hash; role := role u;
     firstName := firstName u; lastName := lastName u;
     isActive := isActive u; lastLogin := lastLogin u;
     employeeRef := employeeRef u; createdAt := createdAt u;
     updatedAt := updatedAt u |}.

Definition with_lastLogin (t : Z) (u : IUser) : IUser :=
  {| _id := _id u; email := email u; password := password u; role := role u;
     firstName := firstName u; lastName := lastName u;
     isActive := isActive u; lastLogin := Some t;
     employeeRef := employeeRef u; createdAt := createdAt u;
     updatedAt := t |}.

End User.

(** The payload of a token (utils/jwt.util.ts). *)
Record TokenPayload := {
  token_id : string;
  token_email : string;
  token_role : UserRole;
  token_employeeRef : option string
}.

(** What [jwt.verify] gives: a payload object, a string payload, or an
    error ([JsonWebTokenError], [TokenExpiredError], [NotBeforeError]). *)
Inductive JwtVerified :=
  | VerifiedPayload (p : TokenPayload)
  | VerifiedString (s : string)
  | VerifyThrows (e : JsError).

(** What the authentication code takes from its libraries. *)
Class AuthPlatform := {
  (** [jwt.sign(payload, JWT_SECRET, { expiresIn })] *)
  jwt_sign : TokenPayload -> string;
  (** [jwt.verify(token, JWT_SECRET)] *)
  jwt_verify : string -> JwtVerified;
  (** [bcrypt.hash(password, await bcrypt.genSalt(10))] *)
  bcrypt_hash : string -> string;
  (** [bcrypt.compare(candidate, hash)] *)
  bcrypt_compare : string -> string -> bool;
  (** a password matches its own hash *)
  bcrypt_compare_hash : forall p, bcrypt_compare p (bcrypt_hash p) = true;
  (** can the string be cast to an ObjectId? *)
  isValidObjectId : string -> bool;
  (** the [n]-th ObjectId generated for a user *)
  user_ObjectId : nat -> string;
  (** the setters of the [email] path ([lowercase], [trim]) on a document *)
  email_setter : string -> string;
  (** the cast of an [email] value in a query filter *)
  email_query : string -> string;
  (** the setter of the [firstName] and [lastName] paths ([trim]) *)
  name_setter : string -> string;
  (** schema validation run by [save()] on a new user *)
  validate_user : User.IUser -> bool
}.

(** The User collection, the clock and the ids generated so far. *)
Record UserStore := {
  users : list User.IUser;
  clock : Z;
  ids_made : nat
}.

Definition with_users (l : list User.IUser) (s : UserStore) : UserStore :=
  {| users := l; clock := clock s; ids_made := ids_made s |}.

(** [str.split(' ')] *)
Fixpoint split_on (sep : ascii) (s : string) : list string :=
  match s with
  | EmptyString => [EmptyString]
  | String c rest =>
      if Ascii.eqb c sep then EmptyString :: split_on sep rest
      else
        match split_on sep rest with
        | first :: others => String c first :: others
        | [] => [String c EmptyString]
        end
  end.

(** [error.extensions?.code || fallback] *)
Definition code_or (fallback : string) (e : JsError) : string :=
  if truthy_str (error_code e) then default fallback (error_code e)
  else fallback.

Section UserQueries.
Context `{AuthPlatform}.

(** [User.findOne({ email })], password not selected *)
Definition User_findOne (mail : string) (l : list User.IUser)
  : option User.IUser :=
  User.without_password
    <$> List.find (fun u => String.eqb (User.email u) (email_query mail)) l.

(** [User.findOne({ email, isActive: true }).select('+password')] *)
Definition User_findOne_active (mail : string) (l : list User.IUser)
  : option User.IUser :=
  List.find (fun u => String.eqb (User.email u) (email_query mail)
                      && User.isActive u) l.

(** [User.findById(id)], password not selected; an id that is no
    ObjectId fails the cast. *)
Definition User_findById (id : string) (l : list User.IUser)
  : JsError + option User.IUser :=
  if isValidObjectId id then
    inr (User.without_password
           <$> List.find (fun u => String.eqb (User._id u) id) l)
  else inl CastError.

(** [User.find({ _id: { $in: ids } }).select('-password')] *)
Definition User_find_in (ids : list string) (l : list User.IUser)
  : JsError + list User.IUser :=
  if forallb isValidObjectId ids then
    inr (map User.without_password
           (filter (fun u => User._id u ∈ ids) l))
  else inl CastError.

(** [comparePassword]: a failure of bcrypt counts as a mismatch. *)
Definition comparePassword (u : User.IUser) (candidate : string) : bool :=
  match User.password u with
  | Some hash => bcrypt_compare candidate hash
  | None => false
  end.

(** [save()] of a new user: validation, then the pre-save hook that
    hashes the password, then the insert, which the unique index on
    [email] can reject. *)
Definition User_save_new (u : User.IUser) (s : UserStore)
  : (JsError + User.IUser) * UserStore :=
  if negb (validate_user u) then (inl ValidationError, s)
  else
    let u :=
      match User.password u with
      | Some p => User.with_password (bcrypt_hash p) u
      | None => u
      end in
    if existsb (fun x => String.eqb (User.email x) (User.email u)) (users s)
    then (inl DuplicateKeyError, s)
    else (inr u, with_users (users s ++ [u]) s).

(** [save()] of a loaded user: the stored document with this id takes
    the new state. *)
Fixpoint replace_user (u : User.IUser) (l : list User.IUser)
  : list User.IUser :=
  match l with
  | [] => []
  | x :: rest =>
      if String.eqb (User._id x) (User._id u) then u :: rest
      else x :: replace_user u rest
  end.

End UserQueries.

(** ** Tokens (utils/jwt.util.ts) *)

Section Jwt.
Context `{AuthPlatform}.

Definition generateToken (payload : TokenPayload) : string :=
  jwt_sign payload.

(** The inner [throw] sits in the [try] block, so the [catch] replaces
    it like every error of [jwt.verify]. *)
Definition verifyToken (token : string) : JsError + TokenPayload :=
  match
    match jwt_verify token with
    | VerifyThrows e => inl e
    | VerifiedString _ => inl (new_Error "Invalid token payload")
    | VerifiedPayload decoded => inr decoded
    end
  with
  | inr decoded => inr decoded
  | inl _ => inl (new_Error "Invalid or expired token")
  end.

End Jwt.

(** ** Authentication (middleware/auth.middleware.ts) *)

#[global] Instance UserRole_eq_dec : EqDecision UserRole.
Proof. solve_decision. Defined.

Section Middleware.
Context `{AuthPlatform}.

(** The [try] block of [authenticate]. *)
Definition authenticate_token (token : string) (l : list User.IUser)
  : JsError + ContextUser :=
  match verifyToken token with
  | inl e => inl e
  | inr decoded =>
      match User_findById (token_id decoded) l with
      | inl e => inl e
      | inr found =>
          match found with
          | Some u =>
              if negb (User.isActive u) then
                inl (new_GraphQLError "User not found or inactive"
                       "UNAUTHORIZED")
              else
                inr {| user_id := User._id u;
                       user_email := User.email u;
                       role := User.role u;
                       employeeRef := User.employeeRef u |}
          | None =>
              inl (new_GraphQLError "User not found or inactive"
                     "UNAUTHORIZED")
          end
      end
  end.

(** [authenticate(req)], from [req.headers.authorization]. *)
Definition authenticate (authorization : option string)
  (l : list User.IUser) : JsError + option ContextUser :=
  if negb (truthy_str authorization) then inr None
  else
    let authHeader := default "" authorization in
    let token := split_on " " authHeader !! 1%nat in
    if negb (truthy_str token) then
      inl (new_GraphQLError "Invalid token format" "INVALID_TOKEN")
    else
      match authenticate_token (default "" token) l with
      | inr u => inr (Some u)
      | inl err =>
          if String.eqb (error_name err) "JsonWebTokenError" then
            inl (new_GraphQLError "Invalid token" "INVALID_TOKEN")
          else if String.eqb (error_name err) "TokenExpiredError" then
            inl (new_GraphQLError "Token expired" "TOKEN_EXPIRED")
          else inl err
      end.

Definition createContext (authorization : option string)
  (l : list User.IUser) : JsError + IContext :=
  match authenticate authorization l with
  | inr u => inr {| user := u |}
  | inl e => inl e
  end.

Definition requireAuth (context : IContext) : JsError + ContextUser :=
  match user context with
  | None => inl (new_GraphQLError "Authentication required" "UNAUTHENTICATED")
  | Some u => inr u
  end.

Definition requireRole (context : IContext) (allowedRoles : list UserRole)
  : JsError + ContextUser :=
  match requireAuth context with
  | inl e => inl e
  | inr u =>
      if negb (bool_decide (role u ∈ allowedRoles)) then
        inl (new_GraphQLError "Insufficient permissions" "FORBIDDEN")
      else inr u
  end.

End Middleware.

(** ** AuthService (services/auth.service.ts) *)

Record IRegisterInput := {
  reg_email : string;
  reg_password : string;
  reg_firstName : string;
  reg_lastName : string;
  reg_role : option UserRole
}.

Record IAuthPayload := {
  token : string;
  payload_user : User.IUser
}.

Module AuthService.
Section Service.
Context `{AuthPlatform}.

(** [new User({ email, password, firstName, lastName, role,
    isActive: true })] *)
Definition new_User (input : IRegisterInput) (s : UserStore) : User.IUser :=
  {| User._id := user_ObjectId (ids_made s);
     User.email := email_setter (reg_email input);
     User.password := Some (reg_password input);
     User.role := default EMPLOYEE (reg_role input);
     User.firstName := name_setter (reg_firstName input);
     User.lastName := name_setter (reg_lastName input);
     User.isActive := true;
     User.lastLogin := None;
     User.employeeRef := None;
     User.createdAt := clock s;
     User.updatedAt := clock s |}.

Definition register (input : IRegisterInput) (s : UserStore)
  : (JsError + IAuthPayload) * UserStore :=
  match User_findOne (reg_email input) (users s) with
  | Some _ =>
      (inl (new_GraphQLError "User with this email already exists"
              "USER_EXISTS"), s)
  | None =>
      if (String.length (reg_password input) <? 6)%nat then
        (inl (new_GraphQLError "Password must be at least 6 characters"
                "INVALID_PASSWORD"), s)
      else
        let u := new_User input s in
        let s := {| users := users s; clock := clock s;
                    ids_made := S (ids_made s) |} in
        match User_save_new u s with
        | (inl e, s) => (inl e, s)
        | (inr u, s) =>
            (inr {| token := generateToken
                               {| token_id := User._id u;
                                  token_email := User.email u;
                                  token_role := User.role u;
                                  token_employeeRef := None |};
                    payload_user := u |}, s)
        end
  end.

Definition login (mail pw : string) (s : UserStore)
  : (JsError + IAuthPayload) * UserStore :=
  match User_findOne_active mail (users s) with
  | None =>
      (inl (new_GraphQLError "Invalid email or password"
              "INVALID_CREDENTIALS"), s)
  | Some u =>
      if negb (comparePassword u pw) then
        (inl (new_GraphQLError "Invalid email or password"
                "INVALID_CREDENTIALS"), s)
      else
        let u := User.with_lastLogin (clock s) u in
        let s := with_users (replace_user u (users s)) s in
        (inr {| token := generateToken
                           {| token_id := User._id u;
                              token_email := User.email u;
                              token_role := User.role u;
                              token_employeeRef := User.employeeRef u |};
                payload_user := User.without_password u |}, s)
  end.

(** The declared result is [IUser | null]. *)
Definition getCurrentUser (userId : string) (l : list User.IUser)
  : JsError + option User.IUser :=
  match User_findById userId l with
  | inl e => inl e
  | inr found =>
      match found with
      | Some u =>
          if negb (User.isActive u) then
            inl (new_GraphQLError "User not found or inactive"
                   "USER_NOT_FOUND")
          else inr (Some u)
      | None =>
          inl (new_GraphQLError "User not found or inactive"
                 "USER_NOT_FOUND")
      end
  end.

Definition verifyUser (userId : string) (l : list User.IUser)
  : JsError + option User.IUser :=
  User_findById userId l.

End Service.
End AuthService.

(** ** authResolver (graphql/resolvers/auth.resolver.ts) *)

Module authResolver.
Section Resolver.
Context `{AuthPlatform}.

Definition me (context : IContext) (l : list User.IUser)
  : JsError + User.IUser :=
  match user context with
  | None => inl (new_GraphQLError "Not authenticated" "UNAUTHENTICATED")
  | Some u =>
      match AuthService.getCurrentUser (user_id u) l with
      | inl e => inl e
      | inr found =>
          match found with
          | Some x => inr x
          | None => inl (new_GraphQLError "User not found" "USER_NOT_FOUND")
          end
      end
  end.

Definition register (input : IRegisterInput) (s : UserStore)
  : (JsError + IAuthPayload) * UserStore :=
  match AuthService.register input s with
  | (inr result, s) => (inr result, s)
  | (inl err, s) =>
      (inl (new_GraphQLError (error_message err)
              (code_or "REGISTRATION_ERROR" err)), s)
  end.

Definition login (mail pw : string) (s : UserStore)
  : (JsError + IAuthPayload) * UserStore :=
  match AuthService.login mail pw s with
  | (inr result, s) => (inr result, s)
  | (inl err, s) =>
      (inl (new_GraphQLError (error_message err)
              (code_or "LOGIN_ERROR" err)), s)
  end.

End Resolver.
End authResolver.

(** ** The batch function of the user loader (app.ts) *)

Section Loaders.
Context `{AuthPlatform}.

(** [new Map(users.map(user => [user.id, user]))]: a later entry
    replaces an earlier one with the same key. *)
Definition Map_of (l : list User.IUser) : gmap string User.IUser :=
  foldl (fun m u => <[User._id u := u]> m) ∅ l.

Definition userLoader_batch (ids : list string) (l : list User.IUser)
  : JsError + list (option User.IUser) :=
  match User_find_in ids l with
  | inl e => inl e
  | inr found =>
      let userMap := Map_of found in
      inr (map (fun id => userMap !! id) ids)
  end.

End Loaders.

(** ** Password strength (utils/validator.util.ts)

    A string is taken as its sequence of one-byte characters, so that
    [password.length] is [String.length]; the three tests are the classes
    [A-Z], [a-z] and [\d]. *)

Definition is_upper (c : ascii) : bool :=
  (65 <=? nat_of_ascii c)%nat && (nat_of_ascii c <=? 90)%nat.

Definition is_lower (c : ascii) : bool :=
  (97 <=? nat_of_ascii c)%nat && (nat_of_ascii c <=? 122)%nat.

Definition is_digit (c : ascii) : bool :=
  (48 <=? nat_of_ascii c)%nat && (nat_of_ascii c <=? 57)%nat.

Record PasswordCheck := {
  valid : bool;
  check_message : option string
}.

Definition validatePassword (password : string) : PasswordCheck :=
  if (String.length password <? 6)%nat then
    {| valid := false;
       check_message := Some "Password must be at least 6 characters" |}
  else
    let hasUpperCase := existsb is_upper (list_ascii_of_string password) in
    let hasLowerCase := existsb is_lower (list_ascii_of_string password) in
    let hasNumbers := existsb is_digit (list_ascii_of_string password) in
    if negb hasUpperCase || negb hasLowerCase || negb hasNumbers then
      {| valid := false;
         check_message :=
           Some "Password must contain uppercase, lowercase, and numbers" |}
    else {| valid := true; check_message := None |}.

(** ** Error conversion ([AppError] and [handleError]) *)

Inductive ErrorCode :=
  | NumberCode (n : Z)
  | StringCode (s : string).

(** An error object that is neither a [GraphQLError] nor an [AppError]. *)
Record PlainError := {
  plain_name : string;
  plain_message : string;
  plain_code : option ErrorCode;
  keyPattern : option (list string);   (* the keys of [error.keyPattern] *)
  errors : option (list string)        (* the messages of [error.errors] *)
}.

Inductive Thrown :=
  | ThrownGraphQLError (e : JsError)
  | ThrownAppError (message code : string) (statusCode : Z)
  | ThrownOther (e : PlainError).

Definition TypeError : JsError :=
  {| error_name := "TypeError";
     error_message := "Cannot convert undefined or null to object";
     error_code := None |}.

(** [handleError] on an error object: the result on the right, an
    exception of its own on the left. *)
Definition handleError (err : Thrown) : JsError + JsError :=
  match err with
  | ThrownGraphQLError e => inr e
  | ThrownAppError message code _ => inr (new_GraphQLError message code)
  | ThrownOther e =>
      if match plain_code e with
         | Some (NumberCode n) => n =? 11000
         | _ => false
         end
      then
        match keyPattern e with
        | None => inl TypeError
        | Some keys =>
            let field := default "undefined" (head keys) in
            inr (new_GraphQLError (field +:+ " already exists")
                   "DUPLICATE_KEY")
        end
      else if String.eqb (plain_name e) "ValidationError" then
        match errors e with
        | None => inl TypeError
        | Some messages =>
            inr (new_GraphQLError (String.concat ", " messages)
                   "VALIDATION_ERROR")
        end
      else
        inr (new_GraphQLError "Internal server error"
               "INTERNAL_SERVER_ERROR")
  end.

(** ** A reference platform and sample users for the examples *)

#[export] Instance reference_auth_platform : AuthPlatform.
Proof.
  refine
    {| jwt_sign := fun p => "jwt:" +:+ token_id p;
       jwt_verify := fun t =>
         if String.prefix "jwt:" t then
           VerifiedPayload
             {| token_id := String.substring 4 (String.length t - 4) t;
                token_email := ""; token_role := EMPLOYEE;
                token_employeeRef := None |}
         else if String.eqb t "expired" then
           VerifyThrows {| error_name := "TokenExpiredError";
                           error_message := "jwt expired";
                           error_code := None |}
         else
           VerifyThrows {| error_name := "JsonWebTokenError";
                           error_message := "jwt malformed";
                           error_code := None |};
       bcrypt_hash := fun p => "$2a$10$" +:+ p;
       bcrypt_compare := fun c h => String.eqb h ("$2a$10$" +:+ c);
       isValidObjectId := fun id => negb (String.eqb id "");
       user_ObjectId := fun n => "u" +:+ pretty n;
       email_setter := fun m => m;
       email_query := fun m => m;
       name_setter := fun n => n;
       validate_user := fun u => contains "@" (User.email u) |}.
  intros p. apply String.eqb_refl.
Defined.

Definition ada : User.IUser :=
  {| User._id := "u0"; User.email := "ada@example.com";
     User.password := Some "$2a$10$Secret1";
     User.role := ADMIN; User.firstName := "Ada"; User.lastName := "Lovelace";
     User.isActive := true; User.lastLogin := None;
     User.employeeRef := None; User.createdAt := 0; User.updatedAt := 0 |}.

Definition bob : User.IUser :=
  {| User._id := "u1"; User.email := "bob@example.com";
     User.password := Some "$2a$10$hunter2";
     User.role := EMPLOYEE; User.firstName := "Bob"; User.lastName := "Stone";
     User.isActive := false; User.lastLogin := None;
     User.employeeRef := Some "e1"; User.createdAt := 0;
     User.updatedAt := 0 |}.

Definition user_store (l : list User.IUser) : UserStore :=
  {| users := l; clock := 1000; ids_made := length l |}.

Definition carol_input : IRegisterInput :=
  {| reg_email := "carol@example.com"; reg_password := "abcdef";
     reg_firstName := "Carol"; reg_lastName := "Reed"; reg_role := None |}.

(** ** Facts about the operations *)

(** *** Proof tools *)

Ltac run :=
  unfold bind, ret, throw, gets, try_catch, logger, emit, set_redis,
    set_employees in *;
  simpl in *.

Arguments Promise_all_ : simpl never.
Arguments Promise_all2 : simpl never.
Arguments Employee.find : simpl never.
Arguments Employee.countDocuments : simpl never.

Ltac by_logged :=
  eexists; unfold logged; simpl; rewrite <- ?app_assoc; simpl; reflexivity.

Ltac open_world w :=
  destruct w as [docs keyspace connected failing events clock oid];
  unfold cache_unavailable, cache_available in *; simpl in *.

Lemma logged_logged a b w : logged b (logged a w) = logged (a ++ b) w.
Proof. unfold logged. simpl. by rewrite <- app_assoc. Qed.

Lemma logged_nil w : logged [] w = w.
Proof. destruct w. unfold logged. simpl. by rewrite app_nil_r. Qed.

(** *** The cache service *)

Section CacheFacts.
Context `{Platform}.

Lemma get_unavailable w k :
  cache_unavailable w ->
  exists evs, CacheService.get k w = (Ok None, logged evs w).
Proof.
  open_world w.
  intros [-> | ->]; unfold CacheService.get, client_get, client_command; run.
  - by_logged.
  - destruct connected; simpl; by_logged.
Qed.

Lemma set_unavailable w k v ttl :
  cache_unavailable w ->
  exists evs, CacheService.set k v ttl w = (Ok tt, logged evs w).
Proof.
  open_world w.
  intros [-> | ->];
    unfold CacheService.set, client_set, client_setex, client_command; run.
  - by_logged.
  - destruct connected; simpl; [| by_logged].
    destruct ttl as [t |]; [destruct (t =? 0) |]; run; by_logged.
Qed.

Lemma delete_unavailable w k :
  cache_unavailable w ->
  exists evs, CacheService.delete k w = (Ok tt, logged evs w).
Proof.
  open_world w.
  intros [-> | ->]; unfold CacheService.delete, client_del, client_command; run.
  - exists []. by rewrite logged_nil.
  - destruct connected; simpl; [by_logged |].
    exists []. by rewrite logged_nil.
Qed.

Lemma deletePattern_unavailable w p :
  cache_unavailable w ->
  exists evs, CacheService.deletePattern p w = (Ok tt, logged evs w).
Proof.
  open_world w.
  intros [-> | ->];
    unfold CacheService.deletePattern, client_keys, client_del,
      client_command; run.
  - exists []. by rewrite logged_nil.
  - destruct connected; simpl; [by_logged |].
    exists []. by rewrite logged_nil.
Qed.

Lemma get_available w k :
  cache_available w ->
  CacheService.get k w = (Ok (redis w !! k), logged [RedisGet k] w).
Proof.
  open_world w. intros [-> ->].
  by unfold CacheService.get, client_get, client_command; run.
Qed.

Lemma set_available w k v t :
  cache_available w -> 0 < t ->
  CacheService.set k v (Some t) w
  = (Ok tt, with_redis (<[k := v]> (redis w)) (logged [RedisSetex k t] w)).
Proof.
  open_world w. intros [-> ->] Ht.
  unfold CacheService.set, client_setex, client_command; run.
  assert ((t =? 0) = false) as -> by lia.
  assert ((t <=? 0) = false) as -> by lia. done.
Qed.

Lemma delete_available w k :
  cache_available w ->
  CacheService.delete k w
  = (Ok tt, with_redis (delete k (redis w)) (logged [RedisDel [k]] w)).
Proof.
  open_world w. intros [-> ->].
  by unfold CacheService.delete, client_del, client_command; run.
Qed.

End CacheFacts.

(** *** Pattern eviction *)

Lemma glob_star_all s : glob_match "*" s = true.
Proof.
  simpl. induction s as [| c s IH]; simpl; [done |].
  by rewrite IH.
Qed.

Lemma glob_literal_star p k :
  literal p = true -> glob_match (p +:+ "*") k = String.prefix p k.
Proof.
  revert k. induction p as [| a p IH]; intros k Hp.
  - change ("" +:+ "*") with "*". rewrite glob_star_all. by destruct k.
  - simpl in Hp. apply andb_prop in Hp as [Ha Hp].
    apply andb_prop in Ha as [Hstar Hq].
    apply negb_true_iff in Hstar, Hq.
    change (String a p +:+ "*") with (String a (p +:+ "*")).
    cbn [glob_match]. rewrite Hstar, Hq.
    destruct k as [| b k]; [done |].
    cbn [String.prefix orb]. rewrite IH by done.
    destruct (ascii_dec a b) as [-> | Hne].
    + by rewrite Ascii.eqb_refl.
    + apply Ascii.eqb_neq in Hne. by rewrite Hne.
Qed.

Lemma glob_list_namespace k :
  glob_match "employees:*" k = String.prefix "employees:" k.
Proof. by apply (glob_literal_star "employees:"). Qed.

Lemma elem_of_matching_keys p (m : gmap string Json) k :
  k ∈ matching_keys p m <-> glob_match p k = true /\ is_Some (m !! k).
Proof.
  unfold matching_keys. rewrite list_elem_of_filter.
  change (map fst (map_to_list m)) with (fst <$> map_to_list m).
  rewrite list_elem_of_fmap. split.
  - intros [Hg [[k' v] [-> Hin]]]. apply elem_of_map_to_list in Hin.
    split; [done | by exists v].
  - intros [Hg [v Hv]]. split; [done |].
    exists (k, v). split; [done | by apply elem_of_map_to_list].
Qed.

Lemma lookup_evicted p (m : gmap string Json) k :
  foldr delete m (matching_keys p m) !! k
  = if glob_match p k then None else m !! k.
Proof.
  destruct (glob_match p k) eqn:Hg.
  - destruct (m !! k) as [v |] eqn:Hk.
    + apply lookup_foldr_delete, elem_of_matching_keys. eauto.
    + rewrite lookup_foldr_delete_not_elem_of; [done |].
      rewrite elem_of_matching_keys, Hk. intros [_ [? ?]]. done.
  - rewrite lookup_foldr_delete_not_elem_of; [done |].
    rewrite elem_of_matching_keys. intros [? _]. congruence.
Qed.

Section Eviction.
Context `{Platform}.

Lemma deletePattern_available w p :
  cache_available w ->
  exists evs,
    CacheService.deletePattern p w
    = (Ok tt, with_redis (foldr delete (redis w) (matching_keys p (redis w)))
                (logged evs w)).
Proof.
  open_world w. intros [-> ->].
  unfold CacheService.deletePattern, client_keys, client_del,
    client_command; run.
  fold (matching_keys p keyspace).
  destruct (matching_keys p keyspace) as [| k ks] eqn:Hk; simpl.
  - unfold with_redis. by_logged.
  - unfold with_redis. by_logged.
Qed.

End Eviction.

(** *** The store calls *)

Section StoreFacts.
Context `{Platform}.

Lemma find_eq q f o sk l w :
  Employee.find q f o sk l w
  = (if sk <? 0 then Throw (MongoServerError "skip must be non-negative")
     else Ok (page_slice sk l
                (sort_docs f o
                   (filter (fun e => matches q e = true) (employees w)))),
     logged [DbFind q sk l] w).
Proof. unfold Employee.find; run. by destruct (sk <? 0). Qed.

Lemma countDocuments_eq q w :
  Employee.countDocuments q w
  = (Ok (Z.of_nat
           (length (filter (fun e => matches q e = true) (employees w)))),
     logged [DbCount q] w).
Proof. done. Qed.

Lemma findById_eq id w :
  Employee.findById id w
  = (if casts id (employees w)
     then Ok (List.find (has_id id) (employees w))
     else Throw MongooseCastError,
     logged [DbFindById id] w).
Proof.
  unfold Employee.findById; run. by destruct (casts id (employees w)).
Qed.

Lemma findOne_eq mail ne w :
  Employee.findOne mail ne w
  = (if match ne with Some id => casts id (employees w) | None => true end
     then
       Ok (List.find
             (fun e => same_address mail e
                       && match ne with
                          | Some id => negb (has_id id e)
                          | None => true
                          end) (employees w))
     else Throw MongooseCastError,
     logged [DbFindOne mail ne] w).
Proof.
  unfold Employee.findOne; run.
  by destruct (match ne with Some id => casts id (employees w) | None => true end).
Qed.

(** An id the collection holds casts. *)
Lemma casts_held id docs e :
  List.find (has_id id) docs = Some e -> casts id docs = true.
Proof.
  intros Hfind. unfold casts. apply orb_true_iff. right.
  apply existsb_exists. exists e.
  apply List.find_some in Hfind as [Hin Hid]. done.
Qed.

(** For an id the collection does not hold, the cast decides. *)
Lemma casts_absent id docs :
  List.find (has_id id) docs = None -> casts id docs = casts_to_ObjectId id.
Proof.
  intros Hnone. unfold casts.
  assert (existsb (has_id id) docs = false) as ->;
    [| by rewrite orb_false_r].
  apply not_true_is_false. intros (x & Hx & Hid)%existsb_exists.
  pose proof (List.find_none _ _ Hnone x Hx). congruence.
Qed.

(** An id that does not cast is the id of no document. *)
Lemma casts_false_absent id docs :
  casts id docs = false -> List.find (has_id id) docs = None.
Proof.
  intros Hc. destruct (List.find (has_id id) docs) as [e |] eqn:Hfind;
    [| done].
  apply casts_held in Hfind. congruence.
Qed.

(** The two reads of a list query, issued together. *)
Lemma find_and_count_eq q f o sk l w :
  Promise_all2 (Employee.find q f o sk l) (Employee.countDocuments q) w
  = (if sk <? 0 then Throw (MongoServerError "skip must be non-negative")
     else
       Ok (page_slice sk l
             (sort_docs f o
                (filter (fun e => matches q e = true) (employees w))),
           Z.of_nat
             (length (filter (fun e => matches q e = true) (employees w)))),
     logged [DbFind q sk l; DbCount q] w).
Proof.
  unfold Promise_all2. rewrite find_eq, countDocuments_eq, logged_logged.
  simpl. by destruct (sk <? 0).
Qed.

End StoreFacts.

(** *** Cache failures *)

Section CacheFailure.
Context `{Platform}.

Lemma unavailable_logged evs w :
  cache_unavailable w -> cache_unavailable (logged evs w).
Proof. done. Qed.

Lemma getEmployees_unavailable w filter pagination sort :
  cache_unavailable w ->
  exists evs,
    EmployeeService.getEmployees filter pagination sort w
    = (fst (direct_getEmployees filter pagination sort w), logged evs w).
Proof.
  intros Hw. unfold EmployeeService.getEmployees, direct_getEmployees.
  unfold bind at 1.
  match goal with |- context [CacheService.get ?k w] =>
    destruct (get_unavailable w k Hw) as [evs ->]
  end.
  unfold bind. rewrite !find_and_count_eq. simpl.
  match goal with |- context [if ?b then _ else _] => destruct b end; simpl.
  - rewrite logged_logged. eauto.
  - match goal with |- context [CacheService.set ?k ?v ?t ?w'] =>
      destruct (set_unavailable w' k v t) as [evs' ->]
    end; [by repeat apply unavailable_logged |].
    unfold ret. rewrite !logged_logged. eauto.
Qed.

Lemma getEmployeeById_unavailable w id :
  cache_unavailable w ->
  exists evs,
    EmployeeService.getEmployeeById id w
    = (fst (direct_getEmployeeById id w), logged evs w).
Proof.
  intros Hw. unfold EmployeeService.getEmployeeById, direct_getEmployeeById.
  unfold bind at 1.
  match goal with |- context [CacheService.get ?k w] =>
    destruct (get_unavailable w k Hw) as [evs ->]
  end.
  unfold bind. rewrite !findById_eq. simpl.
  destruct (casts id (employees w)); simpl;
    [| rewrite !logged_logged; eauto].
  destruct (List.find (has_id id) (employees w)) as [e |]; simpl.
  - match goal with |- context [CacheService.set ?k ?v ?t ?w'] =>
      destruct (set_unavailable w' k v t) as [evs' ->]
    end; [by repeat apply unavailable_logged |].
    unfold ret. rewrite !logged_logged. eauto.
  - unfold ret. rewrite !logged_logged. eauto.
Qed.

End CacheFailure.

(** *** List reads *)

Lemma available_or_not w : cache_available w \/ cache_unavailable w.
Proof.
  unfold cache_available, cache_unavailable.
  destruct (isConnected w), (redis_failing w); auto.
Qed.

Lemma page_limit_cases pagination :
  default 1 (input_page (default {| input_page := Some 1;
                                    input_limit := Some 10 |} pagination))
  = page_of pagination
  /\ default 10 (input_limit (default {| input_page := Some 1;
                                         input_limit := Some 10 |} pagination))
     = limit_of pagination.
Proof. by destruct pagination as [[[p |] [l |]] |]. Qed.

Section ListReads.
Context `{Platform}.

(** What the store answers to a list call. *)
Lemma direct_getEmployees_fst f pg s w :
  fst (direct_getEmployees f pg s w)
  = if (page_of pg - 1) * limit_of pg <? 0
    then Throw (MongoServerError "skip must be non-negative")
    else Ok (JConnection (store_page f pg s (employees w))).
Proof.
  unfold direct_getEmployees, bind. rewrite find_and_count_eq.
  destruct (page_limit_cases pg) as [-> ->]. simpl.
  by destruct (_ <? 0).
Qed.

Lemma getEmployees_hit f pg s w v :
  cache_available w -> redis w !! cacheKey f pg s = Some v ->
  EmployeeService.getEmployees f pg s w
  = (Ok v, logged [RedisGet (cacheKey f pg s)] w).
Proof.
  intros Hw Hv. unfold EmployeeService.getEmployees, bind.
  destruct (page_limit_cases pg) as [-> ->].
  fold (cacheKey f pg s). rewrite get_available by done. by rewrite Hv.
Qed.

Lemma getEmployees_miss f pg s w :
  cache_misses w (cacheKey f pg s) ->
  fst (EmployeeService.getEmployees f pg s w)
  = fst (direct_getEmployees f pg s w)
  /\ employees (snd (EmployeeService.getEmployees f pg s w)) = employees w.
Proof.
  intros Hmiss. destruct (available_or_not w) as [Hw | Hw].
  - destruct Hmiss as [[Hc | Hf] | Hk];
      [destruct Hw; congruence | destruct Hw; congruence |].
    unfold EmployeeService.getEmployees, direct_getEmployees, bind.
    destruct (page_limit_cases pg) as [-> ->].
    fold (cacheKey f pg s). rewrite get_available by done. rewrite Hk.
    rewrite !find_and_count_eq. simpl.
    destruct (_ <? 0); simpl; [done |].
    rewrite set_available; done.
  - destruct (getEmployees_unavailable w f pg s Hw) as [evs ->]. done.
Qed.

End ListReads.

(** *** Invalidation *)

Lemma record_key_not_list_key id : String.prefix "employees:" ("employee:" +:+ id) = false.
Proof. reflexivity. Qed.


Lemma logged_with_redis m a b w :
  logged b (with_redis m (logged a w)) = with_redis m (logged (a ++ b) w).
Proof. unfold logged, with_redis. simpl. by rewrite <- app_assoc. Qed.

Lemma with_redis_with_redis m1 m2 w :
  with_redis m2 (with_redis m1 w) = with_redis m2 w.
Proof. done. Qed.

Lemma available_with_redis m evs w :
  cache_available w -> cache_available (with_redis m (logged evs w)).
Proof. done. Qed.

Lemma lookup_evicted_list key (m : gmap string Json) k :
  list_key k -> evicted key m !! k = None.
Proof.
  intros Hk. unfold evicted. rewrite lookup_evicted, glob_list_namespace.
  by rewrite Hk.
Qed.

Lemma lookup_evicted_record id (m : gmap string Json) :
  evicted ("employee:" +:+ id) m !! ("employee:" +:+ id) = None.
Proof.
  unfold evicted. rewrite lookup_evicted, glob_list_namespace.
  rewrite record_key_not_list_key. apply lookup_delete_eq.
Qed.

Section Invalidation.
Context `{Platform}.

Lemma invalidate_available id w :
  cache_available w ->
  exists evs,
    Promise_all_ [CacheService.delete ("employee:" +:+ id);
                  CacheService.deletePattern "employees:*"] w
    = (Ok tt, with_redis (evicted ("employee:" +:+ id) (redis w))
                (logged evs w)).
Proof.
  intros Hw. unfold Promise_all_, bind.
  rewrite delete_available by done.
  match goal with |- context [CacheService.deletePattern ?p ?w'] =>
    destruct (deletePattern_available w' p) as [evs ->]
  end; [by apply available_with_redis |].
  unfold ret. simpl redis. rewrite logged_with_redis.
  rewrite with_redis_with_redis. eauto.
Qed.

Lemma invalidate_unavailable id w :
  cache_unavailable w ->
  exists evs,
    Promise_all_ [CacheService.delete ("employee:" +:+ id);
                  CacheService.deletePattern "employees:*"] w
    = (Ok tt, logged evs w).
Proof.
  intros Hw. unfold Promise_all_, bind.
  destruct (delete_unavailable w ("employee:" +:+ id) Hw) as [e1 ->].
  destruct (deletePattern_unavailable (logged e1 w) "employees:*") as [e2 ->];
    [done |].
  unfold ret. rewrite logged_logged. eauto.
Qed.

End Invalidation.

(** *** Writes *)

Section WriteFacts.
Context `{Platform}.

Lemma findByIdAndUpdate_set_eq id input rv w :
  Employee.findByIdAndUpdate_set id input rv w
  = if negb (casts id (employees w))
    then (Throw MongooseCastError, w)
    else if rv && negb (validate_set input)
    then (Throw MongooseValidationError, w)
    else
      match List.find (has_id id) (employees w) with
      | None => (Ok None, logged [DbUpdateById id] w)
      | Some e =>
          if set_breaks_unique_email input id (employees w)
          then (Throw (MongoServerError "E11000 duplicate key"),
                logged [DbUpdateById id] w)
          else (Ok (Some (apply_set input (now w) e)),
                with_employees
                  (update_first id (apply_set input (now w)) (employees w))
                  (logged [DbUpdateById id] w))
      end.
Proof.
  unfold Employee.findByIdAndUpdate_set. run.
  destruct (negb (casts id (employees w))); [done |].
  destruct (rv && negb (validate_set input)); [done |]. simpl.
  destruct (List.find (has_id id) (employees w)); [| done].
  by destruct (set_breaks_unique_email input id (employees w)).
Qed.

Lemma findByIdAndUpdate_push_eq id a w :
  Employee.findByIdAndUpdate_push id a w
  = if negb (casts id (employees w))
    then (Throw MongooseCastError, w)
    else if negb (validate_push a)
    then (Throw MongooseValidationError, w)
    else
      match List.find (has_id id) (employees w) with
      | None => (Ok None, logged [DbUpdateById id] w)
      | Some e =>
          (Ok (Some (apply_push a (now w) e)),
           with_employees
             (update_first id (apply_push a (now w)) (employees w))
             (logged [DbUpdateById id] w))
      end.
Proof.
  unfold Employee.findByIdAndUpdate_push. run.
  destruct (negb (casts id (employees w))); [done |].
  destruct (negb (validate_push a)); [done |]. simpl.
  by destruct (List.find (has_id id) (employees w)).
Qed.

(** A successful soft delete: the store flips the flag, then the cache
    entries are evicted if the cache can be reached. *)
Lemma deleteEmployee_found id e w :
  List.find (has_id id) (employees w) = Some e ->
  let r := EmployeeService.deleteEmployee id w in
  fst r = Ok true
  /\ employees (snd r)
     = update_first id (apply_set EmployeeService.set_inactive (now w))
         (employees w)
  /\ isConnected (snd r) = isConnected w
  /\ redis_failing (snd r) = redis_failing w
  /\ (cache_available w ->
      redis (snd r) = evicted ("employee:" +:+ id) (redis w))
  /\ (cache_unavailable w -> redis (snd r) = redis w).
Proof.
  intros Hfind. unfold EmployeeService.deleteEmployee, bind.
  rewrite findByIdAndUpdate_set_eq. rewrite (casts_held _ _ _ Hfind).
  simpl. rewrite Hfind.
  change (set_breaks_unique_email EmployeeService.set_inactive id
            (employees w)) with false. cbv iota.
  destruct (available_or_not w) as [Hw | Hw].
  - match goal with |- context [Promise_all_ ?l ?w'] =>
      destruct (invalidate_available id w') as [evs Hev]; [done |]
    end.
    simpl in Hev |- *. rewrite Hev. simpl.
    destruct Hw as [Hc Hf]. unfold cache_unavailable.
    repeat split; auto; intros [? | ?]; congruence.
  - match goal with |- context [Promise_all_ ?l ?w'] =>
      destruct (invalidate_unavailable id w') as [evs Hev]; [done |]
    end.
    simpl in Hev |- *. rewrite Hev. simpl.
    unfold cache_available. destruct Hw;
      repeat split; auto; intros [? ?]; congruence.
Qed.

End WriteFacts.

(** *** What a list read selects *)

Lemma page_slice_subseteq {A} sk l (xs : list A) x :
  x ∈ page_slice sk l xs -> x ∈ xs.
Proof.
  unfold page_slice. destruct (l =? 0).
  - apply subseteq_drop.
  - intros Hx%subseteq_take. by apply subseteq_drop in Hx.
Qed.

Section ActiveFlag.
Context `{Platform}.

Lemma selected_spec f docs e :
  e ∈ selected f docs ->
  e ∈ docs /\ isActive e = default true (filter_isActive f).
Proof.
  unfold selected. rewrite list_elem_of_filter.
  intros [Hm He]. split; [done |].
  unfold matches in Hm. repeat (apply andb_prop in Hm as [Hm ?]).
  by apply Bool.eqb_prop in Hm.
Qed.

Lemma list_key_cacheKey f pg s : list_key (cacheKey f pg s).
Proof.
  unfold list_key, cacheKey. generalize (JSON_stringify
    {| key_query := EmployeeService.build_query f;
       key_skip := (page_of pg - 1) * limit_of pg;
       key_limit := limit_of pg;
       key_sort := default {| field := Some "createdAt";
                              order := Some DESC |} s |}).
  intros text. simpl. by destruct text.
Qed.

(** A list call that the store answers returns documents of the store
    whose flag is the one the query asks for, and counts all of them. *)
Lemma getEmployees_from_store w f pg s :
  cache_misses w (cacheKey f pg s) ->
  1 <= page_of pg -> 1 <= limit_of pg ->
  exists r,
    fst (EmployeeService.getEmployees f pg s w) = Ok (JConnection r)
    /\ Forall (fun e => e ∈ employees w
                        /\ isActive e = default true (filter_isActive f))
         (data r)
    /\ total (pagination r) = Z.of_nat (length (selected f (employees w))).
Proof.
  intros Hmiss Hp Hl.
  destruct (getEmployees_miss f pg s w Hmiss) as [-> _].
  rewrite direct_getEmployees_fst.
  assert (((page_of pg - 1) * limit_of pg <? 0) = false) as ->
    by (apply Z.ltb_ge; nia).
  eexists. split; [reflexivity |]. split; [| done].
  unfold store_page. simpl. apply Forall_forall. intros e He.
  apply page_slice_subseteq in He. rewrite sort_docs_perm in He.
  by apply selected_spec.
Qed.

Lemma has_id_refl e : has_id (_id e) e = true.
Proof. apply String.eqb_refl. Qed.

(** After the soft delete of the only document, no list entry can
    answer: the list namespace was evicted or the cache is out of reach. *)
Lemma misses_after_delete w e k :
  employees w = [e] -> list_key k ->
  cache_misses (snd (EmployeeService.deleteEmployee (_id e) w)) k.
Proof.
  intros Hdocs Hk.
  assert (List.find (has_id (_id e)) (employees w) = Some e) as Hfind
    by (rewrite Hdocs; simpl; by rewrite has_id_refl).
  destruct (deleteEmployee_found _ _ _ Hfind) as (_ & _ & Hc & Hf & Hav & Hun).
  unfold cache_misses, cache_unavailable. rewrite Hc, Hf.
  destruct (available_or_not w) as [Hw | Hw]; [right | by left].
  rewrite (Hav Hw). by apply lookup_evicted_list.
Qed.

End ActiveFlag.

(** *** The page envelope *)

Lemma ceil_div_bounds n lim :
  1 <= lim -> (- ((- n) / lim) - 1) * lim < n <= - ((- n) / lim) * lim.
Proof.
  intros Hl.
  pose proof (Z.div_mod (- n) lim ltac:(lia)) as Hdm.
  pose proof (Z.mod_pos_bound (- n) lim ltac:(lia)) as Hr.
  nia.
Qed.

Lemma ceil_div_Qceiling n lim :
  1 <= lim -> - ((- n) / lim) = Qceiling (n # Z.to_pos lim).
Proof.
  intros Hl. destruct lim as [| p | p]; [lia | | lia]. reflexivity.
Qed.

Section Envelope.
Context `{Platform}.

Lemma envelope_is_ok items n pg lim :
  1 <= lim ->
  envelope_ok pg lim (pagination (EmployeeService.envelope items n pg lim)).
Proof.
  intros Hl. split; [done |]. split; [done |].
  exists (- ((- n) / lim)). simpl.
  unfold Math_ceil_div.
  assert ((lim =? 0) = false) as -> by (apply Z.eqb_neq; lia).
  simpl. split; [done |]. split; [by apply ceil_div_Qceiling |].
  split; [by apply ceil_div_bounds |]. split; [done |]. split; [done |].
  split.
  - intros ->. apply Z.ltb_irrefl.
  - by intros ->.
Qed.

Lemma roundtrip_is_ok pg lim r :
  envelope_ok pg lim (pagination r) ->
  envelope_ok pg lim (pagination (JSON_roundtrip r)).
Proof.
  intros (Hp & Hl & n & Hn & Hrest).
  split; [done |]. split; [done |].
  exists n. simpl. by rewrite Hn.
Qed.

End Envelope.

Section EnvelopeReads.
Context `{Platform}.

Lemma getEmployees_available_miss f pg s w :
  cache_available w -> redis w !! cacheKey f pg s = None ->
  exists evs,
    EmployeeService.getEmployees f pg s w
    = (fst (direct_getEmployees f pg s w),
       match fst (direct_getEmployees f pg s w) with
       | Ok (JConnection r) =>
           with_redis
             (<[cacheKey f pg s := JConnection (JSON_roundtrip r)]> (redis w))
             (logged evs w)
       | _ => logged evs w
       end).
Proof.
  intros Hw Hk.
  unfold EmployeeService.getEmployees, direct_getEmployees, bind.
  destruct (page_limit_cases pg) as [-> ->].
  fold (cacheKey f pg s). rewrite get_available by done. rewrite Hk.
  rewrite !find_and_count_eq. simpl.
  destruct (_ <? 0); simpl.
  - rewrite logged_logged. eauto.
  - rewrite set_available; [| done | done]. unfold ret.
    simpl redis. rewrite !logged_logged. eauto.
Qed.

Lemma searchEmployees_fst q pg w :
  fst (EmployeeService.searchEmployees q pg w)
  = if (page_of pg - 1) * limit_of pg <? 0
    then Throw (MongoServerError "skip must be non-negative")
    else
      Ok (EmployeeService.envelope
            (page_slice ((page_of pg - 1) * limit_of pg) (limit_of pg)
               (sort_by_score q
                  (filter (fun e => (text_search q e && isActive e) = true)
                     (employees w))))
            (Z.of_nat
               (length
                  (filter (fun e => (text_search q e && isActive e) = true)
                     (employees w))))
            (page_of pg) (limit_of pg)).
Proof.
  unfold EmployeeService.searchEmployees, bind, Promise_all2,
    Employee.textFind, Employee.textCount.
  assert (default 1 (input_page (default {| input_page := None;
                                            input_limit := None |} pg))
          = page_of pg) as -> by by destruct pg as [[[p |] [l |]] |].
  assert (default 10 (input_limit (default {| input_page := None;
                                              input_limit := None |} pg))
          = limit_of pg) as -> by by destruct pg as [[[p |] [l |]] |].
  run. by destruct (_ <? 0).
Qed.

End EnvelopeReads.

(** *** The calls of a list read *)

Section Validation.
Context `{Platform}.

Lemma getEmployees_trace f pg s w :
  trace (snd (EmployeeService.getEmployees f pg s w))
  = trace w ++ list_calls w f pg s.
Proof.
  unfold list_calls.
  unfold EmployeeService.getEmployees.
  destruct (page_limit_cases pg) as [-> ->]. fold (cacheKey f pg s).
  unfold bind at 1.
  unfold CacheService.get, client_get, client_command.
  open_world w. destruct connected; run.
  - destruct failing; run.
    + rewrite !find_and_count_eq. simpl.
      destruct (_ <? 0); simpl; [by rewrite <- !app_assoc |].
      unfold CacheService.set, client_setex, client_command. run.
      by rewrite <- !app_assoc.
    + destruct (keyspace !! cacheKey f pg s); simpl; [done |].
      rewrite !find_and_count_eq. simpl.
      destruct (_ <? 0); simpl; [by rewrite <- !app_assoc |].
      unfold CacheService.set, client_setex, client_command. run.
      by rewrite <- !app_assoc.
  - rewrite !find_and_count_eq. simpl.
    destruct (_ <? 0); simpl; [by rewrite <- !app_assoc |].
    unfold CacheService.set. run. by rewrite <- !app_assoc.
Qed.

End Validation.

Section NoValidation.
Context `{Platform}.

Lemma getEmployees_cached_or_direct f pg s w :
  (exists v, fst (EmployeeService.getEmployees f pg s w) = Ok v)
  \/ fst (EmployeeService.getEmployees f pg s w)
     = fst (direct_getEmployees f pg s w).
Proof.
  destruct (available_or_not w) as [Hw | Hw].
  - destruct (redis w !! cacheKey f pg s) as [v |] eqn:Hk.
    + left. exists v. by rewrite (getEmployees_hit f pg s w v).
    + right. apply getEmployees_miss. by right.
  - right. apply getEmployees_miss. by left.
Qed.

Lemma store_is_queried_on_miss f pg s w :
  cache_misses w (cacheKey f pg s) ->
  DbFind (EmployeeService.build_query f)
    ((page_of pg - 1) * limit_of pg) (limit_of pg)
  ∈ list_calls w f pg s.
Proof.
  unfold cache_misses, cache_unavailable, list_calls.
  intros [[Hc | Hf] | Hk].
  - rewrite Hc. set_solver.
  - rewrite Hf. destruct (isConnected w); set_solver.
  - rewrite Hk. destruct (isConnected w), (redis_failing w); set_solver.
Qed.

End NoValidation.

(** *** Entry-wise properties of the cache *)

Section Preservation.
Context {P : World -> Prop}.

Lemma preserves_ret {A} (a : A) : preserves P (ret a).
Proof. by intros w Hw. Qed.

Lemma preserves_throw {A} e : preserves P (@throw A e).
Proof. by intros w Hw. Qed.

Lemma preserves_bind {A B} (m : M A) (k : A -> M B) :
  preserves P m -> (forall a, preserves P (k a)) -> preserves P (bind m k).
Proof.
  intros Hm Hk w Hw. unfold bind. specialize (Hm w Hw).
  destruct (m w) as [[a | e] w']; simpl in *; [by apply Hk | done].
Qed.

Lemma preserves_try_catch {A} (m : M A) (h : Exn -> M A) :
  preserves P m -> (forall e, preserves P (h e)) ->
  preserves P (try_catch m h).
Proof.
  intros Hm Hh w Hw. unfold try_catch. specialize (Hm w Hw).
  destruct (m w) as [[a | e] w']; simpl in *; [done | by apply Hh].
Qed.

Lemma preserves_all2 {A B} (a : M A) (b : M B) :
  preserves P a -> preserves P b -> preserves P (Promise_all2 a b).
Proof.
  intros Ha Hb w Hw. unfold Promise_all2. specialize (Ha w Hw).
  destruct (a w) as [ra w1]. specialize (Hb w1 Ha).
  destruct (b w1) as [rb w2]. by destruct ra, rb.
Qed.

Lemma preserves_all (ms : list (M unit)) :
  Forall (preserves P) ms -> preserves P (Promise_all_ ms).
Proof.
  induction 1 as [| m ms Hm _ IH]; unfold Promise_all_; fold Promise_all_.
  - apply preserves_ret.
  - apply preserves_bind; [done | by intros].
Qed.

End Preservation.

Ltac preserve_step :=
  match goal with
  | |- preserves _ (bind _ _) => apply preserves_bind; [| intros]
  | |- preserves _ (ret _) => apply preserves_ret
  | |- preserves _ (throw _) => apply preserves_throw
  | |- preserves _ (try_catch _ _) => apply preserves_try_catch; [| intros]
  | |- preserves _ (Promise_all2 _ _) => apply preserves_all2
  | |- preserves _ (if ?b then _ else _) => destruct b
  | |- preserves _ (match ?x with _ => _ end) => destruct x
  end.

Section CacheInvariant.
Context `{Platform} (ok : string -> Json -> Prop).

(** Calls that leave the keyspace alone. *)
Lemma keeps_emit ev : preserves (cache_holds ok) (emit ev).
Proof. by intros w Hw. Qed.

Lemma keeps_gets {A} (f : World -> A) : preserves (cache_holds ok) (gets f).
Proof. by intros w Hw. Qed.

Lemma keeps_set_employees docs :
  preserves (cache_holds ok) (set_employees docs).
Proof. by intros w Hw. Qed.

Lemma keeps_fresh_oid : preserves (cache_holds ok) fresh_oid.
Proof. by intros w Hw. Qed.

Lemma keeps_logger level msg : preserves (cache_holds ok) (logger level msg).
Proof. apply keeps_emit. Qed.

(** Calls that shrink it. *)
Lemma keeps_client_del keys : preserves (cache_holds ok) (client_del keys).
Proof.
  intros w Hw. unfold client_del, client_command. run.
  destruct (redis_failing w); simpl; [done |].
  intros k v [_ Hk]%lookup_foldr_delete_Some. by apply Hw.
Qed.

Lemma keeps_client_keys pattern :
  preserves (cache_holds ok) (client_keys pattern).
Proof.
  intros w Hw. unfold client_keys, client_command. run.
  by destruct (redis_failing w).
Qed.

Lemma keeps_client_get key : preserves (cache_holds ok) (client_get key).
Proof.
  intros w Hw. unfold client_get, client_command. run.
  by destruct (redis_failing w).
Qed.

(** Calls that extend it, with a value fit for the key. *)
Lemma keeps_client_setex key ttl value :
  ok key value -> preserves (cache_holds ok) (client_setex key ttl value).
Proof.
  intros Hfit w Hw. unfold client_setex, client_command. run.
  destruct (redis_failing w); simpl; [done |].
  destruct (ttl <=? 0); simpl; [done |].
  intros k v. simpl. rewrite lookup_insert. case_decide as Heq.
  - intros [= <-]. by subst k.
  - apply Hw.
Qed.

Lemma keeps_client_set key value :
  ok key value -> preserves (cache_holds ok) (client_set key value).
Proof.
  intros Hfit w Hw. unfold client_set, client_command. run.
  destruct (redis_failing w); simpl; [done |].
  intros k v. simpl. rewrite lookup_insert. case_decide as Heq.
  - intros [= <-]. by subst k.
  - apply Hw.
Qed.

Lemma keeps_cache_get key : preserves (cache_holds ok) (CacheService.get key).
Proof.
  unfold CacheService.get.
  repeat first [preserve_step | apply keeps_gets | apply keeps_logger
               | apply keeps_client_get].
Qed.

Lemma keeps_cache_set key value ttl :
  ok key value -> preserves (cache_holds ok) (CacheService.set key value ttl).
Proof.
  intros Hfit. unfold CacheService.set.
  repeat first [preserve_step | apply keeps_gets | apply keeps_logger
               | by apply keeps_client_setex | by apply keeps_client_set].
Qed.

Lemma keeps_cache_delete key :
  preserves (cache_holds ok) (CacheService.delete key).
Proof.
  unfold CacheService.delete.
  repeat first [preserve_step | apply keeps_gets | apply keeps_logger
               | apply keeps_client_del].
Qed.

Lemma keeps_cache_deletePattern pattern :
  preserves (cache_holds ok) (CacheService.deletePattern pattern).
Proof.
  unfold CacheService.deletePattern.
  repeat first [preserve_step | apply keeps_gets | apply keeps_logger
               | apply keeps_client_del | apply keeps_client_keys].
Qed.

End CacheInvariant.

Ltac keep :=
  repeat first
    [ preserve_step
    | apply keeps_gets | apply keeps_emit | apply keeps_logger
    | apply keeps_set_employees | apply keeps_fresh_oid
    | apply keeps_cache_get | apply keeps_cache_delete
    | apply keeps_cache_deletePattern ].

Section ServiceInvariant.
Context `{Platform} (ok : string -> Json -> Prop).

(** The writes, the search and the statistics keep any entry-wise
    property of the cache: they add no entry. *)
Lemma writes_keep_cache :
  (forall input by_, preserves (cache_holds ok)
                       (EmployeeService.createEmployee input by_))
  /\ (forall id input, preserves (cache_holds ok)
                         (EmployeeService.updateEmployee id input))
  /\ (forall id, preserves (cache_holds ok) (EmployeeService.deleteEmployee id))
  /\ (forall q pg, preserves (cache_holds ok)
                     (EmployeeService.searchEmployees q pg))
  /\ (forall id a, preserves (cache_holds ok)
                     (EmployeeService.markAttendance id a))
  /\ (forall ids input, preserves (cache_holds ok)
                          (EmployeeService.bulkUpdateEmployees ids input))
  /\ preserves (cache_holds ok) EmployeeService.getEmployeeStats.
Proof.
  repeat split; intros.
  - unfold EmployeeService.createEmployee, Employee.findOne,
      EmployeeService.new_Employee, Employee.save, Employee.countAll.
    keep.
  - unfold EmployeeService.updateEmployee, Employee.findOne,
      Employee.findByIdAndUpdate_set.
    keep; apply preserves_all; repeat constructor; keep.
  - unfold EmployeeService.deleteEmployee, Employee.findByIdAndUpdate_set.
    keep; apply preserves_all; repeat constructor; keep.
  - unfold EmployeeService.searchEmployees, Employee.textFind,
      Employee.textCount.
    keep.
  - unfold EmployeeService.markAttendance, Employee.findByIdAndUpdate_push.
    keep.
  - unfold EmployeeService.bulkUpdateEmployees, Employee.updateMany,
      Employee.findByIds.
    keep. apply preserves_all. apply Forall_app. split.
    + apply Forall_forall. intros m (id & -> & _)%list_elem_of_fmap. keep.
    + repeat constructor. keep.
  - unfold EmployeeService.getEmployeeStats, Employee.countAll,
      Employee.countActive, Employee.aggregate.
    keep.
Qed.

(** The single-record read adds an entry under a per-id key. *)
Lemma getEmployeeById_keeps_cache id :
  (forall e, ok ("employee:" +:+ id) (JEmployee e)) ->
  preserves (cache_holds ok) (EmployeeService.getEmployeeById id).
Proof.
  intros Hok. unfold EmployeeService.getEmployeeById, Employee.findById.
  keep. by apply keeps_cache_set.
Qed.

Lemma empty_cache_holds w : redis w = ∅ -> cache_holds ok w.
Proof. intros Hw k v. by rewrite Hw, lookup_empty. Qed.

End ServiceInvariant.

Section ListInvariants.
Context `{Platform}.

Lemma record_key_fits id v : fits ("employee:" +:+ id) v.
Proof. intros ko pg Hk. simpl in Hk. discriminate Hk. Qed.

Lemma record_key_shows_flag id v : shows_flag ("employee:" +:+ id) v.
Proof. intros ko Hk. simpl in Hk. discriminate Hk. Qed.

(** The entry a list read writes fits its key. *)
Lemma list_entry_fits f pg s items n :
  fits (cacheKey f pg s)
    (JConnection
       (JSON_roundtrip
          (EmployeeService.envelope items n (page_of pg) (limit_of pg)))).
Proof.
  intros ko p Hko Hlim Hskip. eexists. split; [done |].
  unfold cacheKey in Hko. simpl in Hko.
  injection Hko as Hko. apply JSON_stringify_page in Hko as [Hs Hl].
  simpl in Hs, Hl. rewrite <- Hl in *.
  assert (p = page_of pg) as -> by nia.
  by apply roundtrip_is_ok, envelope_is_ok.
Qed.

Lemma list_entry_shows_flag f pg s items n :
  Forall (fun e => isActive e = default true (filter_isActive f)) items ->
  shows_flag (cacheKey f pg s)
    (JConnection
       (JSON_roundtrip
          (EmployeeService.envelope items n (page_of pg) (limit_of pg)))).
Proof.
  intros Hitems ko Hko. eexists. split; [done |]. simpl.
  unfold cacheKey in Hko. simpl in Hko.
  injection Hko as Hko. apply JSON_stringify_flag in Hko. simpl in Hko.
  by rewrite <- Hko.
Qed.

End ListInvariants.

(** *** Where the answer of a list read comes from *)

Section ListAnswers.
Context `{Platform}.

(** The page of the store holds documents of the store with the flag the
    query asks for. *)
Lemma store_page_items f pg s docs :
  Forall (fun e => e ∈ docs
                   /\ isActive e = default true (filter_isActive f))
    (data (store_page f pg s docs)).
Proof.
  unfold store_page. simpl. apply Forall_forall. intros e He.
  apply page_slice_subseteq in He. rewrite sort_docs_perm in He.
  by apply selected_spec.
Qed.

(** An answer is the cached entry or the page of the store. *)
Lemma getEmployees_answer f pg s w v :
  fst (EmployeeService.getEmployees f pg s w) = Ok v ->
  (cache_available w /\ redis w !! cacheKey f pg s = Some v)
  \/ (cache_misses w (cacheKey f pg s)
      /\ v = JConnection (store_page f pg s (employees w))).
Proof.
  destruct (available_or_not w) as [Hw | Hw].
  - destruct (redis w !! cacheKey f pg s) as [v' |] eqn:Hk.
    + rewrite (getEmployees_hit f pg s w v' Hw Hk). simpl.
      intros [= <-]. by left.
    + assert (cache_misses w (cacheKey f pg s)) as Hmiss by by right.
      destruct (getEmployees_miss f pg s w Hmiss) as [-> _].
      rewrite direct_getEmployees_fst. destruct (_ <? 0); [done |].
      intros [= <-]. by right.
  - assert (cache_misses w (cacheKey f pg s)) as Hmiss by by left.
    destruct (getEmployees_miss f pg s w Hmiss) as [-> _].
    rewrite direct_getEmployees_fst. destruct (_ <? 0); [done |].
    intros [= <-]. by right.
Qed.

(** There is an answer whenever the skip is not negative. *)
Lemma getEmployees_answers f pg s w :
  0 <= (page_of pg - 1) * limit_of pg ->
  exists v, fst (EmployeeService.getEmployees f pg s w) = Ok v.
Proof.
  intros Hskip.
  destruct (getEmployees_cached_or_direct f pg s w) as [Hv | ->]; [done |].
  rewrite direct_getEmployees_fst. apply Z.ltb_ge in Hskip.
  rewrite Hskip. eauto.
Qed.

(** A list read keeps an entry-wise property of the cache that the page
    of the store satisfies under the key of the call. *)
Lemma getEmployees_keeps_cache (ok : string -> Json -> Prop) f pg s w :
  ok (cacheKey f pg s)
     (JConnection (JSON_roundtrip (store_page f pg s (employees w)))) ->
  cache_holds ok w ->
  cache_holds ok (snd (EmployeeService.getEmployees f pg s w)).
Proof.
  intros Hfit Hcache. destruct (available_or_not w) as [Hw | Hw].
  - destruct (redis w !! cacheKey f pg s) as [v |] eqn:Hk.
    + by rewrite (getEmployees_hit f pg s w v Hw Hk).
    + destruct (getEmployees_available_miss f pg s w Hw Hk) as [evs ->].
      rewrite direct_getEmployees_fst. simpl.
      destruct (_ <? 0); [done |].
      intros k v. simpl. rewrite lookup_insert. case_decide as Heq.
      * intros [= <-]. by subst k.
      * apply Hcache.
  - by destruct (getEmployees_unavailable w f pg s Hw) as [evs ->].
Qed.

Lemma store_page_fits f pg s docs :
  fits (cacheKey f pg s)
    (JConnection (JSON_roundtrip (store_page f pg s docs))).
Proof. apply list_entry_fits. Qed.

Lemma store_page_shows_flag f pg s docs :
  shows_flag (cacheKey f pg s)
    (JConnection (JSON_roundtrip (store_page f pg s docs))).
Proof.
  apply list_entry_shows_flag.
  eapply Forall_impl; [apply (store_page_items f pg s docs) |].
  by intros e [_ He].
Qed.

(** Both invariants of the list namespace are kept by every operation of
    the service; they hold when the cache is empty. *)
Lemma service_keeps_list_cache (ok : string -> Json -> Prop) :
  ok = fits \/ ok = shows_flag ->
  (forall f pg s,
      preserves (cache_holds ok) (EmployeeService.getEmployees f pg s))
  /\ (forall id,
        preserves (cache_holds ok) (EmployeeService.getEmployeeById id))
  /\ (forall input by_, preserves (cache_holds ok)
                          (EmployeeService.createEmployee input by_))
  /\ (forall id input, preserves (cache_holds ok)
                         (EmployeeService.updateEmployee id input))
  /\ (forall id, preserves (cache_holds ok) (EmployeeService.deleteEmployee id))
  /\ (forall q pg, preserves (cache_holds ok)
                     (EmployeeService.searchEmployees q pg))
  /\ (forall id a, preserves (cache_holds ok)
                     (EmployeeService.markAttendance id a))
  /\ (forall ids input, preserves (cache_holds ok)
                          (EmployeeService.bulkUpdateEmployees ids input))
  /\ preserves (cache_holds ok) EmployeeService.getEmployeeStats.
Proof.
  intros Hok. split; [| split; [| apply writes_keep_cache]].
  - intros f pg s w Hw. apply getEmployees_keeps_cache; [| done].
    destruct Hok as [-> | ->];
      [apply store_page_fits | apply store_page_shows_flag].
  - intros id. apply getEmployeeById_keeps_cache. intros e.
    destruct Hok as [-> | ->];
      [apply record_key_fits | apply record_key_shows_flag].
Qed.

End ListAnswers.

(** *** Duplicate e-mail addresses *)

Lemma find_is_Some {A} (p : A -> bool) (l : list A) x :
  x ∈ l -> p x = true -> is_Some (List.find p l).
Proof.
  intros Hx Hp. destruct (List.find p l) eqn:Hfind; [done |].
  apply list_elem_of_In in Hx.
  pose proof (List.find_none _ _ Hfind x Hx). congruence.
Qed.

Section Update.
Context `{Platform}.

(** The duplicate check on its own: it throws or lets the update pass. *)
Lemma update_check_eq id input w :
  (if truthy_str (set_email input) then
     let* existing :=
       Employee.findOne (default "" (set_email input)) (Some id) in
     match existing with
     | Some _ => throw (GraphQLError "Email already in use" "DUPLICATE_EMAIL")
     | None => ret tt
     end
   else ret tt) w
  = (if truthy_str (set_email input) && negb (casts id (employees w))
     then Throw MongooseCastError
     else if update_is_duplicate id input (employees w)
     then Throw (GraphQLError "Email already in use" "DUPLICATE_EMAIL")
     else Ok tt,
     if truthy_str (set_email input)
     then logged [DbFindOne (default "" (set_email input)) (Some id)] w
     else w).
Proof.
  unfold update_is_duplicate.
  destruct (truthy_str (set_email input)); [| done].
  unfold bind. rewrite findOne_eq.
  destruct (casts id (employees w)); [| done]. simpl.
  change (fun e => same_address (default "" (set_email input)) e
                   && negb (has_id id e))
    with (held_by_other (default "" (set_email input)) id).
  by destruct (List.find _ (employees w)).
Qed.

(** The result of [updateEmployee], case by case. *)
Lemma updateEmployee_fst id input w :
  fst (EmployeeService.updateEmployee id input w)
  = if negb (casts id (employees w)) then Throw MongooseCastError
    else if update_is_duplicate id input (employees w)
    then Throw (GraphQLError "Email already in use" "DUPLICATE_EMAIL")
    else if negb (validate_set input) then Throw MongooseValidationError
    else
      match List.find (has_id id) (employees w) with
      | None => Ok None
      | Some e =>
          if set_breaks_unique_email input id (employees w)
          then Throw (MongoServerError "E11000 duplicate key")
          else Ok (Some (apply_set input (now w) e))
      end.
Proof.
  unfold EmployeeService.updateEmployee. unfold bind at 1.
  rewrite update_check_eq.
  destruct (casts id (employees w)) eqn:Hcast; simpl.
  2: { destruct (truthy_str (set_email input)) eqn:Ht; simpl; [done |].
       assert (update_is_duplicate id input (employees w) = false) as ->
         by (unfold update_is_duplicate; by rewrite Ht).
       unfold bind. rewrite findByIdAndUpdate_set_eq. by rewrite Hcast. }
  rewrite andb_false_r.
  destruct (update_is_duplicate id input (employees w)); [done |].
  unfold bind. rewrite findByIdAndUpdate_set_eq. simpl.
  assert (forall evs, employees (if truthy_str (set_email input)
                                 then logged evs w else w) = employees w)
    as Hdocs by (intros; by destruct (truthy_str _)).
  assert (forall evs, now (if truthy_str (set_email input)
                           then logged evs w else w) = now w)
    as Hnow by (intros; by destruct (truthy_str _)).
  rewrite Hdocs, Hnow, Hcast. simpl.
  destruct (negb (validate_set input)); [done |].
  destruct (List.find (has_id id) (employees w)) as [e |]; [| done].
  destruct (set_breaks_unique_email input id (employees w)); [done |].
  match goal with |- context [Promise_all_ ?l ?w'] =>
    destruct (available_or_not w') as [Hw | Hw];
    [destruct (invalidate_available id w' Hw) as [evs ->]
    |destruct (invalidate_unavailable id w' Hw) as [evs ->]]
  end; done.
Qed.

End Update.

Lemma email_in_false mail docs :
  (forall x, x ∈ docs -> email x <> mail) -> email_in mail docs = false.
Proof.
  intros Hne. unfold email_in. apply not_true_is_false.
  intros (x & Hx & Heq)%existsb_exists.
  apply String.eqb_eq in Heq. apply list_elem_of_In in Hx. by apply (Hne x).
Qed.




(** *** Statistics *)

Lemma inactive_is_rest (docs : list IEmployee) :
  Z.of_nat (length (filter (fun e => isActive e = false) docs))
  = Z.of_nat (length docs)
    - Z.of_nat (length (filter (fun e => isActive e = true) docs)).
Proof.
  induction docs as [| e docs IH]; [done |].
  rewrite !filter_cons. destruct (isActive e) eqn:He.
  - rewrite decide_False by done. rewrite decide_True by done.
    simpl length. lia.
  - rewrite decide_True by done. rewrite decide_False by done.
    simpl length. lia.
Qed.

Lemma unwound_entries (docs : list IEmployee) :
  Z.of_nat (length (flat_map attendance docs)) = total_entries docs.
Proof.
  unfold total_entries. induction docs as [| e docs IH]; [done |].
  simpl. rewrite length_app. lia.
Qed.

Lemma unwound_present (docs : list IEmployee) :
  Z.of_nat (length (filter (fun a => is_present a = true)
                      (flat_map attendance docs)))
  = total_present docs.
Proof.
  unfold total_present. induction docs as [| e docs IH]; [done |].
  simpl. rewrite filter_app, length_app. lia.
Qed.

Lemma attendance_totals_spec (docs : list IEmployee) :
  attendance_totals docs
  = if total_entries docs =? 0 then None
    else Some (total_entries docs, total_present docs).
Proof.
  rewrite <- unwound_entries, <- unwound_present. unfold attendance_totals.
  destruct (flat_map attendance docs) as [| a l]; [done |].
  by assert ((Z.of_nat (length (a :: l)) =? 0) = false) as ->
    by (apply Z.eqb_neq; simpl length; lia).
Qed.

Lemma group_by_department_spec (docs : list IEmployee) d :
  d ∈ group_by_department docs
  <-> exists k e,
        d = {| dc_department := k;
               dc_count := Z.of_nat
                 (length (filter (fun e => department e = k /\ isActive e = true)
                            docs)) |}
        /\ e ∈ docs /\ isActive e = true /\ department e = k.
Proof.
  unfold group_by_department.
  change (map ?f ?l) with (f <$> l).
  rewrite list_elem_of_fmap. setoid_rewrite elem_of_remove_dups.
  setoid_rewrite list_elem_of_fmap. setoid_rewrite list_elem_of_filter.
  setoid_rewrite list_filter_filter. split.
  - intros (k & -> & e & -> & Hact & He). eauto 10.
  - intros (k & e & -> & He & Hact & <-). eauto 10.
Qed.

Lemma truthy_str_spec o :
  truthy_str o = true <-> exists s, o = Some s /\ s <> "".
Proof.
  destruct o as [s |]; simpl.
  - rewrite negb_true_iff, String.eqb_neq. split.
    + intros Hs. by exists s.
    + by intros (s' & [= <-] & Hs).
  - split; [done | by intros (s & ? & _)].
Qed.

(** *** The resolver guards *)

Lemma nonempty_length_positive {A} (l : list A) x :
  x ∈ l -> (0 <? Z.of_nat (length l)) = true.
Proof. intros Hx. destruct l; [by inversion Hx |]. done. Qed.

Section MemberList.
Context `{Platform}.

(** The filter [{ _id: ref }] of a member builds the query of an empty
    filter: [getEmployees] reads no [_id] key. *)
Lemma member_filter_is_ignored ref pg s w :
  EmployeeService.getEmployees (only_id ref) pg s w
  = EmployeeService.getEmployees empty_filter pg s w.
Proof. reflexivity. Qed.

Lemma member_list_call u pg s w :
  role u = EMPLOYEE ->
  employeeResolver.employees None pg s {| user := Some u |} w
  = EmployeeService.getEmployees empty_filter pg s w.
Proof.
  intros Hrole. unfold employeeResolver.employees, is_employee. simpl.
  rewrite Hrole. by destruct (employeeRef u).
Qed.

Lemma active_is_selected e docs :
  e ∈ docs -> isActive e = true -> e ∈ selected empty_filter docs.
Proof.
  intros He Hact. unfold selected. apply list_elem_of_filter.
  split; [| done]. unfold matches. simpl. by rewrite Hact.
Qed.

Lemma first_page_is_everything (l : list IEmployee) :
  (length l <= 10)%nat -> page_slice 0 10 l = l.
Proof. intros Hl. unfold page_slice. simpl. by apply take_ge. Qed.

End MemberList.

(** The sibling paths: reading, updating or marking attendance on a record
    that is not the member's own, or with no back-reference at all, is
    rejected as FORBIDDEN before any call to the stores. *)
Lemma member_record_access_guarded `{Platform}
  (w : World) (u : ContextUser) (id : string)
  (input : IUpdateEmployeeInput) (a : IAttendance) :
  role u = EMPLOYEE -> employeeRef u <> Some id ->
  employeeResolver.employee id {| user := Some u |} w
  = (Throw (GraphQLError "Not authorized to view this employee" "FORBIDDEN"), w)
  /\ employeeResolver.updateEmployee id input {| user := Some u |} w
     = (Throw (GraphQLError "Not authorized" "FORBIDDEN"), w)
  /\ employeeResolver.markAttendance id a {| user := Some u |} w
     = (Throw (GraphQLError "Not authorized" "FORBIDDEN"), w).
Proof.
  intros Hrole Href.
  assert (ref_differs u id = true) as Hdiff.
  { unfold ref_differs. destruct (employeeRef u) as [r |]; [| done].
    apply negb_true_iff, String.eqb_neq. congruence. }
  unfold employeeResolver.employee, employeeResolver.updateEmployee,
    employeeResolver.markAttendance, is_employee. simpl.
  rewrite Hrole, Hdiff. done.
Qed.

(** *** What each write evicts *)

Lemma list_key_not_record_key k id : list_key k -> k <> "employee:" +:+ id.
Proof.
  unfold list_key. intros Hk ->. by rewrite record_key_not_list_key in Hk.
Qed.

Section AttendanceWrites.
Context `{Platform}.

Lemma markAttendance_available id a e w :
  cache_available w -> validate_push a = true ->
  List.find (has_id id) (employees w) = Some e ->
  EmployeeService.markAttendance id a w
  = (Ok (Some (apply_push a (now w) e)),
     with_redis (delete ("employee:" +:+ id) (redis w))
       (with_employees (update_first id (apply_push a (now w)) (employees w))
          (logged [DbUpdateById id; RedisDel ["employee:" +:+ id]] w))).
Proof.
  intros Hw Hvalid Hfind. unfold EmployeeService.markAttendance, bind.
  rewrite findByIdAndUpdate_push_eq, (casts_held _ _ _ Hfind), Hvalid, Hfind.
  simpl.
  rewrite delete_available by done. unfold ret.
  unfold with_redis, with_employees, logged. simpl.
  by rewrite <- app_assoc.
Qed.

End AttendanceWrites.

Section OtherWrites.
Context `{Platform}.

Lemma updateEmployee_available id input e w :
  cache_available w ->
  update_is_duplicate id input (employees w) = false ->
  validate_set input = true ->
  List.find (has_id id) (employees w) = Some e ->
  set_breaks_unique_email input id (employees w) = false ->
  exists evs,
    EmployeeService.updateEmployee id input w
    = (Ok (Some (apply_set input (now w) e)),
       with_redis (evicted ("employee:" +:+ id) (redis w))
         (with_employees
            (update_first id (apply_set input (now w)) (employees w))
            (logged evs w))).
Proof.
  intros Hw Hdup Hvalid Hfind Hunique.
  unfold EmployeeService.updateEmployee. unfold bind at 1.
  rewrite update_check_eq, Hdup, (casts_held _ _ _ Hfind), andb_false_r.
  unfold bind. rewrite findByIdAndUpdate_set_eq, Hvalid. simpl.
  destruct (truthy_str (set_email input)); simpl;
    rewrite (casts_held _ _ _ Hfind), Hfind, Hunique; simpl;
    match goal with |- context [Promise_all_ ?l ?w'] =>
      destruct (invalidate_available id w') as [evs ->]; [done |]
    end;
    unfold ret; eexists; unfold with_redis, with_employees, logged; simpl;
    rewrite <- ?app_assoc; reflexivity.
Qed.


End OtherWrites.

Arguments CacheService.deletePattern : simpl never.
Arguments CacheService.delete : simpl never.



Section BulkAndCreate.
Context `{Platform}.


(** [save()] refuses a document without a code before the hook that
    would give it one has run. *)
Lemma save_without_code doc w :
  employeeId doc = "" ->
  Employee.save doc w = (Throw MongooseValidationError, w).
Proof.
  intros Hcode. unfold Employee.save.
  destruct (validate_doc doc) eqn:Hvalid; [| done].
  by apply validate_doc_employeeId in Hvalid.
Qed.

(** [createEmployee], case by case: nothing is inserted. *)
Lemma createEmployee_eq input createdBy w :
  exists w',
    EmployeeService.createEmployee input createdBy w
    = (match List.find (fun e => same_address (new_email input) e && true)
               (employees w) with
       | Some _ =>
           Throw (GraphQLError "Employee with this email already exists"
                    "DUPLICATE_EMAIL")
       | None => Throw MongooseValidationError
       end, w')
    /\ employees w' = employees w
    /\ redis w' = redis w
    /\ isConnected w' = isConnected w
    /\ redis_failing w' = redis_failing w
    /\ now w' = now w.
Proof.
  unfold EmployeeService.createEmployee. unfold bind at 1.
  rewrite findOne_eq. cbv iota.
  destruct (List.find _ (employees w)).
  - eexists. split; [reflexivity |]. done.
  - unfold EmployeeService.new_Employee, fresh_oid.
    unfold bind at 1 2 3. unfold gets, ret. cbv beta iota.
    unfold bind. rewrite save_without_code by done.
    eexists. split; [reflexivity |]. done.
Qed.

End BulkAndCreate.

(** *** The writes, case by case *)

Section WriteOutcomes.
Context `{Platform}.

Lemma invalidate_returns id w :
  exists w',
    Promise_all_ [CacheService.delete ("employee:" +:+ id);
                  CacheService.deletePattern "employees:*"] w
    = (Ok tt, w')
    /\ employees w' = employees w.
Proof.
  destruct (available_or_not w) as [Hw | Hw].
  - destruct (invalidate_available id w Hw) as [evs ->]. eauto.
  - destruct (invalidate_unavailable id w Hw) as [evs ->]. eauto.
Qed.

Lemma delete_returns k w :
  exists w', CacheService.delete k w = (Ok tt, w')
             /\ employees w' = employees w.
Proof.
  destruct (available_or_not w) as [Hw | Hw].
  - rewrite delete_available by done. eauto.
  - destruct (delete_unavailable w k Hw) as [evs ->]. eauto.
Qed.

  (** [updateEmployee] either returns the updated document, having applied
    the [$set] to the first document with that id, or leaves the
    collection and the keyspace as they were. *)
Lemma updateEmployee_outcome id input w :
  let r := EmployeeService.updateEmployee id input w in
  (exists e, List.find (has_id id) (employees w) = Some e
             /\ fst r = Ok (Some (apply_set input (now w) e))
             /\ employees (snd r)
                = update_first id (apply_set input (now w)) (employees w))
  \/ ((forall e, fst r <> Ok (Some e))
      /\ employees (snd r) = employees w /\ redis (snd r) = redis w).
Proof.
  cbv zeta.
  remember (EmployeeService.updateEmployee id input w) as r eqn:Hr.
  revert Hr.
  unfold EmployeeService.updateEmployee. unfold bind at 1.
  rewrite update_check_eq.
  destruct (truthy_str (set_email input) && negb (casts id (employees w))).
  { intros ->. right. by destruct (truthy_str _). }
  destruct (update_is_duplicate id input (employees w)).
  { intros ->. right. by destruct (truthy_str _). }
  set (w1 := if truthy_str (set_email input) then _ else w).
  assert (employees w1 = employees w /\ redis w1 = redis w
          /\ now w1 = now w) as (Hd & Hr & Hn)
    by (subst w1; by destruct (truthy_str _)).
  unfold bind. rewrite findByIdAndUpdate_set_eq. simpl.
  rewrite Hd.
  destruct (negb (casts id (employees w))); [intros ->; by right |].
  destruct (negb (validate_set input)); [intros ->; by right |].
  rewrite Hn.
  destruct (List.find (has_id id) (employees w)) as [e |] eqn:He;
    [| intros ->; by right].
  destruct (set_breaks_unique_email input id (employees w));
    [intros ->; by right |].
  match goal with |- context [Promise_all_ ?l ?w'] =>
    destruct (invalidate_returns id w') as (w2 & -> & Hd2)
  end.
  intros ->. left. exists e. unfold ret. cbn [fst snd]. by rewrite Hd2.
Qed.

Lemma deleteEmployee_outcome id w :
  let r := EmployeeService.deleteEmployee id w in
  (exists e, List.find (has_id id) (employees w) = Some e
             /\ fst r = Ok true
             /\ employees (snd r)
                = update_first id
                    (apply_set EmployeeService.set_inactive (now w))
                    (employees w))
  \/ (List.find (has_id id) (employees w) = None
      /\ fst r = (if casts id (employees w) then Ok false
                  else Throw MongooseCastError)
      /\ employees (snd r) = employees w /\ redis (snd r) = redis w).
Proof.
  cbv zeta.
  remember (EmployeeService.deleteEmployee id w) as r eqn:Hr. revert Hr.
  unfold EmployeeService.deleteEmployee, bind.
  rewrite findByIdAndUpdate_set_eq. simpl.
  destruct (casts id (employees w)) eqn:Hcast; simpl;
    [| intros ->; right; by rewrite (casts_false_absent _ _ Hcast)].
  destruct (List.find (has_id id) (employees w)) as [e |] eqn:He;
    [| intros ->; by right].
  change (set_breaks_unique_email EmployeeService.set_inactive id
            (employees w)) with false. cbv iota.
  match goal with |- context [Promise_all_ ?l ?w'] =>
    destruct (invalidate_returns id w') as (w2 & -> & Hd2)
  end.
  intros ->. left. exists e. unfold ret. cbn [fst snd]. by rewrite Hd2.
Qed.

Lemma markAttendance_outcome id a w :
  let r := EmployeeService.markAttendance id a w in
  (exists e, List.find (has_id id) (employees w) = Some e
             /\ fst r = Ok (Some (apply_push a (now w) e))
             /\ employees (snd r)
                = update_first id (apply_push a (now w)) (employees w))
  \/ ((forall e, fst r <> Ok (Some e))
      /\ employees (snd r) = employees w /\ redis (snd r) = redis w).
Proof.
  cbv zeta.
  remember (EmployeeService.markAttendance id a w) as r eqn:Hr. revert Hr.
  unfold EmployeeService.markAttendance, bind.
  rewrite findByIdAndUpdate_push_eq.
  destruct (negb (casts id (employees w))); [intros ->; by right |].
  destruct (negb (validate_push a)); [intros ->; by right |].
  destruct (List.find (has_id id) (employees w)) as [e |] eqn:He;
    [| intros ->; by right].
  match goal with |- context [CacheService.delete ?k ?w'] =>
    destruct (delete_returns k w') as (w2 & -> & Hd2)
  end.
  intros ->. left. exists e. unfold ret. cbn [fst snd]. by rewrite Hd2.
Qed.

(** [createEmployee] throws, and leaves the collection and the keyspace
    as they were. *)
Lemma createEmployee_outcome input createdBy w :
  let r := EmployeeService.createEmployee input createdBy w in
  (fst r = Throw (GraphQLError "Employee with this email already exists"
                    "DUPLICATE_EMAIL")
   \/ fst r = Throw MongooseValidationError)
  /\ employees (snd r) = employees w /\ redis (snd r) = redis w.
Proof.
  cbv zeta.
  destruct (createEmployee_eq input createdBy w)
    as (w' & -> & Hd & Hr & _). cbn [fst snd].
  split; [| done]. destruct (List.find _ (employees w)); auto.
Qed.

End WriteOutcomes.

(** ** The claims *)
(** C1, what the code does instead: for a member, with or without a
    back-reference, the list call is the unrestricted list call; in a
    store of at most ten records it returns every active record, those of
    other people included. *)
Theorem member_list_returns_other_records `{Platform}
  (w : World) (u : ContextUser) (other : IEmployee) (s : option ISortInput) :
  role u = EMPLOYEE ->
  other ∈ employees w -> isActive other = true ->
  employeeRef u <> Some (_id other) ->
  (length (employees w) <= 10)%nat ->
  cache_misses w (cacheKey empty_filter None s) ->
  exists r,
    fst (employeeResolver.employees None None s {| user := Some u |} w)
    = Ok (JConnection r)
    /\ other ∈ data r.
Proof.
  intros Hrole Hin Hact _ Hlen Hmiss.
  rewrite member_list_call by done.
  destruct (getEmployees_miss empty_filter None s w Hmiss) as [-> _].
  rewrite direct_getEmployees_fst. simpl.
  eexists. split; [reflexivity |]. unfold store_page. simpl.
  change ((page_of None - 1) * limit_of None) with 0.
  change (limit_of None) with 10.
  rewrite first_page_is_everything.
  - rewrite sort_docs_perm. by apply active_is_selected.
  - rewrite sort_docs_perm. unfold selected.
    etrans; [apply length_filter | done].
Qed.

(** C2, what the code does instead: an attendance append that succeeds
    at the store evicts the per-id entry only; every entry of the list
    namespace is still there, and the same list call is then answered
    from it, the store not being asked. *)
Theorem attendance_keeps_list_cache `{Platform}
  (w : World) (id : string) (a : IAttendance) (e : IEmployee)
  (k : string) (v : Json) :
  cache_available w -> validate_push a = true ->
  List.find (has_id id) (employees w) = Some e ->
  list_key k -> redis w !! k = Some v ->
  let r := EmployeeService.markAttendance id a w in
  fst r = Ok (Some (apply_push a (now w) e))
  /\ employees (snd r) = update_first id (apply_push a (now w)) (employees w)
  /\ redis (snd r) !! ("employee:" +:+ id) = None
  /\ redis (snd r) !! k = Some v
  /\ (forall f pg s,
        cacheKey f pg s = k ->
        EmployeeService.getEmployees f pg s (snd r)
        = (Ok v, logged [RedisGet k] (snd r))).
Proof.
  intros Hw Hvalid Hfind Hk Hv r. subst r.
  rewrite (markAttendance_available id a e w) by done. simpl.
  assert (delete ("employee:" +:+ id) (redis w) !! k = Some v) as Hstale.
  { rewrite lookup_delete_ne; [done |]. intros Heq.
    by apply (list_key_not_record_key k id). }
  split; [done |]. split; [done |]. split; [apply lookup_delete_eq |].
  split; [done |].
  intros f pg s <-. by apply getEmployees_hit.
Qed.

(** C3, the claim as stated fails: a page size of 1000, above the
    configured maximum of 100, is served; the cache is read and written
    and the store is queried. *)
Lemma oversized_limit_is_served :
  let pg := Some {| input_page := Some 1; input_limit := Some 1000 |} in
  let r := EmployeeService.getEmployees empty_filter pg None (world_of [john]) in
  maxPageSize < limit_of pg
  /\ fst r
     = Ok (JConnection
             {| data := [john];
                pagination := {| total := 1; page := 1; limit := 1000;
                                 pages := Fin 1; hasNextPage := false;
                                 hasPrevPage := false |} |})
  /\ trace (snd r)
     = [RedisGet (cacheKey empty_filter pg None);
        DbFind (EmployeeService.build_query empty_filter) 0 1000;
        DbCount (EmployeeService.build_query empty_filter);
        RedisSetex (cacheKey empty_filter pg None) 300].
Proof. split; [done |]. split; vm_compute; reflexivity. Qed.

(** C3, as amended. [getEmployees] validates neither the page nor the
    page size: no input makes it throw a validation error or any
    GraphQLError, and its first call is the cache lookup; for a page of at
    least 1 and a page size of at least 1, however large, a lookup that
    finds nothing is followed by the store query and the envelope carries
    that page and page size. *)
Theorem list_does_not_validate `{Platform}
  (w : World) (f : IEmployeeFilter) (pg : option IPaginationInput)
  (s : option ISortInput) :
  let r := EmployeeService.getEmployees f pg s w in
  fst r <> Throw MongooseValidationError
  /\ (forall msg code, fst r <> Throw (GraphQLError msg code))
  /\ (exists evs,
        trace (snd r)
        = trace w
          ++ (if isConnected w then RedisGet (cacheKey f pg s)
              else Logged warn "Redis not connected, skipping cache get")
             :: evs)
  /\ (1 <= page_of pg -> 1 <= limit_of pg ->
      cache_misses w (cacheKey f pg s) ->
      exists items n,
        fst r = Ok (JConnection
                      (EmployeeService.envelope items n
                         (page_of pg) (limit_of pg)))
        /\ DbFind (EmployeeService.build_query f)
             ((page_of pg - 1) * limit_of pg) (limit_of pg)
           ∈ trace (snd r)).
Proof.
  intros r. subst r.
  assert (forall e,
             (forall reason, e <> MongoServerError reason) ->
             fst (EmployeeService.getEmployees f pg s w) <> Throw e) as Hno.
  { intros e He.
    destruct (getEmployees_cached_or_direct f pg s w) as [[v ->] | ->];
      [done |].
    rewrite direct_getEmployees_fst. destruct (_ <? 0); [| done].
    intros [= <-]. by eapply He. }
  split; [by apply Hno |]. split; [intros; by apply Hno |]. split.
  - rewrite getEmployees_trace. unfold list_calls.
    destruct (isConnected w); [| eauto].
    destruct (redis_failing w); [eauto |].
    destruct (redis w !! cacheKey f pg s); eauto.
  - intros Hp Hl Hmiss.
    destruct (getEmployees_miss f pg s w Hmiss) as [-> _].
    rewrite direct_getEmployees_fst.
    assert (((page_of pg - 1) * limit_of pg <? 0) = false) as ->
      by (apply Z.ltb_ge; nia).
    unfold store_page. eexists _, _. split; [reflexivity |].
    rewrite getEmployees_trace. apply elem_of_app. right.
    by apply store_is_queried_on_miss.
Qed.

(** C4. For a request with a page number and a page size of at least 1,
    and a cache whose list entries satisfy the envelope invariant of the
    request their key stands for (an empty cache does, and every operation
    of the service keeps it so), [getEmployees] returns an envelope that
    carries the requested page and the requested size, whose [pages] is
    the ceiling of [total / limit] and whose flags compare [page] with
    [pages] and with 1, whether it comes from the cache or from the store;
    from the cache it is the entry of the key, from the store it is the
    page of the store, whose [total] is the number of documents the query
    selects.  The cache satisfies the invariant afterwards.
    [searchEmployees] returns such an envelope too, whose [total] is the
    number of active documents that match the text. *)
Theorem page_envelope_invariant `{Platform}
  (w : World) (f : IEmployeeFilter) (pg : option IPaginationInput)
  (s : option ISortInput) (q : string) :
  1 <= page_of pg -> 1 <= limit_of pg ->
  list_cache_ok w ->
  (exists r,
      fst (EmployeeService.getEmployees f pg s w) = Ok (JConnection r)
      /\ envelope_ok (page_of pg) (limit_of pg) (pagination r)
      /\ (forall v,
            cache_available w -> redis w !! cacheKey f pg s = Some v ->
            v = JConnection r)
      /\ (cache_misses w (cacheKey f pg s) ->
          r = store_page f pg s (employees w)
          /\ total (pagination r)
             = Z.of_nat (length (selected f (employees w)))))
  /\ list_cache_ok (snd (EmployeeService.getEmployees f pg s w))
  /\ (exists r,
        fst (EmployeeService.searchEmployees q pg w) = Ok r
        /\ envelope_ok (page_of pg) (limit_of pg) (pagination r)
        /\ total (pagination r)
           = Z.of_nat
               (length
                  (filter (fun e => (text_search q e && isActive e) = true)
                     (employees w)))).
Proof.
  intros Hpage Hlimit Hcache.
  assert (((page_of pg - 1) * limit_of pg <? 0) = false) as Hskip
    by (apply Z.ltb_ge; nia).
  split; [| split].
  - destruct (available_or_not w) as [Hw | Hw];
      [destruct (redis w !! cacheKey f pg s) as [v |] eqn:Hk |].
    + destruct (Hcache _ _ Hk
                  {| key_query := EmployeeService.build_query f;
                     key_skip := (page_of pg - 1) * limit_of pg;
                     key_limit := limit_of pg;
                     key_sort :=
                       default {| field := Some "createdAt";
                                  order := Some DESC |} s |}
                  (page_of pg))
        as (r & -> & Hok); [done | done | done |].
      exists r. rewrite (getEmployees_hit f pg s w _ Hw Hk).
      split; [done |]. split; [done |]. split.
      * intros v _ Hv. congruence.
      * intros [[Hc | Hf] | Hnone];
          [destruct Hw; congruence | destruct Hw; congruence | congruence].
    + assert (cache_misses w (cacheKey f pg s)) as Hmiss by by right.
      destruct (getEmployees_miss f pg s w Hmiss) as [Hfst _].
      rewrite direct_getEmployees_fst, Hskip in Hfst.
      exists (store_page f pg s (employees w)).
      split; [done |]. split; [by apply envelope_is_ok |]. split.
      * intros v _ Hv. congruence.
      * done.
    + assert (cache_misses w (cacheKey f pg s)) as Hmiss by by left.
      destruct (getEmployees_miss f pg s w Hmiss) as [Hfst _].
      rewrite direct_getEmployees_fst, Hskip in Hfst.
      exists (store_page f pg s (employees w)).
      split; [done |]. split; [by apply envelope_is_ok |]. split.
      * intros v [Hc Hf] _. destruct Hw; congruence.
      * done.
  - apply getEmployees_keeps_cache; [apply store_page_fits | done].
  - rewrite searchEmployees_fst, Hskip. eexists. split; [done |].
    split; [by apply envelope_is_ok | done].
Qed.

(** C5, the claim as stated fails: a member who sends a restricted field
    for a record that is not theirs is rejected as FORBIDDEN by the
    ownership guard, with a message that does not name the allowed
    fields. *)
Lemma foreign_update_message :
  let r := employeeResolver.updateEmployee "e2" (rename_to "Janet")
             (member (Some "e1")) (world_of [john; jane]) in
  "name" ∈ Object_keys (rename_to "Janet")
  /\ ("name" ∉ employeeResolver.allowedFields)
  /\ (r = (Throw (GraphQLError "Not authorized" "FORBIDDEN"),
           world_of [john; jane]))
  /\ "Not authorized" <> allowed_fields_message.
Proof.
  repeat split; [apply list_elem_of_here | | done].
  unfold employeeResolver.allowedFields.
  apply not_elem_of_cons. split; [done |].
  apply not_elem_of_cons. split; [done |]. apply not_elem_of_nil.
Qed.

(** C5, as amended. A member's update that carries a field outside
    [subjects] and [class] is rejected as FORBIDDEN before any call to the
    stores, so the record is left as it was; the message names the allowed
    fields when the record is the member's own, and is that of the
    ownership guard otherwise.  An admin's update goes to the service with
    whatever fields it carries, and the service sets them all. *)
Theorem member_update_restricted `{Platform}
  (w : World) (u : ContextUser) (id : string) (input : IUpdateEmployeeInput) :
  (role u = EMPLOYEE ->
   (exists key, key ∈ Object_keys input /\ key ∉ employeeResolver.allowedFields) ->
   employeeResolver.updateEmployee id input {| user := Some u |} w
   = (Throw (GraphQLError
               (if ref_differs u id then "Not authorized"
                else allowed_fields_message)
               "FORBIDDEN"),
      w))
  /\ (role u = ADMIN ->
      employeeResolver.updateEmployee id input {| user := Some u |} w
      = (let* updated := EmployeeService.updateEmployee id input in
         match updated with
         | Some e => ret e
         | None => not_found
         end) w)
  /\ (role u = ADMIN ->
      forall e,
        List.find (has_id id) (employees w) = Some e ->
        update_is_duplicate id input (employees w) = false ->
        validate_set input = true ->
        set_breaks_unique_email input id (employees w) = false ->
        fst (employeeResolver.updateEmployee id input {| user := Some u |} w)
        = Ok (apply_set input (now w) e)).
Proof.
  assert (role u = ADMIN ->
          employeeResolver.updateEmployee id input {| user := Some u |} w
          = (let* updated := EmployeeService.updateEmployee id input in
             match updated with
             | Some e => ret e
             | None => not_found
             end) w) as Hadmin.
  { intros Hrole. unfold employeeResolver.updateEmployee, is_employee.
    simpl. by rewrite Hrole. }
  split; [| split; [done |]].
  - intros Hrole (key & Hkey & Hrestricted).
    unfold employeeResolver.updateEmployee, is_employee. simpl.
    rewrite Hrole. unfold bind at 1.
    destruct (ref_differs u id); [done |].
    rewrite (nonempty_length_positive _ key); [done |].
    by apply list_elem_of_filter.
  - intros Hrole e Hfind Hdup Hvalid Hunique. rewrite (Hadmin Hrole).
    unfold bind at 1.
    pose proof (updateEmployee_fst id input w) as Hfst.
    rewrite (casts_held _ _ _ Hfind), Hdup, Hvalid, Hfind, Hunique in Hfst.
    simpl in Hfst.
    destruct (EmployeeService.updateEmployee id input w) as [res w'].
    simpl in Hfst. by subst res.
Qed.

(** C6. [createEmployee] with the e-mail address of an existing record,
    active or not, throws DUPLICATE_EMAIL after the one lookup: nothing is
    inserted, the collection and the cache are what they were, and no
    cache call is made. *)
Theorem create_duplicate_email_rejected `{Platform}
  (w : World) (input : IEmployeeInput) (createdBy : string) (e : IEmployee) :
  e ∈ employees w -> email e = new_email input ->
  EmployeeService.createEmployee input createdBy w
  = (Throw (GraphQLError "Employee with this email already exists"
              "DUPLICATE_EMAIL"),
     logged [DbFindOne (new_email input) None] w).
Proof.
  intros He Hmail. unfold EmployeeService.createEmployee, bind.
  rewrite findOne_eq.
  destruct (find_is_Some
              (fun e => same_address (new_email input) e && true)
              (employees w) e He) as [e' ->]; [| done].
  unfold same_address. rewrite Hmail, String.eqb_refl. done.
Qed.

(** C7. With a cache whose list entries carry the flag of their query (an
    empty cache does, and every operation of the service keeps it so), a
    list call with a page and a page size of at least 1 returns an
    envelope whose records all have the active flag true when the filter
    leaves the flag unset, and all have it false when the filter sets it
    to false; answered by the store, they are records of the store and the
    total counts all selected records.  After the soft delete of the only
    record, the default list reports a total of 0 and the list with
    [isActive: false] a total of 1. *)
Theorem active_flag_visibility `{Platform} :
  (forall w f pg s,
      list_cache_flags w -> 1 <= page_of pg -> 1 <= limit_of pg ->
      exists r,
        fst (EmployeeService.getEmployees f pg s w) = Ok (JConnection r)
        /\ (filter_isActive f = None ->
            Forall (fun e => isActive e = true) (data r))
        /\ (filter_isActive f = Some false ->
            Forall (fun e => isActive e = false) (data r))
        /\ (cache_misses w (cacheKey f pg s) ->
            Forall (fun e => e ∈ employees w) (data r)
            /\ total (pagination r)
               = Z.of_nat (length (selected f (employees w))))
        /\ list_cache_flags (snd (EmployeeService.getEmployees f pg s w)))
  /\ (forall w e s,
        employees w = [e] -> isActive e = true ->
        let w' := snd (EmployeeService.deleteEmployee (_id e) w) in
        fst (EmployeeService.deleteEmployee (_id e) w) = Ok true
        /\ (exists r,
              fst (EmployeeService.getEmployees empty_filter None s w')
              = Ok (JConnection r)
              /\ total (pagination r) = 0)
        /\ (exists r,
              fst (EmployeeService.getEmployees inactive_filter None s w')
              = Ok (JConnection r)
              /\ total (pagination r) = 1)).
Proof.
  split.
  - intros w f pg s Hcache Hp Hl.
    destruct (getEmployees_answers f pg s w) as [v Hv]; [nia |].
    assert (exists r,
               v = JConnection r
               /\ Forall (fun e => isActive e
                                   = default true (filter_isActive f)) (data r)
               /\ (cache_misses w (cacheKey f pg s) ->
                   r = store_page f pg s (employees w))) as (r & -> & Hr & Hs).
    { destruct (getEmployees_answer f pg s w v Hv) as [[Hw Hk] | [Hmiss ->]].
      - destruct (Hcache _ _ Hk _ eq_refl) as (r & -> & Hr).
        exists r. split; [done |]. split; [done |].
        destruct Hw as [Hc Hf]. intros [[? | ?] | ?]; congruence.
      - eexists. split; [done |]. split; [| done].
        eapply Forall_impl; [apply (store_page_items f pg s (employees w)) |].
        by intros e [_ He]. }
    exists r. split; [done |]. split; [| split; [| split]].
    + intros Hf. by rewrite Hf in Hr.
    + intros Hf. by rewrite Hf in Hr.
    + intros Hmiss. rewrite (Hs Hmiss). split; [| done].
      eapply Forall_impl; [apply (store_page_items f pg s (employees w)) |].
      by intros e [He _].
    + apply getEmployees_keeps_cache; [apply store_page_shows_flag | done].
  - intros w e s Hdocs Hact w'.
    assert (List.find (has_id (_id e)) (employees w) = Some e) as Hfind
      by (rewrite Hdocs; simpl; by rewrite has_id_refl).
    destruct (deleteEmployee_found _ _ _ Hfind) as (Hok & Hdocs' & _).
    fold w' in Hdocs'. rewrite Hdocs in Hdocs'. simpl in Hdocs'.
    rewrite has_id_refl in Hdocs'.
    split; [done |]. split.
    + destruct (getEmployees_from_store w' empty_filter None s)
        as (r & Hr & _ & Ht); [| done | done |].
      { apply misses_after_delete; [done | apply list_key_cacheKey]. }
      exists r. split; [done |]. rewrite Ht, Hdocs'. done.
    + destruct (getEmployees_from_store w' inactive_filter None s)
        as (r & Hr & _ & Ht); [| done | done |].
      { apply misses_after_delete; [done | apply list_key_cacheKey]. }
      exists r. split; [done |]. rewrite Ht, Hdocs'. done.
Qed.

(** C8. While the cache is disconnected or its calls fail, [get], [set],
    [delete] and [deletePattern] return their default without throwing and
    leave both stores alone, and [getEmployees] and [getEmployeeById]
    return what the store answers directly. *)
Theorem cache_failure_never_surfaces `{Platform} (w : World) :
  cache_unavailable w ->
  (forall k, exists evs, CacheService.get k w = (Ok None, logged evs w))
  /\ (forall k v ttl,
        exists evs, CacheService.set k v ttl w = (Ok tt, logged evs w))
  /\ (forall k, exists evs, CacheService.delete k w = (Ok tt, logged evs w))
  /\ (forall p,
        exists evs, CacheService.deletePattern p w = (Ok tt, logged evs w))
  /\ (forall f pg s,
        exists evs,
          EmployeeService.getEmployees f pg s w
          = (fst (direct_getEmployees f pg s w), logged evs w))
  /\ (forall id,
        exists evs,
          EmployeeService.getEmployeeById id w
          = (fst (direct_getEmployeeById id w), logged evs w)).
Proof.
  intros Hw. repeat split; intros.
  - by apply get_unavailable.
  - by apply set_unavailable.
  - by apply delete_unavailable.
  - by apply deletePattern_unavailable.
  - by apply getEmployees_unavailable.
  - by apply getEmployeeById_unavailable.
Qed.

(** C9. [getEmployeeStats] returns an inactive count equal to the total
    count minus the active count; an attendance rate equal to the present
    entries of all records over the attendance entries of all records,
    times 100, and 0 when there is no attendance entry; and a department
    breakdown with one row per department name that an active record
    carries, counting the active records of that department, and no row
    for records without a department. *)
Theorem stats_are_consistent `{Platform} (w : World) :
  exists st evs,
    EmployeeService.getEmployeeStats w = (Ok st, logged evs w)
    /\ totalEmployees st = Z.of_nat (length (employees w))
    /\ inactiveEmployees st = totalEmployees st - activeEmployees st
    /\ averageAttendanceRate st
       = (if total_entries (employees w) =? 0 then 0%Q
          else (inject_Z (total_present (employees w))
                / inject_Z (total_entries (employees w)) * inject_Z 100)%Q)
    /\ (forall d,
          d ∈ departmentCounts st
          <-> exists dept e,
                dept <> ""
                /\ d = {| dc_department := Some dept;
                          dc_count := active_in_department dept (employees w) |}
                /\ e ∈ employees w /\ isActive e = true
                /\ department e = Some dept).
Proof.
  eexists. eexists. split.
  { unfold EmployeeService.getEmployeeStats, Employee.countAll,
      Employee.countActive, Employee.aggregate. run.
    unfold logged. simpl. rewrite <- !app_assoc. simpl. reflexivity. }
  simpl. split; [done |]. split; [apply inactive_is_rest |]. split.
  - rewrite attendance_totals_spec.
    by destruct (total_entries (employees w) =? 0).
  - intros d. rewrite list_elem_of_filter, group_by_department_spec.
    rewrite truthy_str_spec. unfold active_in_department. split.
    + intros [(dept & Hd & Hne) (k & e & Heq & He & Hact & Hk)].
      subst d. simpl in Hd. subst k. by exists dept, e.
    + intros (dept & e & Hne & -> & He & Hact & Hdept). simpl. split.
      * by exists dept.
      * by exists (Some dept), e.
Qed.


(** ** The end-to-end scenario, evaluated *)

Example scenario_totals :
  fst (scenario (world_of [john]))
  = Ok (Some MongooseValidationError, 1, true, 0, 1).
Proof. vm_compute. reflexivity. Qed.

(** The same scenario without a reachable cache gives the same totals. *)
Example scenario_totals_without_cache :
  fst (scenario (world_without_cache [john]))
  = Ok (Some MongooseValidationError, 1, true, 0, 1).
Proof. vm_compute. reflexivity. Qed.

(** Three entries present and one absent give a rate of 75; no entry
    gives 0. *)
Example attendance_rate_75 :
  (EmployeeService.attendance_rate (Some (4, 3)%Z) == 75)%Q
  /\ EmployeeService.attendance_rate None = 0%Q.
Proof. split; reflexivity. Qed.

(** ** The theorems at concrete inputs *)

Lemma member_list_returns_other_records_witness :
  (role (member_user (Some "e1")) = EMPLOYEE
   /\ jane ∈ employees (world_of [john; jane])
   /\ isActive jane = true
   /\ employeeRef (member_user (Some "e1")) <> Some (_id jane)
   /\ (length (employees (world_of [john; jane])) <= 10)%nat
   /\ cache_misses (world_of [john; jane]) (cacheKey empty_filter None None))
  /\ exists r,
       fst (employeeResolver.employees None None None (member (Some "e1"))
              (world_of [john; jane])) = Ok (JConnection r)
       /\ jane ∈ data r.
Proof.
  assert (jane ∈ [john; jane]) as Hin
    by apply list_elem_of_further, list_elem_of_here.
  assert (cache_misses (world_of [john; jane])
            (cacheKey empty_filter None None)) as Hmiss
    by (right; apply lookup_empty).
  split.
  - repeat split; try done; simpl; lia.
  - apply (member_list_returns_other_records (world_of [john; jane])
             (member_user (Some "e1")) jane None);
      [reflexivity | done | reflexivity | done | simpl; lia | done].
Defined.

Lemma attendance_keeps_list_cache_witness :
  let w := snd (EmployeeService.getEmployees empty_filter None None
                  (world_of [john])) in
  let k := cacheKey empty_filter None None in
  (cache_available w /\ validate_push present_today = true
   /\ List.find (has_id "e1") (employees w) = Some john
   /\ list_key k /\ redis w !! k = Some first_page_of_john)
  /\ let r := EmployeeService.markAttendance "e1" present_today w in
     fst r = Ok (Some (apply_push present_today (now w) john))
     /\ employees (snd r)
        = update_first "e1" (apply_push present_today (now w)) (employees w)
     /\ redis (snd r) !! ("employee:" +:+ "e1") = None
     /\ redis (snd r) !! k = Some first_page_of_john
     /\ (forall f pg s,
           cacheKey f pg s = k ->
           EmployeeService.getEmployees f pg s (snd r)
           = (Ok first_page_of_john, logged [RedisGet k] (snd r))).
Proof.
  intros w k.
  assert (redis w !! k = Some first_page_of_john) as Hk
    by (vm_compute; reflexivity).
  split.
  - repeat split; try done; vm_compute; reflexivity.
  - apply (attendance_keeps_list_cache w "e1" present_today john k
             first_page_of_john);
      [split; reflexivity | reflexivity | reflexivity
      | vm_compute; reflexivity | done].
Defined.

Lemma list_does_not_validate_witness :
  let pg := Some {| input_page := Some 1; input_limit := Some 1000 |} in
  let w := world_of [john] in
  (1 <= page_of pg /\ 1 <= limit_of pg
   /\ cache_misses w (cacheKey empty_filter pg None))
  /\ exists items n,
       fst (EmployeeService.getEmployees empty_filter pg None w)
       = Ok (JConnection
               (EmployeeService.envelope items n (page_of pg) (limit_of pg)))
       /\ DbFind (EmployeeService.build_query empty_filter)
            ((page_of pg - 1) * limit_of pg) (limit_of pg)
          ∈ trace (snd (EmployeeService.getEmployees empty_filter pg None w)).
Proof.
  intros pg w.
  assert (cache_misses w (cacheKey empty_filter pg None)) as Hmiss
    by (right; apply lookup_empty).
  split.
  - repeat split; try done; vm_compute; discriminate.
  - destruct (list_does_not_validate w empty_filter pg None)
      as (_ & _ & _ & Hserved).
    apply Hserved; [vm_compute; discriminate | vm_compute; discriminate | done].
Defined.

Lemma page_envelope_invariant_witness :
  let w := world_of [john; jane] in
  let pg := Some {| input_page := Some 2; input_limit := Some 1 |} in
  (1 <= page_of pg /\ 1 <= limit_of pg /\ list_cache_ok w)
  /\ (exists r,
        fst (EmployeeService.getEmployees empty_filter pg None w)
        = Ok (JConnection r)
        /\ envelope_ok 2 1 (pagination r)
        /\ (forall v,
              cache_available w ->
              redis w !! cacheKey empty_filter pg None = Some v ->
              v = JConnection r)
        /\ (cache_misses w (cacheKey empty_filter pg None) ->
            r = store_page empty_filter pg None (employees w)
            /\ total (pagination r)
               = Z.of_nat (length (selected empty_filter (employees w)))))
  /\ list_cache_ok (snd (EmployeeService.getEmployees empty_filter pg None w))
  /\ (exists r,
        fst (EmployeeService.searchEmployees "Jane" pg w) = Ok r
        /\ envelope_ok 2 1 (pagination r)
        /\ total (pagination r)
           = Z.of_nat
               (length
                  (filter (fun e => (text_search "Jane" e && isActive e) = true)
                     (employees w)))).
Proof.
  intros w pg.
  assert (list_cache_ok w) as Hok by by apply empty_cache_holds.
  split; [done |].
  by apply (page_envelope_invariant w empty_filter pg None "Jane").
Defined.

Lemma member_update_restricted_witness :
  let w := world_of [john; jane] in
  (role (member_user (Some "e2")) = EMPLOYEE
   /\ exists key, key ∈ Object_keys (rename_to "Janet")
                  /\ key ∉ employeeResolver.allowedFields)
  /\ employeeResolver.updateEmployee "e2" (rename_to "Janet")
       (member (Some "e2")) w
     = (Throw (GraphQLError allowed_fields_message "FORBIDDEN"), w).
Proof.
  intros w.
  assert (exists key, key ∈ Object_keys (rename_to "Janet")
                      /\ key ∉ employeeResolver.allowedFields) as Hkey.
  { exists "name". split; [apply list_elem_of_here |].
    unfold employeeResolver.allowedFields.
    apply not_elem_of_cons. split; [done |].
    apply not_elem_of_cons. split; [done |]. apply not_elem_of_nil. }
  split; [done |].
  destruct (member_update_restricted w (member_user (Some "e2")) "e2"
              (rename_to "Janet")) as [Hmember _].
  exact (Hmember eq_refl Hkey).
Defined.

Lemma create_duplicate_email_rejected_witness :
  let w := world_of [john; jane] in
  (jane ∈ employees w /\ email jane = new_email jane_input)
  /\ EmployeeService.createEmployee jane_input "u0" w
     = (Throw (GraphQLError "Employee with this email already exists"
                 "DUPLICATE_EMAIL"),
        logged [DbFindOne (new_email jane_input) None] w).
Proof.
  intros w.
  assert (jane ∈ employees w) as Hin
    by apply list_elem_of_further, list_elem_of_here.
  split; [done |].
  by apply (create_duplicate_email_rejected w jane_input "u0" jane).
Defined.

Lemma active_flag_visibility_witness :
  let w := world_of [jane] in
  let w' := snd (EmployeeService.deleteEmployee "e2" w) in
  (list_cache_flags w /\ employees w = [jane] /\ isActive jane = true)
  /\ (exists r,
        fst (EmployeeService.getEmployees empty_filter None None w)
        = Ok (JConnection r)
        /\ Forall (fun e => isActive e = true) (data r))
  /\ fst (EmployeeService.deleteEmployee "e2" w) = Ok true
  /\ (exists r,
        fst (EmployeeService.getEmployees empty_filter None None w')
        = Ok (JConnection r)
        /\ total (pagination r) = 0)
  /\ (exists r,
        fst (EmployeeService.getEmployees inactive_filter None None w')
        = Ok (JConnection r)
        /\ total (pagination r) = 1).
Proof.
  intros w w'.
  assert (list_cache_flags w) as Hflags by by apply empty_cache_holds.
  split; [done |].
  destruct (@active_flag_visibility reference_platform) as [Hlist Hflip].
  split.
  - destruct (Hlist w empty_filter None None Hflags) as (r & Hr & Hactive & _);
      [done | done |].
    exists r. split; [done |]. by apply Hactive.
  - exact (Hflip w jane None eq_refl eq_refl).
Defined.

Lemma cache_failure_never_surfaces_witness :
  let w := world_without_cache [john] in
  cache_unavailable w
  /\ (forall f pg s,
        exists evs,
          EmployeeService.getEmployees f pg s w
          = (fst (direct_getEmployees f pg s w), logged evs w))
  /\ (forall id,
        exists evs,
          EmployeeService.getEmployeeById id w
          = (fst (direct_getEmployeeById id w), logged evs w)).
Proof.
  intros w.
  assert (cache_unavailable w) as Hw by (left; reflexivity).
  split; [done |].
  destruct (cache_failure_never_surfaces w Hw) as (_ & _ & _ & _ & Hlist & Hone).
  done.
Defined.


(** ** Further properties: reads through the cache *)

Section CacheRoundTrips.
Context `{Platform}.

(** [set] returns normally; the value is stored unless Redis refuses
    the expiry. *)
Lemma set_available_any w k v ttl :
  cache_available w ->
  exists evs,
    CacheService.set k v ttl w
    = (Ok tt,
       with_redis (if ttl_accepted ttl then <[k := v]> (redis w)
                   else redis w)
         (logged evs w)).
Proof.
  open_world w. intros [-> ->].
  unfold CacheService.set, client_set, client_setex, client_command,
    ttl_accepted.
  destruct ttl as [t |]; [destruct (t =? 0) eqn:Hz |]; run.
  - apply Z.eqb_eq in Hz as ->. simpl.
    unfold with_redis, logged; simpl; eauto.
  - apply Z.eqb_neq in Hz.
    destruct (t <=? 0) eqn:Hneg; simpl.
    + assert ((0 <=? t) = false) as -> by lia.
      eexists. unfold with_redis, logged. simpl.
      rewrite <- ?app_assoc. simpl. reflexivity.
    + assert ((0 <=? t) = true) as -> by lia.
      unfold with_redis, logged; simpl; eauto.
  - unfold with_redis, logged; simpl; eauto.
Qed.

End CacheRoundTrips.


Lemma plain_text_literal p : plain_text p = true -> literal p = true.
Proof.
  unfold plain_text. by intros [[Hl _]%andb_prop _]%andb_prop.
Qed.

(** X2. For a pattern made of a prefix that Redis reads character by
    character, followed by [*], [deletePattern] removes the keys that
    start with the prefix and no other: afterwards a key is found exactly
    when it was found before and does not start with the prefix.  (Cache
    reachable.) *)
Theorem deletePattern_removes_matches `{Platform}
  (w : World) (prefix k : string) :
  cache_available w ->
  plain_text prefix = true ->
  let w' := snd (CacheService.deletePattern (prefix +:+ "*") w) in
  fst (CacheService.deletePattern (prefix +:+ "*") w) = Ok tt
  /\ fst (CacheService.get k w')
     = Ok (if String.prefix prefix k then None else redis w !! k)
  /\ employees w' = employees w.
Proof.
  intros Hw Hplain w'. subst w'.
  destruct (deletePattern_available w (prefix +:+ "*") Hw) as [evs ->]. simpl.
  rewrite get_available by done. simpl. rewrite lookup_evicted.
  by rewrite glob_literal_star by by apply plain_text_literal.
Qed.

Section ReadThrough.
Context `{Platform}.

Lemma getEmployeeById_available_miss w id :
  cache_available w -> redis w !! ("employee:" +:+ id) = None ->
  EmployeeService.getEmployeeById id w
  = match List.find (has_id id) (employees w) with
    | Some e =>
        (Ok (Some (JEmployee e)),
         with_redis (<["employee:" +:+ id := JEmployee e]> (redis w))
           (logged [RedisGet ("employee:" +:+ id); DbFindById id;
                    RedisSetex ("employee:" +:+ id) 300] w))
    | None =>
        (if casts_to_ObjectId id then Ok None else Throw MongooseCastError,
         logged [RedisGet ("employee:" +:+ id); DbFindById id] w)
    end.
Proof.
  intros Hw Hk. unfold EmployeeService.getEmployeeById, bind.
  rewrite get_available by done. rewrite Hk.
  rewrite findById_eq. simpl.
  destruct (List.find (has_id id) (employees w)) as [e |] eqn:Hfind; simpl.
  2: { rewrite (casts_absent _ _ Hfind).
       destruct (casts_to_ObjectId id); unfold ret; simpl;
         by rewrite logged_logged. }
  rewrite (casts_held _ _ _ Hfind). simpl.
  unfold bind. rewrite set_available; [| done | done].
  unfold ret. simpl redis. by rewrite !logged_logged.
Qed.

Lemma getEmployeeById_hit w id v :
  cache_available w -> redis w !! ("employee:" +:+ id) = Some v ->
  EmployeeService.getEmployeeById id w
  = (Ok (Some v), logged [RedisGet ("employee:" +:+ id)] w).
Proof.
  intros Hw Hk. unfold EmployeeService.getEmployeeById, bind.
  rewrite get_available by done. by rewrite Hk.
Qed.

Lemma json_number_fin r n :
  pages (pagination r) = Fin n -> JSON_roundtrip r = r.
Proof.
  destruct r as [d [t p l ps hn hp]]. simpl. intros ->. done.
Qed.

Lemma store_page_pages f pg s docs :
  limit_of pg <> 0 ->
  exists n, pages (pagination (store_page f pg s docs)) = Fin n.
Proof.
  intros Hl. unfold store_page, EmployeeService.envelope, Math_ceil_div.
  simpl. apply Z.eqb_neq in Hl. rewrite Hl. eauto.
Qed.

End ReadThrough.

(** X3. A record read that misses the cache takes the record from the
    store and writes it under ["employee:<id>"] for 300 seconds; the next
    read of the same id is answered by that entry with one cache read and
    no store query. *)
Theorem record_read_through `{Platform} (w : World) (id : string) (e : IEmployee) :
  cache_available w ->
  redis w !! ("employee:" +:+ id) = None ->
  List.find (has_id id) (employees w) = Some e ->
  let r1 := EmployeeService.getEmployeeById id w in
  let r2 := EmployeeService.getEmployeeById id (snd r1) in
  fst r1 = Ok (Some (JEmployee e))
  /\ trace (snd r1)
     = trace w ++ [RedisGet ("employee:" +:+ id); DbFindById id;
                   RedisSetex ("employee:" +:+ id) 300]
  /\ redis (snd r1) = <["employee:" +:+ id := JEmployee e]> (redis w)
  /\ fst r2 = fst r1
  /\ snd r2 = logged [RedisGet ("employee:" +:+ id)] (snd r1).
Proof.
  intros Hw Hk He r1 r2. subst r2 r1.
  rewrite (getEmployeeById_available_miss w id Hw Hk), He.
  cbn [fst snd].
  rewrite (getEmployeeById_hit _ id (JEmployee e));
    [done | done | by simplify_map_eq].
Qed.


(** X5. A list call with a limit other than 0, repeated while the cache is
    reachable, is answered the second time from the cache, with one
    cache read and no store query, and the records and the envelope of
    that answer are those of the first. *)
Theorem list_read_repeats `{Platform} (w : World) (f : IEmployeeFilter)
  (pg : option IPaginationInput) (s : option ISortInput) :
  cache_available w ->
  0 <= (page_of pg - 1) * limit_of pg ->
  limit_of pg <> 0 ->
  let r1 := EmployeeService.getEmployees f pg s w in
  let r2 := EmployeeService.getEmployees f pg s (snd r1) in
  (exists v, fst r1 = Ok v)
  /\ fst r2 = fst r1
  /\ snd r2 = logged [RedisGet (cacheKey f pg s)] (snd r1).
Proof.
  intros Hw Hskip Hlim r1 r2. subst r2 r1.
  destruct (redis w !! cacheKey f pg s) as [v |] eqn:Hk.
  - rewrite (getEmployees_hit f pg s w v Hw Hk). cbn [fst snd].
    rewrite (getEmployees_hit f pg s _ v); [eauto | done | done].
  - destruct (getEmployees_available_miss f pg s w Hw Hk) as [evs ->].
    rewrite direct_getEmployees_fst.
    apply Z.ltb_ge in Hskip. rewrite Hskip. cbn [fst snd].
    destruct (store_page_pages f pg s (employees w) Hlim) as [n Hn].
    rewrite (json_number_fin _ n Hn).
    rewrite (getEmployees_hit f pg s _
               (JConnection (store_page f pg s (employees w))));
      [eauto | done | by simplify_map_eq].
Qed.

(** X6. With a limit of 0 the code divides by zero: a list call that
    misses the cache and selects at least one record answers with every
    selected record, [pages] infinite and [hasNextPage] true, while the
    entry it writes, and so the answer of the next identical call, has
    [pages] null. *)
Theorem zero_limit_answer_changes `{Platform} (w : World) (f : IEmployeeFilter)
  (pg : option IPaginationInput) (s : option ISortInput) :
  cache_available w ->
  redis w !! cacheKey f pg s = None ->
  limit_of pg = 0 ->
  selected f (employees w) <> [] ->
  let r1 := EmployeeService.getEmployees f pg s w in
  let r2 := EmployeeService.getEmployees f pg s (snd r1) in
  exists a b,
    fst r1 = Ok (JConnection a) /\ fst r2 = Ok (JConnection b)
    /\ pages (pagination a) = PosInf
    /\ hasNextPage (pagination a) = true
    /\ data a ≡ₚ selected f (employees w)
    /\ pages (pagination b) = Null
    /\ data b = data a.
Proof.
  intros Hw Hk Hlim Hsel r1 r2. subst r2 r1.
  destruct (getEmployees_available_miss f pg s w Hw Hk) as [evs ->].
  rewrite direct_getEmployees_fst. rewrite Hlim, Z.mul_0_r. cbn [fst snd].
  simpl (0 <? 0).  cbv iota.
  rewrite (getEmployees_hit f pg s _
             (JConnection (JSON_roundtrip (store_page f pg s (employees w)))));
    [| done | by simplify_map_eq].
  exists (store_page f pg s (employees w)),
         (JSON_roundtrip (store_page f pg s (employees w))).
  assert (0 < Z.of_nat (length (selected f (employees w)))) as Hpos.
  { destruct (selected f (employees w)); [done | simpl; lia]. }
  unfold store_page, EmployeeService.envelope, Math_ceil_div, page_slice.
  rewrite Hlim, Z.mul_0_r. simpl.
  apply Z.ltb_lt in Hpos as Hpos'. rewrite Hpos'.
  destruct (Z.of_nat (length (selected f (employees w))) =? 0) eqn:Hz;
    [apply Z.eqb_eq in Hz; lia |].
  simpl. repeat split; try done. apply sort_docs_perm.
Qed.

(** ** Further properties: what the operations do to the collection *)

Section StoreUntouched.
Context `{Platform}.

Lemma get_keeps_store k w :
  employees (snd (CacheService.get k w)) = employees w.
Proof.
  destruct (available_or_not w) as [Hw | Hw].
  - by rewrite get_available.
  - by destruct (get_unavailable w k Hw) as [evs ->].
Qed.

Lemma set_keeps_store k v ttl w :
  employees (snd (CacheService.set k v ttl w)) = employees w.
Proof.
  destruct (available_or_not w) as [Hw | Hw].
  - by destruct (set_available_any w k v ttl Hw) as [evs ->].
  - by destruct (set_unavailable w k v ttl Hw) as [evs ->].
Qed.

Lemma delete_keeps_store k w :
  employees (snd (CacheService.delete k w)) = employees w.
Proof.
  destruct (available_or_not w) as [Hw | Hw].
  - by rewrite delete_available.
  - by destruct (delete_unavailable w k Hw) as [evs ->].
Qed.

Lemma deletePattern_keeps_store p w :
  employees (snd (CacheService.deletePattern p w)) = employees w.
Proof.
  destruct (available_or_not w) as [Hw | Hw].
  - by destruct (deletePattern_available w p Hw) as [evs ->].
  - by destruct (deletePattern_unavailable w p Hw) as [evs ->].
Qed.

Context (Q : list IEmployee -> Prop).

Lemma store_same {A} (m : M A) :
  (forall w, employees (snd (m w)) = employees w) ->
  preserves (on_store Q) m.
Proof. intros Hm w Hw. unfold on_store. by rewrite Hm. Qed.

Lemma store_get k : preserves (on_store Q) (CacheService.get k).
Proof. apply store_same, get_keeps_store. Qed.

Lemma store_set k v ttl : preserves (on_store Q) (CacheService.set k v ttl).
Proof. apply store_same, set_keeps_store. Qed.

Lemma store_delete k : preserves (on_store Q) (CacheService.delete k).
Proof. apply store_same, delete_keeps_store. Qed.

Lemma store_deletePattern p :
  preserves (on_store Q) (CacheService.deletePattern p).
Proof. apply store_same, deletePattern_keeps_store. Qed.

Lemma store_emit ev : preserves (on_store Q) (emit ev).
Proof. by intros w Hw. Qed.

Lemma store_gets {A} (f : World -> A) : preserves (on_store Q) (gets f).
Proof. by intros w Hw. Qed.

Lemma store_fresh_oid : preserves (on_store Q) fresh_oid.
Proof. by intros w Hw. Qed.

Lemma store_find q sf so sk lim :
  preserves (on_store Q) (Employee.find q sf so sk lim).
Proof.
  apply store_same. intros w. unfold Employee.find. run.
  by destruct (sk <? 0).
Qed.

Lemma store_textFind q sk lim :
  preserves (on_store Q) (Employee.textFind q sk lim).
Proof.
  apply store_same. intros w. unfold Employee.textFind. run.
  by destruct (sk <? 0).
Qed.

Lemma store_invalidate ids :
  preserves (on_store Q)
    (Promise_all_
       (map (fun id => CacheService.delete ("employee:" +:+ id)) ids
        ++ [CacheService.deletePattern "employees:*"])).
Proof.
  apply preserves_all, Forall_app. split.
  - apply Forall_forall. intros m Hm. apply list_elem_of_fmap in Hm.
    destruct Hm as (id & -> & _). apply store_delete.
  - repeat constructor. apply store_deletePattern.
Qed.

End StoreUntouched.

Lemma preserves_bind_with {A B} (P : World -> Prop) (S : A -> Prop)
  (m : M A) (k : A -> M B) :
  preserves P m -> (forall w a, fst (m w) = Ok a -> S a) ->
  (forall a, S a -> preserves P (k a)) -> preserves P (bind m k).
Proof.
  intros Hm HS Hk w Hw. unfold bind. specialize (Hm w Hw).
  specialize (HS w). destruct (m w) as [[a | e] w']; simpl in *; [| done].
  apply Hk; [by apply HS | done].
Qed.

Ltac store_step :=
  first
    [ preserve_step
    | apply store_get | apply store_set | apply store_delete
    | apply store_deletePattern | apply store_emit | apply store_gets
    | apply store_fresh_oid | apply store_find | apply store_textFind
    | apply (store_invalidate _ [_]) | apply store_invalidate ].

Section StoreSteps.
Context `{Platform} (R : list IEmployee -> list IEmployee -> Prop).
Hypothesis R_trans : forall a b c, R a b -> R b c -> R a c.
Hypothesis R_set : forall id input t docs e,
  List.find (has_id id) docs = Some e ->
  set_breaks_unique_email input id docs = false ->
  R docs (update_first id (apply_set input t) docs).
Hypothesis R_push : forall id a t docs,
  R docs (update_first id (apply_push a t) docs).
Hypothesis R_many : forall ids input t docs,
  R docs (snd (update_many ids input t [] docs)).
Context (docs0 : list IEmployee).

Lemma steps_getEmployees f pg s :
  preserves (on_store (R docs0)) (EmployeeService.getEmployees f pg s).
Proof.
  unfold EmployeeService.getEmployees, Employee.countDocuments.
  repeat store_step.
Qed.

Lemma steps_getEmployeeById id :
  preserves (on_store (R docs0)) (EmployeeService.getEmployeeById id).
Proof.
  unfold EmployeeService.getEmployeeById, Employee.findById.
  repeat store_step.
Qed.

Lemma steps_searchEmployees q pg :
  preserves (on_store (R docs0)) (EmployeeService.searchEmployees q pg).
Proof.
  unfold EmployeeService.searchEmployees, Employee.textCount.
  repeat store_step.
Qed.

Lemma steps_getEmployeeStats :
  preserves (on_store (R docs0)) EmployeeService.getEmployeeStats.
Proof.
  unfold EmployeeService.getEmployeeStats, Employee.countAll,
    Employee.countActive, Employee.aggregate.
  repeat store_step.
Qed.

Lemma steps_update_set id input rv :
  preserves (on_store (R docs0))
    (Employee.findByIdAndUpdate_set id input rv).
Proof.
  intros w Hw. unfold Employee.findByIdAndUpdate_set. run.
  destruct (negb (casts id (employees w))); [done |].
  destruct (rv && negb (validate_set input)); [done |]. simpl.
  destruct (List.find (has_id id) (employees w)) as [e |] eqn:He;
    [| done].
  destruct (set_breaks_unique_email input id (employees w)) eqn:Hu;
    [done |].
  simpl. unfold on_store in *. simpl. eauto.
Qed.

Lemma steps_update_push id a :
  preserves (on_store (R docs0)) (Employee.findByIdAndUpdate_push id a).
Proof.
  intros w Hw. unfold Employee.findByIdAndUpdate_push. run.
  destruct (negb (casts id (employees w))); [done |].
  destruct (negb (validate_push a)); [done |]. simpl.
  destruct (List.find (has_id id) (employees w)) as [e |] eqn:He;
    [| done].
  simpl. unfold on_store in *. simpl. eauto.
Qed.

Lemma steps_updateMany ids input :
  preserves (on_store (R docs0)) (Employee.updateMany ids input).
Proof.
  intros w Hw. unfold Employee.updateMany. run.
  destruct (negb (forallb _ ids)); [done |]. simpl.
  pose proof (R_many ids input (now w) (employees w)) as Hmany.
  destruct (update_many ids input (now w) [] (employees w)) as [ok docs'].
  simpl in Hmany. unfold on_store in *.
  destruct ok; simpl; eauto.
Qed.

Lemma steps_updateEmployee id input :
  preserves (on_store (R docs0)) (EmployeeService.updateEmployee id input).
Proof.
  unfold EmployeeService.updateEmployee, Employee.findOne.
  apply preserves_bind; [repeat store_step | intros _].
  apply preserves_bind; [apply steps_update_set | intros r].
  repeat store_step.
Qed.

Lemma steps_deleteEmployee id :
  preserves (on_store (R docs0)) (EmployeeService.deleteEmployee id).
Proof.
  unfold EmployeeService.deleteEmployee.
  apply preserves_bind; [apply steps_update_set | intros r].
  repeat store_step.
Qed.

Lemma steps_markAttendance id a :
  preserves (on_store (R docs0)) (EmployeeService.markAttendance id a).
Proof.
  unfold EmployeeService.markAttendance.
  apply preserves_bind; [apply steps_update_push | intros r].
  repeat store_step.
Qed.

Lemma steps_bulkUpdateEmployees ids input :
  preserves (on_store (R docs0))
    (EmployeeService.bulkUpdateEmployees ids input).
Proof.
  unfold EmployeeService.bulkUpdateEmployees, Employee.findByIds.
  apply preserves_bind; [apply steps_updateMany | intros _].
  repeat store_step.
Qed.

Lemma steps_save doc :
  employeeId doc = "" ->
  preserves (on_store (R docs0)) (Employee.save doc).
Proof. intros Hcode w Hw. by rewrite save_without_code. Qed.

Lemma steps_createEmployee input createdBy :
  preserves (on_store (R docs0))
    (EmployeeService.createEmployee input createdBy).
Proof.
  unfold EmployeeService.createEmployee, Employee.findOne.
  apply preserves_bind; [repeat store_step | intros existing].
  destruct existing; [apply preserves_throw |].
  apply (preserves_bind_with _ (fun doc => employeeId doc = "")).
  - unfold EmployeeService.new_Employee. repeat store_step.
  - intros w doc. unfold EmployeeService.new_Employee. run.
    by intros [= <-].
  - intros doc Hcode.
    apply preserves_bind; [by apply steps_save | intros].
    repeat store_step.
Qed.

End StoreSteps.

(** *** Nothing is removed *)

Lemma later_state_refl d : later_state d d.
Proof. by repeat split. Qed.

Lemma later_state_trans a b c :
  later_state a b -> later_state b c -> later_state a c.
Proof.
  intros (? & ? & ? & ? & ? & ?) (? & ? & ? & ? & ? & ?).
  repeat split; try congruence. by etrans.
Qed.

Lemma later_state_set `{Platform} input t d :
  later_state d (apply_set input t d).
Proof. by repeat split. Qed.

Lemma later_state_push a t d : later_state d (apply_push a t d).
Proof. repeat split; try done. simpl. by apply prefix_app_r. Qed.

Lemma Forall2_later_refl docs : Forall2 later_state docs docs.
Proof. induction docs; constructor; [apply later_state_refl | done]. Qed.

Lemma grows_from_refl docs : grows_from docs docs.
Proof.
  exists docs, []. split; [by rewrite app_nil_r | apply Forall2_later_refl].
Qed.

Lemma grows_from_trans a b c :
  grows_from a b -> grows_from b c -> grows_from a c.
Proof.
  intros (u1 & n1 & -> & H1) (u2 & n2 & -> & H2).
  apply Forall2_app_inv_l in H2 as (u2a & u2b & Ha & Hb & ->).
  exists u2a, (u2b ++ n2). split; [by rewrite app_assoc |].
  clear Hb. revert u2a Ha.
  induction H1 as [| x y l l' Hxy _ IH]; intros u2a Ha.
  - inversion Ha. constructor.
  - inversion Ha as [| ? z ? l'' Hyz Hrest]; subst.
    constructor; [by eapply later_state_trans | by apply IH].
Qed.

Lemma update_first_later id (g : IEmployee -> IEmployee) docs :
  (forall d, later_state d (g d)) ->
  Forall2 later_state docs (update_first id g docs).
Proof.
  intros Hg. induction docs as [| e rest IH]; simpl; [constructor |].
  destruct (has_id id e); constructor;
    [apply Hg | apply Forall2_later_refl | apply later_state_refl | done].
Qed.

Lemma update_many_later `{Platform} ids input t before0 before after :
  Forall2 later_state before0 before ->
  Forall2 later_state (before0 ++ after)
    (snd (update_many ids input t before after)).
Proof.
  revert before0 before.
  induction after as [| e rest IH]; intros before0 before Hb; simpl.
  - by rewrite app_nil_r.
  - destruct (bool_decide (_id e ∈ ids)).
    + destruct (match set_email input with
                | Some mail => email_in (email_setters mail) (before ++ rest)
                | None => false
                end).
      * simpl. apply Forall2_app; [done | apply Forall2_later_refl].
      * rewrite (cons_middle e before0 rest), app_assoc. apply IH.
        apply Forall2_app; [done |].
        constructor; [apply later_state_set | constructor].
    + rewrite (cons_middle e before0 rest), app_assoc. apply IH.
      apply Forall2_app; [done |].
      constructor; [apply later_state_refl | constructor].
Qed.

(** X7. No service operation removes a document or an attendance entry,
    and none changes a document's [_id], [employeeId], [createdBy],
    [createdAt] or [joiningDate]: after any of the five writes the
    collection holds a later state of every earlier document at the same
    position, followed by what was inserted. *)
Theorem writes_keep_history `{Platform} (w : World) :
  (forall input createdBy,
      grows_from (employees w)
        (employees (snd (EmployeeService.createEmployee input createdBy w))))
  /\ (forall id input,
        grows_from (employees w)
          (employees (snd (EmployeeService.updateEmployee id input w))))
  /\ (forall id,
        grows_from (employees w)
          (employees (snd (EmployeeService.deleteEmployee id w))))
  /\ (forall id a,
        grows_from (employees w)
          (employees (snd (EmployeeService.markAttendance id a w))))
  /\ (forall ids input,
        grows_from (employees w)
          (employees (snd (EmployeeService.bulkUpdateEmployees ids input w)))).
Proof.
  assert (forall id input t docs (e : IEmployee),
             List.find (has_id id) docs = Some e ->
             set_breaks_unique_email input id docs = false ->
             grows_from docs (update_first id (apply_set input t) docs))
    as Hset.
  { intros id input t docs e _ _. exists (update_first id (apply_set input t) docs), [].
    split; [by rewrite app_nil_r |].
    apply update_first_later, later_state_set. }
  assert (forall id a t docs,
             grows_from docs (update_first id (apply_push a t) docs))
    as Hpush.
  { intros id a t docs. exists (update_first id (apply_push a t) docs), [].
    split; [by rewrite app_nil_r |].
    apply update_first_later, later_state_push. }
  assert (forall ids input t docs,
             grows_from docs (snd (update_many ids input t [] docs)))
    as Hmany.
  { intros ids input t docs.
    exists (snd (update_many ids input t [] docs)), [].
    split; [by rewrite app_nil_r |].
    apply (update_many_later ids input t [] [] docs). constructor. }
  pose proof (grows_from_refl (employees w)) as Hrefl.
  repeat split; intros.
  - by apply (steps_createEmployee grows_from).
  - by apply (steps_updateEmployee grows_from grows_from_trans Hset).
  - by apply (steps_deleteEmployee grows_from grows_from_trans Hset).
  - by apply (steps_markAttendance grows_from grows_from_trans Hpush).
  - by apply (steps_bulkUpdateEmployees grows_from grows_from_trans Hmany).
Qed.

(** X8. The four reads never change the collection, and the search and
    the statistics do not touch the cache either. *)
Theorem reads_leave_the_store `{Platform} (w : World) :
  (forall f pg s,
      employees (snd (EmployeeService.getEmployees f pg s w)) = employees w)
  /\ (forall id,
        employees (snd (EmployeeService.getEmployeeById id w)) = employees w)
  /\ (forall q pg,
        exists skip lim,
          snd (EmployeeService.searchEmployees q pg w)
          = logged [DbTextFind q skip lim; DbTextCount q] w)
  /\ (exists evs,
        snd (EmployeeService.getEmployeeStats w) = logged evs w).
Proof.
  repeat split; intros.
  - symmetry. by apply (steps_getEmployees eq (employees w) f pg s w).
  - symmetry. by apply (steps_getEmployeeById eq (employees w) id w).
  - unfold EmployeeService.searchEmployees, Employee.textFind,
      Employee.textCount, Promise_all2. run.
    do 2 eexists. destruct (_ <? 0); simpl;
      unfold logged; simpl; rewrite <- ?app_assoc; simpl; reflexivity.
  - unfold EmployeeService.getEmployeeStats, Employee.countAll,
      Employee.countActive, Employee.aggregate. run. by_logged.
Qed.

(** *** Addresses stay unique *)

Lemma email_in_spec mail docs :
  email_in mail docs = false <-> mail ∉ map email docs.
Proof.
  split.
  - intros Hf Hin. change (map email docs) with (email <$> docs) in Hin.
    apply list_elem_of_fmap in Hin as (x & -> & Hx).
    apply list_elem_of_In in Hx.
    assert (email_in (email x) docs = true) as Ht; [| congruence].
    apply existsb_exists. exists x. split; [done | apply String.eqb_refl].
  - intros Hnot. apply email_in_false. intros x Hx <-. apply Hnot.
    change (map email docs) with (email <$> docs).
    by apply list_elem_of_fmap_2.
Qed.

Lemma update_first_emails `{Platform} id input t docs x :
  x ∈ map email (update_first id (apply_set input t) docs) ->
  x ∈ map email docs
  \/ exists mail, set_email input = Some mail /\ x = email_setters mail.
Proof.
  induction docs as [| e rest IH]; simpl; [by left |].
  destruct (has_id id e); simpl.
  - intros [-> | Hx]%elem_of_cons.
    + destruct (set_email input); simpl; [right; eauto | left; by left].
    + left. by right.
  - intros [-> | Hx]%elem_of_cons; [left; by left |].
    destruct (IH Hx) as [Hin | Hset]; [left; by right | by right].
Qed.

Lemma update_first_unique `{Platform} id input t docs :
  set_breaks_unique_email input id docs = false ->
  unique_emails docs ->
  unique_emails (update_first id (apply_set input t) docs).
Proof.
  unfold unique_emails, set_breaks_unique_email.
  induction docs as [| e rest IH]; simpl; [done |].
  intros Hfree [Hhead Hrest]%NoDup_cons.
  destruct (has_id id e); simpl.
  - apply NoDup_cons. split; [| done].
    destruct (set_email input) as [mail |]; simpl; [| done].
    by apply email_in_spec.
  - apply NoDup_cons. split.
    + intros [Hin | (mail & Hset & Heq)]%update_first_emails; [done |].
      rewrite Hset in Hfree. simpl in Hfree. rewrite <- Heq in Hfree.
      apply orb_false_elim in Hfree as [Hne _].
      by rewrite String.eqb_refl in Hne.
    + apply IH; [| done].
      destruct (set_email input) as [mail |]; [| done].
      simpl in Hfree. by apply orb_false_elim in Hfree as [_ ?].
Qed.

Lemma update_first_push_emails id a t docs :
  map email (update_first id (apply_push a t) docs) = map email docs.
Proof.
  induction docs as [| e rest IH]; simpl; [done |].
  destruct (has_id id e); simpl; [done | by rewrite IH].
Qed.

Lemma update_many_unique `{Platform} ids input t before after :
  unique_emails (before ++ after) ->
  unique_emails (snd (update_many ids input t before after)).
Proof.
  unfold unique_emails. revert before.
  induction after as [| e rest IH]; intros before Hnd; simpl.
  - by rewrite app_nil_r in Hnd.
  - destruct (bool_decide (_id e ∈ ids)).
    + destruct (set_email input) as [mail |] eqn:Hmail.
      * destruct (email_in (email_setters mail) (before ++ rest)) eqn:Hin;
          [done |].
        apply IH. rewrite <- app_assoc. simpl.
        apply email_in_spec in Hin.
        rewrite map_app in *. simpl in *. rewrite Hmail. simpl.
        apply NoDup_app in Hnd as (Hb & Hdisj & [_ Hr]%NoDup_cons).
        apply NoDup_app. split; [done |]. split.
        -- intros x Hx [-> | Hx']%elem_of_cons.
           ++ apply Hin. apply elem_of_app. by left.
           ++ apply (Hdisj x Hx). by right.
        -- apply NoDup_cons. split; [| done].
           intros Hx. apply Hin. apply elem_of_app. by right.
      * apply IH. rewrite <- app_assoc. simpl.
        rewrite map_app in *. simpl in *. by rewrite Hmail.
    + apply IH. by rewrite <- app_assoc.
Qed.

(** X9. The addresses of the collection stay pairwise different under
    every write of the service, whether the write succeeds or fails: the
    inserts and the [$set] updates are refused by the unique index when
    they would repeat an address. *)
Theorem emails_stay_unique `{Platform} (w : World) :
  unique_emails (employees w) ->
  (forall input createdBy,
      unique_emails
        (employees (snd (EmployeeService.createEmployee input createdBy w))))
  /\ (forall id input,
        unique_emails
          (employees (snd (EmployeeService.updateEmployee id input w))))
  /\ (forall id,
        unique_emails (employees (snd (EmployeeService.deleteEmployee id w))))
  /\ (forall id a,
        unique_emails
          (employees (snd (EmployeeService.markAttendance id a w))))
  /\ (forall ids input,
        unique_emails
          (employees
             (snd (EmployeeService.bulkUpdateEmployees ids input w)))).
Proof.
  intros Hw.
  set (R := fun a b : list IEmployee => unique_emails a -> unique_emails b).
  assert (forall a b c, R a b -> R b c -> R a c) as Htrans
    by (unfold R; auto).
  assert (forall id input t docs (e : IEmployee),
             List.find (has_id id) docs = Some e ->
             set_breaks_unique_email input id docs = false ->
             R docs (update_first id (apply_set input t) docs)) as Hset.
  { intros id input t docs e _ Hfree Hd. by apply update_first_unique. }
  assert (forall id a t docs,
             R docs (update_first id (apply_push a t) docs)) as Hpush.
  { intros id a t docs. unfold R, unique_emails.
    by rewrite update_first_push_emails. }
  assert (forall ids input t docs,
             R docs (snd (update_many ids input t [] docs))) as Hmany.
  { intros ids input t docs Hd. by apply update_many_unique. }
  assert (R (employees w) (employees w)) as Hrefl by (by intros ?).
  repeat split; intros.
  - by apply (steps_createEmployee R (employees w) _ _ w).
  - by apply (steps_updateEmployee R Htrans Hset (employees w) _ _ w).
  - by apply (steps_deleteEmployee R Htrans Hset (employees w) _ w).
  - by apply (steps_markAttendance R Htrans Hpush (employees w) _ _ w).
  - by apply (steps_bulkUpdateEmployees R Htrans Hmany (employees w) _ _ w).
Qed.

(** *** Employee codes *)

Lemma pretty_N_go_head (x : N) (s : string) :
  (0 < x)%N ->
  exists c rest, pretty_N_go x s = String c rest /\ c <> "0"%char.
Proof.
  revert s. induction (N.lt_wf_0 x) as [x _ IH]. intros s Hx.
  rewrite pretty_N_go_step by done.
  destruct (decide (x `div` 10 = 0)%N) as [Hz | Hz].
  - rewrite Hz, pretty_N_go_0. eexists _, _. split; [done |].
    apply N.div_small_iff in Hz; [| done].
    rewrite N.mod_small by done.
    assert (N.to_nat x < 10)%nat as Hlt by lia.
    assert (0 < N.to_nat x)%nat as Hpos by lia.
    rewrite <- (N2Nat.id x).
    destruct (N.to_nat x) as [| [| [| [| [| [| [| [| [| [| n]]]]]]]]]];
      solve [done | lia].
  - apply IH; [apply N.div_lt; lia | by apply N.neq_0_lt_0].
Qed.

Lemma pretty_nat_head (n : nat) :
  exists c rest, pretty (S n) = String c rest /\ c <> "0"%char.
Proof.
  unfold pretty, pretty_nat, pretty, pretty_N.
  destruct (decide (N.of_nat (S n) = 0%N)) as [Hz | Hz]; [lia |].
  apply pretty_N_go_head. lia.
Qed.

Lemma zeros_S (k : nat) :
  String.concat "" (replicate (S k) "0")
  = String "0" (String.concat "" (replicate k "0")).
Proof. by destruct k. Qed.

Lemma zeros_app_inj (k1 k2 : nat) (s1 s2 : string) c1 r1 c2 r2 :
  s1 = String c1 r1 -> c1 <> "0"%char ->
  s2 = String c2 r2 -> c2 <> "0"%char ->
  String.concat "" (replicate k1 "0") +:+ s1
  = String.concat "" (replicate k2 "0") +:+ s2 ->
  s1 = s2.
Proof.
  intros -> H1 -> H2. revert k2.
  induction k1 as [| k1 IH]; intros [| k2]; rewrite ?zeros_S; simpl.
  - done.
  - intros [= -> _]. done.
  - intros [= <- _]. done.
  - intros [= Heq]. by apply (IH k2).
Qed.

Lemma pre_save_employeeId_inj (n m : nat) :
  pre_save_employeeId n = pre_save_employeeId m -> n = m.
Proof.
  unfold pre_save_employeeId, padStart0. simpl. intros [= Heq].
  destruct (pretty_nat_head n) as (c1 & r1 & Hn & Hc1).
  destruct (pretty_nat_head m) as (c2 & r2 & Hm & Hc2).
  replace (n + 1)%nat with (S n) in Heq by lia.
  replace (m + 1)%nat with (S m) in Heq by lia.
  pose proof (zeros_app_inj _ _ _ _ _ _ _ _ Hn Hc1 Hm Hc2 Heq) as Hp.
  apply (inj pretty) in Hp. lia.
Qed.

Lemma codes_later docs docs' :
  Forall2 later_state docs docs' ->
  codes_in_sequence docs -> codes_in_sequence docs'.
Proof.
  intros Hl Hc i d' Hd'.
  destruct (Forall2_lookup_r _ _ _ _ _ Hl Hd') as (d & Hd & Hlater).
  destruct Hlater as (_ & -> & _). by apply Hc.
Qed.

(** X10. The pre-save hook would number the documents in insertion
    order, with codes that are pairwise different; but [save()] validates
    before the hook runs and the document [createEmployee] builds carries
    no code, so [createEmployee] never inserts: it throws DUPLICATE_EMAIL
    when the address is held and the validation error otherwise, and
    leaves the collection as it was.  A collection numbered in insertion
    order has pairwise different codes, and every write keeps the
    numbering. *)
Theorem employee_codes_in_sequence `{Platform} (w : World) :
  codes_in_sequence (employees w) ->
  NoDup (map employeeId (employees w))
  /\ (forall n m, pre_save_employeeId n = pre_save_employeeId m -> n = m)
  /\ (forall input createdBy,
        ((exists e, e ∈ employees w
                    /\ email_setters (email e)
                       = email_setters (new_email input)) ->
         fst (EmployeeService.createEmployee input createdBy w)
         = Throw (GraphQLError "Employee with this email already exists"
                    "DUPLICATE_EMAIL"))
        /\ ((forall e, e ∈ employees w ->
                       email_setters (email e)
                       <> email_setters (new_email input)) ->
            fst (EmployeeService.createEmployee input createdBy w)
            = Throw MongooseValidationError)
        /\ employees (snd (EmployeeService.createEmployee input createdBy w))
           = employees w)
  /\ (forall id input,
        codes_in_sequence
          (employees (snd (EmployeeService.updateEmployee id input w))))
  /\ (forall id,
        codes_in_sequence
          (employees (snd (EmployeeService.deleteEmployee id w))))
  /\ (forall id a,
        codes_in_sequence
          (employees (snd (EmployeeService.markAttendance id a w))))
  /\ (forall ids input,
        codes_in_sequence
          (employees
             (snd (EmployeeService.bulkUpdateEmployees ids input w)))).
Proof.
  intros Hw.
  set (R := fun a b : list IEmployee =>
              codes_in_sequence a -> codes_in_sequence b).
  assert (forall a b c, R a b -> R b c -> R a c) as Htrans
    by (unfold R; auto).
  assert (forall id input t docs (e : IEmployee),
             List.find (has_id id) docs = Some e ->
             set_breaks_unique_email input id docs = false ->
             R docs (update_first id (apply_set input t) docs)) as Hset.
  { intros id input t docs e _ _ Hd. eapply codes_later; [| exact Hd].
    apply update_first_later, later_state_set. }
  assert (forall id a t docs,
             R docs (update_first id (apply_push a t) docs)) as Hpush.
  { intros id a t docs Hd. eapply codes_later; [| exact Hd].
    apply update_first_later, later_state_push. }
  assert (forall ids input t docs,
             R docs (snd (update_many ids input t [] docs))) as Hmany.
  { intros ids input t docs Hd. eapply codes_later; [| exact Hd].
    apply (update_many_later ids input t [] [] docs). constructor. }
  assert (R (employees w) (employees w)) as Hrefl by (by intros ?).
  split; [| split; [| split; [| split; [| split; [| split]]]]].
  - apply NoDup_alt. intros i j code Hi Hj.
    change (map employeeId (employees w)) with (employeeId <$> employees w)
      in Hi, Hj.
    apply list_lookup_fmap_Some in Hi as (di & -> & Hi).
    apply list_lookup_fmap_Some in Hj as (dj & Heq & Hj).
    rewrite (Hw i di Hi), (Hw j dj Hj) in Heq.
    by apply pre_save_employeeId_inj.
  - apply pre_save_employeeId_inj.
  - intros input createdBy.
    destruct (createEmployee_eq input createdBy w)
      as (w' & -> & Hdocs & _). cbn [fst snd].
    split; [| split; [| done]].
    + intros (e & He & Heq).
      destruct (find_is_Some
                  (fun e => same_address (new_email input) e && true)
                  (employees w) e He) as [e' ->]; [| done].
      unfold same_address. by rewrite Heq, String.eqb_refl.
    + intros Hfree.
      destruct (List.find _ (employees w)) as [x |] eqn:Hfind; [| done].
      apply List.find_some in Hfind as [Hx Heq].
      rewrite andb_true_r in Heq. apply String.eqb_eq in Heq.
      apply list_elem_of_In in Hx. by destruct (Hfree x Hx).
  - intros. by apply (steps_updateEmployee R Htrans Hset (employees w) _ _ w).
  - intros. by apply (steps_deleteEmployee R Htrans Hset (employees w) _ w).
  - intros. by apply (steps_markAttendance R Htrans Hpush (employees w) _ _ w).
  - intros.
    by apply (steps_bulkUpdateEmployees R Htrans Hmany (employees w) _ _ w).
Qed.

(** *** The writes, case by case *)

(** X11. A write that does not succeed changes nothing: when
    [createEmployee] throws, when [updateEmployee] or [markAttendance]
    does not return a document, and when [deleteEmployee] does not return
    true, the collection and the cache keyspace are what they were. *)
Theorem failed_writes_change_nothing `{Platform} (w : World) :
  (forall input createdBy e,
      fst (EmployeeService.createEmployee input createdBy w) = Throw e ->
      employees (snd (EmployeeService.createEmployee input createdBy w))
      = employees w
      /\ redis (snd (EmployeeService.createEmployee input createdBy w))
         = redis w)
  /\ (forall id input,
        (forall e, fst (EmployeeService.updateEmployee id input w)
                   <> Ok (Some e)) ->
        employees (snd (EmployeeService.updateEmployee id input w))
        = employees w
        /\ redis (snd (EmployeeService.updateEmployee id input w)) = redis w)
  /\ (forall id,
        fst (EmployeeService.deleteEmployee id w) <> Ok true ->
        employees (snd (EmployeeService.deleteEmployee id w)) = employees w
        /\ redis (snd (EmployeeService.deleteEmployee id w)) = redis w)
  /\ (forall id a,
        (forall e, fst (EmployeeService.markAttendance id a w)
                   <> Ok (Some e)) ->
        employees (snd (EmployeeService.markAttendance id a w)) = employees w
        /\ redis (snd (EmployeeService.markAttendance id a w)) = redis w).
Proof.
  split; [| split; [| split]].
  - intros input createdBy e He.
    by destruct (createEmployee_outcome input createdBy w) as (_ & Hd & Hr).
  - intros id input Hno.
    destruct (updateEmployee_outcome id input w)
      as [(e & _ & Hok & _) | (_ & Hd & Hr)]; [by destruct (Hno _ Hok) | done].
  - intros id Hno.
    destruct (deleteEmployee_outcome id w)
      as [(e & _ & Hok & _) | (_ & _ & Hd & Hr)]; [done | done].
  - intros id a Hno.
    destruct (markAttendance_outcome id a w)
      as [(e & _ & Hok & _) | (_ & Hd & Hr)]; [by destruct (Hno _ Hok) | done].
Qed.

Lemma find_update_first id (g : IEmployee -> IEmployee) docs e :
  (forall d, _id (g d) = _id d) ->
  List.find (has_id id) docs = Some e ->
  List.find (has_id id) (update_first id g docs) = Some (g e).
Proof.
  intros Hg. induction docs as [| d rest IH]; simpl; [done |].
  destruct (has_id id d) eqn:Hd.
  - intros [= ->]. simpl. unfold has_id in *. by rewrite Hg, Hd.
  - intros Hfind. simpl. rewrite Hd. by apply IH.
Qed.

Lemma update_first_elsewhere id (g : IEmployee -> IEmployee) docs i d :
  docs !! i = Some d -> _id d <> id ->
  update_first id g docs !! i = Some d.
Proof.
  revert i. induction docs as [| x rest IH]; intros i Hi Hne; [done |].
  simpl. destruct (has_id id x) eqn:Hx.
  - destruct i as [| i]; [| done]. simpl in Hi. injection Hi as ->.
    apply String.eqb_eq in Hx. done.
  - destruct i as [| i]; [done |]. simpl in *. by apply IH.
Qed.

Lemma update_first_length id (g : IEmployee -> IEmployee) docs :
  length (update_first id g docs) = length docs.
Proof.
  induction docs as [| x rest IH]; simpl; [done |].
  destruct (has_id id x); simpl; by rewrite ?IH.
Qed.

(** X12. The single-record read after a successful write of that record
    returns the written state, also when the cache held an older entry:
    after [updateEmployee] the document with the new values, after
    [markAttendance] the document with the entry appended, and after
    [deleteEmployee] the same document flagged inactive, which the read
    by id still serves.  (Cache reachable.) *)
Theorem record_read_follows_write `{Platform}
  (w : World) (id : string) (e : IEmployee) :
  cache_available w ->
  List.find (has_id id) (employees w) = Some e ->
  (forall input,
      update_is_duplicate id input (employees w) = false ->
      validate_set input = true ->
      set_breaks_unique_email input id (employees w) = false ->
      fst (EmployeeService.getEmployeeById id
             (snd (EmployeeService.updateEmployee id input w)))
      = Ok (Some (JEmployee (apply_set input (now w) e))))
  /\ (forall a,
        validate_push a = true ->
        fst (EmployeeService.getEmployeeById id
               (snd (EmployeeService.markAttendance id a w)))
        = Ok (Some (JEmployee (apply_push a (now w) e))))
  /\ fst (EmployeeService.getEmployeeById id
            (snd (EmployeeService.deleteEmployee id w)))
     = Ok (Some (JEmployee
                   (apply_set EmployeeService.set_inactive (now w) e)))
  /\ isActive (apply_set EmployeeService.set_inactive (now w) e) = false.
Proof.
  intros Hw He. split; [| split; [| split; [| done]]].
  - intros input Hdup Hvalid Hfree.
    destruct (updateEmployee_available id input e w Hw Hdup Hvalid He Hfree)
      as [evs ->]. cbn [snd].
    rewrite getEmployeeById_available_miss;
      [| done | apply lookup_evicted_record].
    cbn [employees with_redis with_employees].
    by rewrite (find_update_first id _ _ e).
  - intros a Hvalid.
    rewrite (markAttendance_available id a e w Hw Hvalid He). cbn [snd].
    rewrite getEmployeeById_available_miss;
      [| done | cbn [redis with_redis]; by simplify_map_eq].
    cbn [employees with_redis with_employees].
    by rewrite (find_update_first id _ _ e).
  - destruct (deleteEmployee_found id e w He)
      as (_ & Hd & Hc & Hf & Hr & _).
    rewrite getEmployeeById_available_miss.
    + rewrite Hd. by rewrite (find_update_first id _ _ e).
    + destruct Hw as [Hwc Hwf]. split; congruence.
    + rewrite (Hr Hw). apply lookup_evicted_record.
Qed.

(** X13. [deleteEmployee] is a soft delete: on an id the collection holds
    it returns true, removes nothing and changes no other document; the
    document keeps every field but [isActive], now false, and
    [updatedAt].  Deleting it again returns true again, so the resolver
    answers NOT_FOUND only for an id the collection never held. *)
Theorem delete_is_soft `{Platform} (w : World) (id : string) (e : IEmployee) :
  List.find (has_id id) (employees w) = Some e ->
  let r := EmployeeService.deleteEmployee id w in
  let e' := apply_set EmployeeService.set_inactive (now w) e in
  fst r = Ok true
  /\ length (employees (snd r)) = length (employees w)
  /\ List.find (has_id id) (employees (snd r)) = Some e'
  /\ (forall i d, employees w !! i = Some d -> _id d <> id ->
                  employees (snd r) !! i = Some d)
  /\ isActive e' = false
  /\ (name e', email e', age e', class e', subjects e', attendance e',
      salary e', department e', employeeId e')
     = (name e, email e, age e, class e, subjects e, attendance e,
        salary e, department e, employeeId e)
  /\ fst (EmployeeService.deleteEmployee id (snd r)) = Ok true.
Proof.
  intros He r e'.
  destruct (deleteEmployee_found id e w He) as (Hok & Hd & _).
  fold r in Hok, Hd.
  assert (List.find (has_id id) (employees (snd r)) = Some e') as He'
    by (rewrite Hd; by apply find_update_first).
  repeat split; try done.
  - rewrite Hd. apply update_first_length.
  - intros i d Hi Hne. rewrite Hd. by apply update_first_elsewhere.
  - by destruct (deleteEmployee_found id e' (snd r) He') as (Hok' & _).
Qed.

(** *** Who can change what *)

Lemma update_first_lookup id (g : IEmployee -> IEmployee) docs i d :
  docs !! i = Some d ->
  update_first id g docs !! i = Some d
  \/ (_id d = id /\ update_first id g docs !! i = Some (g d)).
Proof.
  revert i. induction docs as [| x rest IH]; intros i Hi; [done |].
  simpl. destruct (has_id id x) eqn:Hx.
  - destruct i as [| i]; [| by left]. simpl in Hi. injection Hi as ->.
    right. split; [by apply String.eqb_eq | done].
  - destruct i as [| i]; [by left |]. simpl in *. by apply IH.
Qed.

Lemma not_allowed key :
  key <> "subjects" -> key <> "class" -> key ∉ employeeResolver.allowedFields.
Proof.
  intros H1 H2. unfold employeeResolver.allowedFields.
  apply not_elem_of_cons. split; [done |].
  apply not_elem_of_cons. split; [done | apply not_elem_of_nil].
Qed.

Lemma allowed_input_fields input :
  (0 <? Z.of_nat
          (length (filter (fun key => key ∉ employeeResolver.allowedFields)
                     (Object_keys input)))) = false ->
  set_name input = None /\ set_email input = None /\ set_age input = None
  /\ set_salary input = None /\ set_department input = None
  /\ set_isActive input = None.
Proof.
  intros Hlen.
  assert (forall key, key ∈ Object_keys input ->
                      key <> "subjects" -> key <> "class" -> False) as Hno.
  { intros key Hin H1 H2.
    rewrite (nonempty_length_positive _ key) in Hlen; [done |].
    apply list_elem_of_filter. split; [by apply not_allowed | done]. }
  unfold Object_keys in Hno.
  repeat split.
  - destruct (set_name input); [| done]. exfalso.
    apply (Hno "name"); [| done | done]. simpl. set_solver.
  - destruct (set_email input); [| done]. exfalso.
    apply (Hno "email"); [| done | done]. simpl. set_solver.
  - destruct (set_age input); [| done]. exfalso.
    apply (Hno "age"); [| done | done]. simpl. set_solver.
  - destruct (set_salary input); [| done]. exfalso.
    apply (Hno "salary"); [| done | done]. simpl. set_solver.
  - destruct (set_department input); [| done]. exfalso.
    apply (Hno "department"); [| done | done]. simpl. set_solver.
  - destruct (set_isActive input); [| done]. exfalso.
    apply (Hno "isActive"); [| done | done]. simpl. set_solver.
Qed.

Lemma ref_differs_false u id :
  ref_differs u id = false -> employeeRef u = Some id.
Proof.
  unfold ref_differs. destruct (employeeRef u) as [r |]; [| done].
  intros Heq. apply negb_false_iff, String.eqb_eq in Heq. by subst.
Qed.

(** X14. What a member can change.  Through [updateEmployee] and
    [markAttendance] a member changes at most the record they are linked
    to, whatever id and input they send: no document is added or removed,
    every document with another id is left as it was, and in their own
    record the update can change only [class], [subjects] and
    [updatedAt], the attendance mutation only [attendance] (by one
    appended entry) and [updatedAt]: each of the other fields of the
    document keeps its value. *)
Theorem member_changes_own_record_only `{Platform}
  (w : World) (u : ContextUser) :
  role u = EMPLOYEE ->
  (forall id input i d,
      employees w !! i = Some d ->
      exists d',
        employees (snd (employeeResolver.updateEmployee id input
                          {| user := Some u |} w)) !! i = Some d'
        /\ (employeeRef u <> Some (_id d) -> d' = d)
        /\ (_id d', employeeId d', name d', email d', age d',
            attendance d', joiningDate d', salary d', department d',
            isActive d', createdBy d', createdAt d')
           = (_id d, employeeId d, name d, email d, age d,
              attendance d, joiningDate d, salary d, department d,
              isActive d, createdBy d, createdAt d))
  /\ (forall id a i d,
        employees w !! i = Some d ->
        exists d',
          employees (snd (employeeResolver.markAttendance id a
                            {| user := Some u |} w)) !! i = Some d'
          /\ (employeeRef u <> Some (_id d) -> d' = d)
          /\ (attendance d' = attendance d \/ attendance d' = attendance d ++ [a])
          /\ (_id d', employeeId d', name d', email d', age d', class d',
              subjects d', joiningDate d', salary d', department d',
              isActive d', createdBy d', createdAt d')
             = (_id d, employeeId d, name d, email d, age d, class d,
                subjects d, joiningDate d, salary d, department d,
                isActive d, createdBy d, createdAt d))
  /\ (forall id input,
        length (employees (snd (employeeResolver.updateEmployee id input
                                  {| user := Some u |} w)))
        = length (employees w))
  /\ (forall id a,
        length (employees (snd (employeeResolver.markAttendance id a
                                  {| user := Some u |} w)))
        = length (employees w)).
Proof.
  intros Hrole.
  assert (forall id input,
             employees (snd (employeeResolver.updateEmployee id input
                               {| user := Some u |} w)) = employees w
             \/ (employeeRef u = Some id
                 /\ set_name input = None /\ set_email input = None
                 /\ set_age input = None /\ set_salary input = None
                 /\ set_department input = None /\ set_isActive input = None
                 /\ employees (snd (employeeResolver.updateEmployee id input
                                      {| user := Some u |} w))
                    = update_first id (apply_set input (now w)) (employees w)))
    as Hupd.
  { intros id input.
    unfold employeeResolver.updateEmployee, is_employee. simpl.
    rewrite Hrole. unfold bind at 1 3.
    destruct (ref_differs u id) eqn:Href; [by left |].
    destruct (0 <? _) eqn:Hkeys; [by left |].
    apply allowed_input_fields in Hkeys. apply ref_differs_false in Href.
    unfold ret. unfold bind.
    destruct (updateEmployee_outcome id input w)
      as [(e & _ & Hok & Hd) | (_ & Hd & _)].
    - right. split; [done |]. split_and!; try apply Hkeys.
      destruct (EmployeeService.updateEmployee id input w) as [[[x |] | x] w'];
        simpl in *; done.
    - left.
      destruct (EmployeeService.updateEmployee id input w) as [[[x |] | x] w'];
        simpl in *; done. }
  assert (forall id a,
             employees (snd (employeeResolver.markAttendance id a
                               {| user := Some u |} w)) = employees w
             \/ (employeeRef u = Some id
                 /\ employees (snd (employeeResolver.markAttendance id a
                                      {| user := Some u |} w))
                    = update_first id (apply_push a (now w)) (employees w)))
    as Hmark.
  { intros id a.
    unfold employeeResolver.markAttendance, is_employee. simpl.
    rewrite Hrole. simpl.
    destruct (ref_differs u id) eqn:Href; [by left |].
    apply ref_differs_false in Href. unfold bind.
    destruct (markAttendance_outcome id a w)
      as [(e & _ & Hok & Hd) | (_ & Hd & _)].
    - right. split; [done |].
      destruct (EmployeeService.markAttendance id a w) as [[[x |] | x] w'];
        simpl in *; done.
    - left.
      destruct (EmployeeService.markAttendance id a w) as [[[x |] | x] w'];
        simpl in *; done. }
  split; [| split; [| split]].
  - intros id input i d Hi.
    destruct (Hupd id input)
      as [-> | (Href & Hn & He & Ha & Hs & Hdp & Hact & ->)];
      [by exists d |].
    destruct (update_first_lookup id (apply_set input (now w)) _ i d Hi)
      as [Hsame | [Hid Hnew]]; [by exists d |].
    exists (apply_set input (now w) d). split; [done |]. split.
    + intros Hne. by rewrite Href, Hid in Hne.
    + simpl. by rewrite Hn, He, Ha, Hs, Hdp, Hact.
  - intros id a i d Hi.
    destruct (Hmark id a) as [-> | (Href & ->)];
      [exists d; by repeat split; try left |].
    destruct (update_first_lookup id (apply_push a (now w)) _ i d Hi)
      as [Hsame | [Hid Hnew]]; [exists d; by repeat split; try left |].
    exists (apply_push a (now w) d). split; [done |]. split.
    + intros Hne. by rewrite Href, Hid in Hne.
    + split; [by right | done].
  - intros id input.
    destruct (Hupd id input) as [-> | (_ & _ & _ & _ & _ & _ & _ & ->)];
      [done | apply update_first_length].
  - intros id a.
    destruct (Hmark id a) as [-> | (_ & ->)];
      [done | apply update_first_length].
Qed.

(** X15. What a caller who is not an admin cannot reach.  Without a user
    the four operations open to members answer UNAUTHENTICATED; without a
    user or for a member, the search answers UNAUTHENTICATED or
    FORBIDDEN and the statistics, the creation, the deletion and the bulk
    update answer FORBIDDEN 'Admin access required'.  In every one of
    these cases the service is not called: the stores and the trace are
    left exactly as they were. *)
Theorem closed_to_non_admins `{Platform} (w : World) (ctx : IContext) :
  (forall u, user ctx = Some u -> role u = EMPLOYEE) ->
  (user ctx = None ->
   (forall f pg s, employeeResolver.employees f pg s ctx w
                   = (Throw (GraphQLError "Not authenticated" "UNAUTHENTICATED"), w))
   /\ (forall id, employeeResolver.employee id ctx w
                  = (Throw (GraphQLError "Not authenticated" "UNAUTHENTICATED"), w))
   /\ (forall id input, employeeResolver.updateEmployee id input ctx w
                        = (Throw (GraphQLError "Not authenticated" "UNAUTHENTICATED"), w))
   /\ (forall id a, employeeResolver.markAttendance id a ctx w
                    = (Throw (GraphQLError "Not authenticated" "UNAUTHENTICATED"), w)))
  /\ (forall q pg,
        employeeResolver.searchEmployees q pg ctx w
        = (Throw (match user ctx with
                  | None => GraphQLError "Not authenticated" "UNAUTHENTICATED"
                  | Some _ => GraphQLError "Not authorized" "FORBIDDEN"
                  end), w))
  /\ employeeResolver.employeeStats ctx w
     = (Throw (GraphQLError "Admin access required" "FORBIDDEN"), w)
  /\ (forall input,
        employeeResolver.createEmployee input ctx w
        = (Throw (GraphQLError "Admin access required" "FORBIDDEN"), w))
  /\ (forall id,
        employeeResolver.deleteEmployee id ctx w
        = (Throw (GraphQLError "Admin access required" "FORBIDDEN"), w))
  /\ (forall ids input,
        employeeResolver.bulkUpdateEmployees ids input ctx w
        = (Throw (GraphQLError "Admin access required" "FORBIDDEN"), w)).
Proof.
  intros Hmember.
  unfold employeeResolver.employees, employeeResolver.employee,
    employeeResolver.updateEmployee, employeeResolver.markAttendance,
    employeeResolver.searchEmployees, employeeResolver.employeeStats,
    employeeResolver.createEmployee, employeeResolver.deleteEmployee,
    employeeResolver.bulkUpdateEmployees.
  destruct (user ctx) as [u |] eqn:Hu.
  - assert (is_admin u = false) as Hadmin
      by (unfold is_admin; by rewrite (Hmember u eq_refl)).
    rewrite Hadmin. simpl. by repeat split.
  - by repeat split.
Qed.



(** ** Further properties: authentication *)

Section AuthFacts.
Context `{AuthPlatform}.

Lemma verifyToken_cases token :
  (exists p, jwt_verify token = VerifiedPayload p
             /\ verifyToken token = inr p)
  \/ ((forall p, jwt_verify token <> VerifiedPayload p)
      /\ verifyToken token = inl (new_Error "Invalid or expired token")).
Proof.
  unfold verifyToken. destruct (jwt_verify token) as [p | str | e].
  - left. by exists p.
  - by right.
  - by right.
Qed.

Lemma authenticate_token_errors token l e :
  authenticate_token token l = inl e ->
  e = new_Error "Invalid or expired token"
  \/ e = CastError
  \/ e = new_GraphQLError "User not found or inactive" "UNAUTHORIZED".
Proof.
  unfold authenticate_token, User_findById.
  destruct (verifyToken_cases token) as [(p & _ & ->) | (_ & ->)].
  - destruct (isValidObjectId (token_id p)); [| intros [= <-]; auto].
    destruct (List.find _ l) as [u |]; simpl.
    + destruct (User.isActive u); simpl; [done | intros [= <-]; auto].
    + intros [= <-]. auto.
  - intros [= <-]. auto.
Qed.

Lemma authenticate_token_ok token l cu :
  authenticate_token token l = inr cu ->
  exists p u,
    jwt_verify token = VerifiedPayload p
    /\ u ∈ l /\ User._id u = token_id p /\ User.isActive u = true
    /\ cu = {| user_id := User._id u; user_email := User.email u;
               role := User.role u; employeeRef := User.employeeRef u |}.
Proof.
  unfold authenticate_token, User_findById.
  destruct (verifyToken_cases token) as [(p & Hp & ->) | (_ & ->)];
    [| done].
  destruct (isValidObjectId (token_id p)); [| done].
  destruct (List.find _ l) as [u |] eqn:Hfind; simpl; [| done].
  destruct (User.isActive u) eqn:Hact; simpl; [| done].
  intros [= <-]. apply List.find_some in Hfind as [Hin Hid].
  exists p, u. repeat split; try done.
  - by apply list_elem_of_In.
  - by apply String.eqb_eq.
Qed.

(** The head of the parts is what precedes the first separator. *)
Lemma split_on_scheme (scheme rest : string) :
  (forall c, In c (list_ascii_of_string scheme) -> c <> " "%char) ->
  split_on " " (scheme +:+ " " +:+ rest) !! 1%nat
  = split_on " " rest !! 0%nat.
Proof.
  induction scheme as [| c scheme IH]; intros Hno; [done |].
  simpl. destruct (Ascii.eqb c " ") eqn:Hc.
  - apply Ascii.eqb_eq in Hc. exfalso. apply (Hno c); [by left | done].
  - assert (split_on " " (scheme +:+ " " +:+ rest) !! 1%nat
            = split_on " " rest !! 0%nat) as IH'.
    { apply IH. intros c' Hc'. apply Hno. by right. }
    destruct (split_on " " (scheme +:+ " " +:+ rest)) as [| first others];
      [done | done].
Qed.

Lemma authenticate_some authorization l cu :
  authenticate authorization l = inr (Some cu) ->
  exists header token p u,
    authorization = Some header
    /\ split_on " " header !! 1%nat = Some token
    /\ jwt_verify token = VerifiedPayload p
    /\ u ∈ l /\ User._id u = token_id p /\ User.isActive u = true
    /\ cu = {| user_id := User._id u; user_email := User.email u;
               role := User.role u;
               employeeRef := User.employeeRef u |}.
Proof.
  unfold authenticate.
  destruct authorization as [header |]; simpl; [| done].
  destruct (String.eqb header ""); simpl; [done |].
  destruct (split_on " " header !! 1%nat) as [token |] eqn:Hsplit;
    simpl; [| done].
  destruct (String.eqb token ""); simpl; [done |].
  destruct (authenticate_token token l) as [err | cu'] eqn:Htok.
  + by repeat destruct (String.eqb _ _).
  + intros [= <-].
    apply authenticate_token_ok in Htok as (p & u & Hp & Hu & Hid & Ha & ->).
    by exists header, token, p, u.
Qed.

Lemma authenticate_same_token h1 h2 l :
  h1 <> "" -> h2 <> "" ->
  split_on " " h1 !! 1%nat = split_on " " h2 !! 1%nat ->
  authenticate (Some h1) l = authenticate (Some h2) l.
Proof.
  intros H1 H2 Heq. unfold authenticate. simpl.
  apply String.eqb_neq in H1, H2. by rewrite H1, H2, Heq.
Qed.

Lemma authenticate_no_token h l :
  h <> "" ->
  split_on " " h !! 1%nat = None \/ split_on " " h !! 1%nat = Some "" ->
  authenticate (Some h) l
  = inl (new_GraphQLError "Invalid token format" "INVALID_TOKEN").
Proof.
  intros H1 Hsplit. unfold authenticate. simpl.
  apply String.eqb_neq in H1. rewrite H1. simpl.
  by destruct Hsplit as [-> | ->].
Qed.

End AuthFacts.

(** X17. What [authenticate] can throw.  With a user lookup that fails
    only by its cast, every failure is one of four errors: INVALID_TOKEN 'Invalid token format', the plain error
    'Invalid or expired token', a cast error of the user lookup, or
    UNAUTHORIZED 'User not found or inactive'.  So the codes of its two
    last handlers are never produced: [verifyToken] has already replaced
    every error of the token library, an expired token included, by a
    plain error without a code. *)
Theorem authenticate_errors `{AuthPlatform}
  (authorization : option string) (l : list User.IUser) :
  (forall e,
      authenticate authorization l = inl e ->
      (e = new_GraphQLError "Invalid token format" "INVALID_TOKEN"
       \/ e = new_Error "Invalid or expired token"
       \/ e = CastError
       \/ e = new_GraphQLError "User not found or inactive" "UNAUTHORIZED")
      /\ e <> new_GraphQLError "Invalid token" "INVALID_TOKEN"
      /\ e <> new_GraphQLError "Token expired" "TOKEN_EXPIRED")
  /\ (forall header token,
        authorization = Some header -> header <> "" ->
        split_on " " header !! 1%nat = Some token -> token <> "" ->
        (forall p, jwt_verify token <> VerifiedPayload p) ->
        authenticate authorization l
        = inl (new_Error "Invalid or expired token")).
Proof.
  split.
  - intros e He.
    assert (e = new_GraphQLError "Invalid token format" "INVALID_TOKEN"
            \/ e = new_Error "Invalid or expired token"
            \/ e = CastError
            \/ e = new_GraphQLError "User not found or inactive"
                     "UNAUTHORIZED") as Hcases.
    { revert He. unfold authenticate.
      destruct (negb (truthy_str authorization)); [done |].
      destruct (negb (truthy_str _)); [intros [= <-]; auto |].
      destruct (authenticate_token _ l) as [err | cu] eqn:Htok; [| done].
      apply authenticate_token_errors in Htok.
      destruct Htok as [-> | [-> | ->]]; simpl; intros [= <-]; auto. }
    split; [done |].
    destruct Hcases as [-> | [-> | [-> | ->]]]; done.
  - intros header token -> Hheader Hsplit Htoken Hbad.
    unfold authenticate. simpl.
    apply String.eqb_neq in Hheader, Htoken.
    rewrite Hheader, Hsplit. simpl. rewrite Htoken. simpl.
    unfold authenticate_token.
    destruct (verifyToken_cases token) as [(p & Hp & _) | (_ & ->)];
      [by destruct (Hbad p) | done].
Qed.

(** X18. Whom [authenticate] lets in.  No header, or an empty one, gives
    the anonymous context and nothing else does.  A user in the context
    is an active user of the collection whose id is the one in the
    verified token; the email, the role and the employee reference of the
    context are those stored for that user, not those in the token. *)
Theorem authenticated_user_is_stored `{AuthPlatform}
  (authorization : option string) (l : list User.IUser) :
  (authenticate authorization l = inr None
   <-> authorization = None \/ authorization = Some "")
  /\ (forall cu,
        authenticate authorization l = inr (Some cu) ->
        exists header token p u,
          authorization = Some header
          /\ split_on " " header !! 1%nat = Some token
          /\ jwt_verify token = VerifiedPayload p
          /\ u ∈ l /\ User._id u = token_id p /\ User.isActive u = true
          /\ cu = {| user_id := User._id u; user_email := User.email u;
                     role := User.role u;
                     employeeRef := User.employeeRef u |}).
Proof.
  split.
  - unfold authenticate. destruct authorization as [header |]; simpl.
    + destruct (String.eqb header "") eqn:Hh; simpl.
      * apply String.eqb_eq in Hh. subst. split; auto.
      * apply String.eqb_neq in Hh. split.
        -- destruct (negb (truthy_str _)); [done |].
           destruct (authenticate_token _ l) as [err | cu]; [| done].
           by repeat destruct (String.eqb _ _).
        -- intros [? | [= ?]]; done.
    + split; auto.
  - intros cu. apply authenticate_some.
Qed.

(** X19. The scheme word of the header is not looked at.  Whatever stands
    before the first space, the empty word included, the header is
    treated like the same credentials after 'Bearer'; a header without a
    space, or with nothing between the first space and the next, is
    refused as INVALID_TOKEN before any verification. *)
Theorem scheme_is_not_checked `{AuthPlatform}
  (scheme rest : string) (l : list User.IUser) :
  (forall c, In c (list_ascii_of_string scheme) -> c <> " "%char) ->
  authenticate (Some (scheme +:+ " " +:+ rest)) l
  = authenticate (Some ("Bearer " +:+ rest)) l
  /\ (scheme <> "" ->
      authenticate (Some scheme) l
      = inl (new_GraphQLError "Invalid token format" "INVALID_TOKEN"))
  /\ authenticate (Some (scheme +:+ "  " +:+ rest)) l
     = inl (new_GraphQLError "Invalid token format" "INVALID_TOKEN").
Proof.
  intros Hno.
  assert (forall sch r, sch +:+ " " +:+ r <> "") as Hne
    by (intros sch r; by destruct sch).
  split; [| split].
  - change ("Bearer " +:+ rest) with ("Bearer" +:+ " " +:+ rest).
    apply authenticate_same_token; [apply Hne | apply Hne |].
    rewrite (split_on_scheme scheme rest Hno).
    rewrite (split_on_scheme "Bearer" rest); [done |].
    simpl. intros c [<- | [<- | [<- | [<- | [<- | [<- | []]]]]]]; done.
  - intros Hscheme. apply authenticate_no_token; [done |]. left.
    clear Hscheme. induction scheme as [| c scheme IH]; [done |].
    simpl. destruct (Ascii.eqb c " ") eqn:Hc.
    + apply Ascii.eqb_eq in Hc. exfalso. apply (Hno c); [by left | done].
    + assert (split_on " " scheme !! 1%nat = None) as IH'
        by (apply IH; intros c' Hc'; apply Hno; by right).
      by destruct (split_on " " scheme).
  - change (scheme +:+ "  " +:+ rest) with (scheme +:+ " " +:+ (" " +:+ rest)).
    apply authenticate_no_token; [apply Hne |]. right.
    by rewrite (split_on_scheme scheme (" " +:+ rest) Hno).
Qed.

(** X30. The role gate after authentication.  A caller who passes
    [requireRole] on the context that [createContext] built is an active
    user of the collection whose stored role is one of the allowed ones;
    the role claimed in the token plays no part.  A request without a
    header gets a context but fails the gate as UNAUTHENTICATED, and with
    no role allowed nobody passes. *)
Theorem role_gate_after_authentication `{AuthPlatform}
  (authorization : option string) (l : list User.IUser)
  (allowedRoles : list UserRole) (context : IContext) :
  createContext authorization l = inr context ->
  (forall u,
      requireRole context allowedRoles = inr u ->
      exists x,
        x ∈ l /\ User.isActive x = true /\ User.role x ∈ allowedRoles
        /\ user_id u = User._id x /\ role u = User.role x)
  /\ (authorization = None ->
      requireRole context allowedRoles
      = inl (new_GraphQLError "Authentication required" "UNAUTHENTICATED"))
  /\ (forall e, requireRole context allowedRoles = inl e ->
                e = new_GraphQLError "Authentication required"
                      "UNAUTHENTICATED"
                \/ e = new_GraphQLError "Insufficient permissions" "FORBIDDEN")
  /\ (forall u, requireRole context [] <> inr u).
Proof.
  unfold createContext.
  destruct (authenticate authorization l) as [e | cu] eqn:Hauth; [done |].
  intros [= <-]. unfold requireRole, requireAuth. simpl.
  split; [| split; [| split]].
  - intros u. destruct cu as [cu |]; [| done].
    destruct (bool_decide (role cu ∈ allowedRoles)) eqn:Hrole; simpl; [| done].
    intros [= <-]. apply bool_decide_eq_true in Hrole.
    apply authenticate_some in Hauth
      as (header & token & p & x & _ & _ & _ & Hx & _ & Hact & ->).
    by exists x.
  - intros ->. simpl in Hauth. by injection Hauth as <-.
  - intros e. destruct cu as [cu |]; [| intros [= <-]; auto].
    destruct (bool_decide (role cu ∈ allowedRoles)); simpl;
      [done | intros [= <-]; auto].
  - intros u. destruct cu as [cu |]; [| done].
    try (rewrite bool_decide_eq_false_2 by apply not_elem_of_nil); done.
Qed.

(** ** Further properties: registration and login *)

Section RegisterFacts.
Context `{AuthPlatform}.

(** [register], case by case. *)
Lemma register_cases input s :
  AuthService.register input s
  = match User_findOne (reg_email input) (users s) with
    | Some _ =>
        (inl (new_GraphQLError "User with this email already exists"
                "USER_EXISTS"), s)
    | None =>
        if (String.length (reg_password input) <? 6)%nat then
          (inl (new_GraphQLError "Password must be at least 6 characters"
                  "INVALID_PASSWORD"), s)
        else
          let s1 := {| users := users s; clock := clock s;
                       ids_made := S (ids_made s) |} in
          let u := AuthService.new_User input s in
          if negb (validate_user u) then (inl ValidationError, s1)
          else if existsb (fun x => String.eqb (User.email x)
                                      (email_setter (reg_email input)))
                    (users s)
          then (inl DuplicateKeyError, s1)
          else
            let u' := User.with_password
                        (bcrypt_hash (reg_password input)) u in
            (inr {| token := generateToken
                               {| token_id := User._id u';
                                  token_email := User.email u';
                                  token_role := User.role u';
                                  token_employeeRef := None |};
                    payload_user := u' |},
             with_users (users s ++ [u']) s1)
    end.
Proof.
  unfold AuthService.register.
  destruct (User_findOne _ _); [done |].
  destruct (_ <? 6)%nat; [done |].
  unfold User_save_new. simpl.
  destruct (negb (validate_user _)); [done |].
  by destruct (existsb _ _).
Qed.

Lemma find_app_last {A} (p : A -> bool) (l : list A) (x : A) :
  existsb p l = false -> p x = true -> List.find p (l ++ [x]) = Some x.
Proof.
  induction l as [| y l IH]; simpl; intros Hl Hx; [by rewrite Hx |].
  apply orb_false_elim in Hl as [Hy Hl]. rewrite Hy. by apply IH.
Qed.

End RegisterFacts.

(** X20. [register].  An address already held is refused as USER_EXISTS
    before the password is looked at; a password of fewer than 6
    characters is then refused as INVALID_PASSWORD; a refusal of any kind
    adds no user.  A success appends exactly one user: active, with the
    role of the input or EMPLOYEE when none is given, holding the hash of
    the password and never the password itself. *)
Theorem register_outcomes `{AuthPlatform}
  (input : IRegisterInput) (s : UserStore) :
  let r := AuthService.register input s in
  (is_Some (User_findOne (reg_email input) (users s)) ->
   r = (inl (new_GraphQLError "User with this email already exists"
               "USER_EXISTS"), s))
  /\ (User_findOne (reg_email input) (users s) = None ->
      (String.length (reg_password input) < 6)%nat ->
      r = (inl (new_GraphQLError "Password must be at least 6 characters"
                  "INVALID_PASSWORD"), s))
  /\ (forall e, fst r = inl e -> users (snd r) = users s)
  /\ (forall p,
        fst r = inr p ->
        users (snd r) = users s ++ [payload_user p]
        /\ User.isActive (payload_user p) = true
        /\ User.role (payload_user p) = default EMPLOYEE (reg_role input)
        /\ User.password (payload_user p)
           = Some (bcrypt_hash (reg_password input))
        /\ User.email (payload_user p) = email_setter (reg_email input)
        /\ (6 <= String.length (reg_password input))%nat
        /\ token p
           = generateToken
               {| token_id := User._id (payload_user p);
                  token_email := User.email (payload_user p);
                  token_role := User.role (payload_user p);
                  token_employeeRef := None |}).
Proof.
  intros r. subst r. rewrite register_cases.
  destruct (User_findOne (reg_email input) (users s)) as [x |] eqn:Hfind.
  - by repeat split.
  - split; [by intros [? ?] |].
    destruct (String.length (reg_password input) <? 6)%nat eqn:Hlen.
    + by repeat split.
    + apply Nat.ltb_ge in Hlen. split; [intros _ ?; lia |].
      cbv zeta.
      destruct (negb (validate_user _)); [by split |].
      destruct (existsb _ (users s)); [by split |].
      split; [done |]. intros p [= <-]. by repeat split.
Qed.

(** X21. A registration followed by a login.  After a successful
    [register], [login] with the same address and password succeeds and
    returns that user without the password field, provided the address
    is cast in a filter to the value the document setter stored; a
    candidate password that does not match the hash is refused as
    INVALID_CREDENTIALS. *)
Theorem register_then_login `{AuthPlatform}
  (input : IRegisterInput) (s : UserStore) (p : IAuthPayload) :
  fst (AuthService.register input s) = inr p ->
  email_query (reg_email input) = email_setter (reg_email input) ->
  let s' := snd (AuthService.register input s) in
  (exists q,
      fst (AuthService.login (reg_email input) (reg_password input) s')
      = inr q
      /\ payload_user q
         = User.without_password
             (User.with_lastLogin (clock s) (payload_user p))
      /\ User.password (payload_user q) = None)
  /\ (forall pw,
        bcrypt_compare pw (bcrypt_hash (reg_password input)) = false ->
        AuthService.login (reg_email input) pw s'
        = (inl (new_GraphQLError "Invalid email or password"
                  "INVALID_CREDENTIALS"), s')).
Proof.
  intros Hreg Hcast s'. subst s'. revert Hreg. rewrite register_cases.
  destruct (User_findOne _ _); [done |].
  destruct (_ <? 6)%nat; [done |]. cbv zeta.
  destruct (negb (validate_user _)); [done |].
  destruct (existsb _ (users s)) eqn:Hfree; [done |].
  intros [= <-]. cbn [fst snd payload_user].
  set (u := User.with_password _ _).
  assert (User_findOne_active (reg_email input) (users s ++ [u]) = Some u)
    as Hfind.
  { unfold User_findOne_active. apply find_app_last.
    - apply not_true_is_false. intros (x & Hx & Hp)%existsb_exists.
      apply andb_prop in Hp as [Hmail _].
      rewrite Hcast in Hmail.
      assert (existsb (fun x => String.eqb (User.email x)
                                  (email_setter (reg_email input)))
                (users s) = true) as Hex; [| congruence].
      apply existsb_exists. by exists x.
    - subst u. simpl. rewrite Hcast. by rewrite String.eqb_refl. }
  split.
  - unfold AuthService.login. cbn [users with_users]. rewrite Hfind.
    unfold comparePassword. subst u. cbn [User.password User.with_password].
    rewrite bcrypt_compare_hash. cbn [negb]. cbv iota.
    eexists. split; [reflexivity |]. done.
  - intros pw Hpw. unfold AuthService.login. cbn [users with_users].
    rewrite Hfind. unfold comparePassword. subst u.
    cbn [User.password User.with_password]. by rewrite Hpw.
Qed.

(** X22. [login].  Every refusal is the same error, INVALID_CREDENTIALS
    'Invalid email or password', whether the address is unknown, the
    user is inactive or the password is wrong, and it leaves the
    collection as it was.  A success returns an active user of the
    collection with that address whose hash matches, with the password
    field removed, and stores the login time in that user's document. *)
Theorem login_outcomes `{AuthPlatform} (mail pw : string) (s : UserStore) :
  let r := AuthService.login mail pw s in
  (forall e, fst r = inl e ->
             e = new_GraphQLError "Invalid email or password"
                   "INVALID_CREDENTIALS"
             /\ snd r = s)
  /\ (forall q, fst r = inr q ->
        exists u,
          u ∈ users s /\ User.isActive u = true
          /\ User.email u = email_query mail
          /\ comparePassword u pw = true
          /\ payload_user q
             = User.without_password (User.with_lastLogin (clock s) u)
          /\ User.password (payload_user q) = None
          /\ users (snd r)
             = replace_user (User.with_lastLogin (clock s) u) (users s))
  /\ ((forall u, u ∈ users s -> User.email u = email_query mail ->
                 User.isActive u = true -> comparePassword u pw = false) ->
      exists e, fst r = inl e).
Proof.
  intros r. subst r. unfold AuthService.login.
  destruct (User_findOne_active mail (users s)) as [u |] eqn:Hfind.
  - unfold User_findOne_active in Hfind.
    apply List.find_some in Hfind as [Hin Hp].
    apply andb_prop in Hp as [Hmail Hact]. apply String.eqb_eq in Hmail.
    apply list_elem_of_In in Hin.
    destruct (comparePassword u pw) eqn:Hcmp; simpl.
    + split; [done |]. split.
      * intros q [= <-]. exists u. by repeat split.
      * intros Hall. rewrite (Hall u Hin Hmail Hact) in Hcmp. done.
    + split; [by intros e [= <-] |]. split; [done | eauto].
  - split; [by intros e [= <-] |]. split; [done | eauto].
Qed.

(** ** Further properties: rates and statistics *)

Lemma rate_bounds (p n : Z) :
  0 <= p <= n -> 0 < n ->
  (0 <= inject_Z p / inject_Z n * inject_Z 100
   /\ inject_Z p / inject_Z n * inject_Z 100 <= 100)%Q.
Proof.
  intros Hp Hn. destruct n as [| n | n]; try lia.
  assert (inject_Z p / inject_Z (Z.pos n) * inject_Z 100 == (p * 100) # n)%Q
    as Heq.
  { rewrite <- Qmake_Qdiv. unfold Qeq, Qmult, inject_Z. simpl. lia. }
  rewrite Heq. unfold Qle. simpl. split; nia.
Qed.

Lemma rate_full (p n : Z) :
  0 <= p <= n -> 0 < n ->
  (inject_Z p / inject_Z n * inject_Z 100 == 100)%Q <-> p = n.
Proof.
  intros Hp Hn. destruct n as [| n | n]; try lia.
  assert (inject_Z p / inject_Z (Z.pos n) * inject_Z 100 == (p * 100) # n)%Q
    as Heq.
  { rewrite <- Qmake_Qdiv. unfold Qeq, Qmult, inject_Z. simpl. lia. }
  rewrite Heq. unfold Qeq. simpl. split; nia.
Qed.

Lemma present_le_all (l : list IAttendance) :
  (length (filter (fun a => is_present a = true) l) <= length l)%nat.
Proof. apply length_filter. Qed.

Lemma present_all (l : list IAttendance) :
  length (filter (fun a => is_present a = true) l) = length l
  <-> Forall (fun a => is_present a = true) l.
Proof.
  induction l as [| a l IH]; [by split |].
  rewrite filter_cons. destruct (decide (is_present a = true)) as [Ha | Ha].
  - simpl. rewrite Forall_cons. split.
    + intros [= Hl]. split; [done | by apply IH].
    + intros [_ Hl]. f_equal. by apply IH.
  - pose proof (present_le_all l). simpl. split.
    + intros Hl. lia.
    + intros [Ha' _]%Forall_cons. done.
Qed.

Section StatsFacts.
Context `{Platform}.

Lemma getEmployeeStats_eq w :
  exists evs,
    EmployeeService.getEmployeeStats w
    = (Ok {| totalEmployees := Z.of_nat (length (employees w));
             activeEmployees :=
               Z.of_nat (length (filter (fun e => isActive e = true)
                                   (employees w)));
             inactiveEmployees :=
               Z.of_nat (length (filter (fun e => isActive e = false)
                                   (employees w)));
             averageAge :=
               match average_age (employees w) with
               | Some a => if Qeq_bool a 0 then 0%Q else a
               | None => 0%Q
               end;
             departmentCounts :=
               filter (fun d => truthy_str (dc_department d) = true)
                 (group_by_department (employees w));
             averageAttendanceRate :=
               EmployeeService.attendance_rate
                 (attendance_totals (employees w)) |},
       logged evs w).
Proof.
  unfold EmployeeService.getEmployeeStats, Employee.countAll,
    Employee.countActive, Employee.aggregate. run.
  eexists. unfold logged. simpl. rewrite <- !app_assoc. simpl. reflexivity.
Qed.

End StatsFacts.

(** X23. The virtual [attendanceRate] of a record lies between 0 and 100;
    it is 0 for a record without entries and 100 exactly when the record
    has entries and all are 'present'.  On a collection of one record the
    rate of the statistics is that record's rate. *)
Theorem attendanceRate_range `{Platform} (e : IEmployee) :
  (0 <= attendanceRate e /\ attendanceRate e <= 100)%Q
  /\ (attendance e = [] -> attendanceRate e = 0%Q)
  /\ ((attendanceRate e == 100)%Q
      <-> attendance e <> []
          /\ Forall (fun a => is_present a = true) (attendance e))
  /\ (forall w, employees w = [e] ->
        exists st, fst (EmployeeService.getEmployeeStats w) = Ok st
                   /\ (averageAttendanceRate st == attendanceRate e)%Q).
Proof.
  unfold attendanceRate.
  pose proof (present_le_all (attendance e)) as Hle.
  destruct (attendance e) as [| a l] eqn:Hlog.
  - cbn [length Nat.eqb]. split; [done |]. split; [done |]. split.
    + split; [done | by intros [? _]].
    + intros w Hw.
      destruct (getEmployeeStats_eq w) as (evs & ->).
      eexists. split; [done |]. simpl.
      rewrite Hw. unfold attendance_totals. simpl. by rewrite Hlog.
  - assert ((length (a :: l) =? 0)%nat = false) as -> by done.
    cbv zeta. split; [| split; [done | split]].
    + apply rate_bounds; [lia | simpl length; lia].
    + rewrite rate_full; [| lia | simpl length; lia].
      rewrite <- present_all. split.
      * intros Heq. split; [done | lia].
      * intros [_ Heq]. lia.
    + intros w Hw.
      destruct (getEmployeeStats_eq w) as (evs & ->).
      eexists. split; [done |]. cbn [averageAttendanceRate].
      rewrite Hw. unfold attendance_totals. cbn [flat_map].
      rewrite Hlog, !app_nil_r. reflexivity.
Qed.

Lemma filter_both_le (k : option string) (docs : list IEmployee) :
  (length (filter (fun e => department e = k /\ isActive e = true) docs)
   <= length (filter (fun e => isActive e = true) docs))%nat.
Proof.
  induction docs as [| e docs IH]; [done |].
  rewrite !filter_cons.
  destruct (decide (isActive e = true)) as [Ha | Ha].
  - destruct (decide (department e = k /\ isActive e = true)); simpl; lia.
  - rewrite decide_False by (by intros [_ ?]). done.
Qed.

Lemma filter_has (k : option string) (docs : list IEmployee) e :
  e ∈ docs -> isActive e = true -> department e = k ->
  (1 <= length (filter (fun e => department e = k /\ isActive e = true)
                  docs))%nat.
Proof.
  intros He Ha Hk.
  assert (e ∈ filter (fun e => department e = k /\ isActive e = true) docs)
    as Hin by (by apply list_elem_of_filter).
  destruct (filter _ docs); [by apply elem_of_nil in Hin | simpl; lia].
Qed.

(** X24. The statistics stay within their ranges.  The active and the
    inactive count lie between 0 and the total, the attendance rate
    between 0 and 100, every department row counts at least one and at
    most all active records, and the average age is the mean over all
    records, the inactive ones included; on an empty collection every
    figure is 0 and there is no department row. *)
Theorem stats_ranges `{Platform} (w : World) :
  exists st evs,
    EmployeeService.getEmployeeStats w = (Ok st, logged evs w)
    /\ 0 <= activeEmployees st <= totalEmployees st
    /\ 0 <= inactiveEmployees st <= totalEmployees st
    /\ (0 <= averageAttendanceRate st /\ averageAttendanceRate st <= 100)%Q
    /\ Forall (fun d => 1 <= dc_count d <= activeEmployees st)
         (departmentCounts st)
    /\ (employees w <> [] ->
        Qeq (averageAge st)
          (Qdiv (inject_Z (foldr Z.add 0 (map age (employees w))))
                (inject_Z (Z.of_nat (length (employees w))))))
    /\ (employees w = [] ->
        st = {| totalEmployees := 0; activeEmployees := 0;
                inactiveEmployees := 0; averageAge := 0%Q;
                departmentCounts := []; averageAttendanceRate := 0%Q |}).
Proof.
  destruct (getEmployeeStats_eq w) as [evs Hrun].
  eexists. exists evs. split; [exact Hrun |]. simpl.
  pose proof (length_filter (fun e => isActive e = true) (employees w)).
  pose proof (length_filter (fun e => isActive e = false) (employees w)).
  split; [lia |]. split; [lia |]. split; [| split; [| split]].
  - rewrite attendance_totals_spec.
    destruct (total_entries (employees w) =? 0) eqn:Hz; [done |].
    apply Z.eqb_neq in Hz. simpl.
    rewrite <- unwound_entries, <- unwound_present in *.
    pose proof (present_le_all (flat_map attendance (employees w))).
    apply rate_bounds; lia.
  - apply Forall_forall. intros d Hd.
    apply list_elem_of_filter in Hd as [_ Hd].
    apply group_by_department_spec in Hd as (k & e & -> & He & Ha & Hk).
    simpl. pose proof (filter_both_le k (employees w)).
    pose proof (filter_has k (employees w) e He Ha Hk). lia.
  - intros Hne. unfold average_age.
    destruct (employees w) as [| e docs]; [done |].
    destruct (Qeq_bool _ 0) eqn:Hzero; [| reflexivity].
    apply Qeq_bool_eq in Hzero. by rewrite Hzero.
  - by intros ->.
Qed.

(** ** Further properties: passwords, the current user, errors, batches *)

(** X25. The password rules.  [validatePassword] accepts exactly the
    passwords of at least 6 characters that hold an upper-case letter, a
    lower-case letter and a digit, and gives a message exactly when it
    refuses.  [register] applies only the first of these rules: it
    answers INVALID_PASSWORD only for a password of fewer than 6
    characters, so a password of 6 characters or more that
    [validatePassword] refuses is not refused by [register] for its
    strength. *)
Theorem password_rules `{AuthPlatform} (pw : string) :
  (valid (validatePassword pw) = true
   <-> (6 <= String.length pw)%nat
       /\ existsb is_upper (list_ascii_of_string pw) = true
       /\ existsb is_lower (list_ascii_of_string pw) = true
       /\ existsb is_digit (list_ascii_of_string pw) = true)
  /\ (check_message (validatePassword pw) = None
      <-> valid (validatePassword pw) = true)
  /\ (forall input s e,
        reg_password input = pw ->
        fst (AuthService.register input s) = inl e ->
        error_code e = Some "INVALID_PASSWORD" ->
        (String.length pw < 6)%nat)
  /\ (forall input s,
        reg_password input = pw ->
        User_findOne (reg_email input) (users s) = None ->
        (String.length pw < 6)%nat ->
        exists e, fst (AuthService.register input s) = inl e
                  /\ error_code e = Some "INVALID_PASSWORD").
Proof.
  split; [| split; [| split]].
  - unfold validatePassword.
    destruct (String.length pw <? 6)%nat eqn:Hlen.
    + apply Nat.ltb_lt in Hlen. simpl. split; [done | lia].
    + apply Nat.ltb_ge in Hlen.
      destruct (existsb is_upper _), (existsb is_lower _),
        (existsb is_digit _); simpl; split; try done; by intros (_ & ? & ? & ?).
  - unfold validatePassword.
    destruct (String.length pw <? 6)%nat; [done |].
    by destruct (negb _ || negb _ || negb _).
  - intros input s e <-. rewrite register_cases.
    destruct (User_findOne _ _); [by intros [= <-] |].
    destruct (String.length (reg_password input) <? 6)%nat eqn:Hlen;
      [intros _ _; by apply Nat.ltb_lt |].
    cbv zeta. destruct (negb (validate_user _)); [by intros [= <-] |].
    destruct (existsb _ (users s)); [by intros [= <-] | done].
  - intros input s <- Hnone Hlen. rewrite register_cases, Hnone.
    apply Nat.ltb_lt in Hlen. rewrite Hlen. eauto.
Qed.

(** X26. The [me] query.  It fails as UNAUTHENTICATED without a user in the
    context, with the cast error of the lookup, or as USER_NOT_FOUND
    'User not found or inactive'; the service never returns null, so the
    resolver's own 'User not found' is never produced.  On success it
    returns the stored, active user with the id of the context, without
    the password field. *)
Theorem me_outcomes `{AuthPlatform} (context : IContext) (l : list User.IUser) :
  (forall e,
      authResolver.me context l = inl e ->
      (e = new_GraphQLError "Not authenticated" "UNAUTHENTICATED"
       /\ user context = None)
      \/ e = CastError
      \/ e = new_GraphQLError "User not found or inactive" "USER_NOT_FOUND")
  /\ (forall id, AuthService.getCurrentUser id l <> inr None)
  /\ (forall x,
        authResolver.me context l = inr x ->
        exists cu u,
          user context = Some cu /\ u ∈ l /\ User._id u = user_id cu
          /\ User.isActive u = true /\ x = User.without_password u).
Proof.
  assert (forall id, AuthService.getCurrentUser id l <> inr None) as Hnull.
  { intros id. unfold AuthService.getCurrentUser, User_findById.
    destruct (isValidObjectId id); [| done].
    destruct (List.find _ l) as [u |]; simpl; [| done].
    by destruct (User.isActive u). }
  split; [| split; [done |]].
  - intros e. unfold authResolver.me.
    destruct (user context) as [cu |]; [| intros [= <-]; auto].
    destruct (AuthService.getCurrentUser (user_id cu) l) as [e' | [x |]]
      eqn:Hcur; [| done | by destruct (Hnull (user_id cu))].
    intros [= <-]. right. revert Hcur.
    unfold AuthService.getCurrentUser, User_findById.
    destruct (isValidObjectId _); [| intros [= <-]; auto].
    destruct (List.find _ l) as [u |]; simpl; [| intros [= <-]; auto].
    destruct (User.isActive u); simpl; [done | intros [= <-]; auto].
  - intros x. unfold authResolver.me.
    destruct (user context) as [cu |]; [| done].
    destruct (AuthService.getCurrentUser (user_id cu) l) as [e' | [y |]]
      eqn:Hcur; [done | | done].
    intros [= <-]. revert Hcur.
    unfold AuthService.getCurrentUser, User_findById.
    destruct (isValidObjectId _); [| done].
    destruct (List.find _ l) as [u |] eqn:Hfind; simpl; [| done].
    destruct (User.isActive u) eqn:Hact; simpl; [| done].
    intros [= <-]. apply List.find_some in Hfind as [Hin Hid].
    exists cu, u. repeat split; try done.
    + by apply list_elem_of_In.
    + by apply String.eqb_eq.
Qed.

Section MutationFacts.
Context `{AuthPlatform}.

Lemma register_error input s e :
  fst (AuthService.register input s) = inl e ->
  e = new_GraphQLError "User with this email already exists" "USER_EXISTS"
  \/ e = new_GraphQLError "Password must be at least 6 characters"
           "INVALID_PASSWORD"
  \/ e = ValidationError \/ e = DuplicateKeyError.
Proof.
  rewrite register_cases.
  destruct (User_findOne _ _); [intros [= <-]; auto |].
  destruct (_ <? 6)%nat; [intros [= <-]; auto |]. cbv zeta.
  destruct (negb (validate_user _)); [intros [= <-]; auto |].
  destruct (existsb _ (users s)); [intros [= <-]; auto | done].
Qed.

Lemma login_error mail pw s e :
  fst (AuthService.login mail pw s) = inl e ->
  e = new_GraphQLError "Invalid email or password" "INVALID_CREDENTIALS".
Proof.
  unfold AuthService.login.
  destruct (User_findOne_active mail (users s)) as [u |];
    [| by intros [= <-]].
  destruct (negb (comparePassword u pw)); [by intros [= <-] | done].
Qed.

End MutationFacts.

(** X27. The errors of the two authentication mutations.  The resolvers
    pass a result through and leave the collection as the service left
    it.  A failure of the service leaves them as a GraphQLError with the
    message of the cause: a cause with a code that is not empty keeps it,
    and a cause without a code, or with an empty one, gets
    REGISTRATION_ERROR from [register] and LOGIN_ERROR from [login].  So
    [register] answers USER_EXISTS or INVALID_PASSWORD for its own
    errors and REGISTRATION_ERROR for a validation or a duplicate-key
    error of the insert, and [login], whose only error carries a code,
    answers INVALID_CREDENTIALS in every case. *)
Theorem auth_mutation_errors `{AuthPlatform}
  (input : IRegisterInput) (mail pw : string) (s : UserStore) :
  snd (authResolver.register input s) = snd (AuthService.register input s)
  /\ snd (authResolver.login mail pw s) = snd (AuthService.login mail pw s)
  /\ (forall p, fst (authResolver.register input s) = inr p
                <-> fst (AuthService.register input s) = inr p)
  /\ (forall p, fst (authResolver.login mail pw s) = inr p
                <-> fst (AuthService.login mail pw s) = inr p)
  /\ (forall cause,
        fst (AuthService.register input s) = inl cause ->
        exists e,
          fst (authResolver.register input s) = inl e
          /\ error_name e = "GraphQLError"
          /\ error_message e = error_message cause
          /\ (forall c, error_code cause = Some c -> c <> "" ->
                        error_code e = Some c)
          /\ (error_code cause = None \/ error_code cause = Some "" ->
              error_code e = Some "REGISTRATION_ERROR"))
  /\ (forall cause,
        fst (AuthService.login mail pw s) = inl cause ->
        exists e,
          fst (authResolver.login mail pw s) = inl e
          /\ error_name e = "GraphQLError"
          /\ error_message e = error_message cause
          /\ (forall c, error_code cause = Some c -> c <> "" ->
                        error_code e = Some c)
          /\ (error_code cause = None \/ error_code cause = Some "" ->
              error_code e = Some "LOGIN_ERROR"))
  /\ (forall e,
        fst (authResolver.register input s) = inl e ->
        e = new_GraphQLError "User with this email already exists"
              "USER_EXISTS"
        \/ e = new_GraphQLError "Password must be at least 6 characters"
                 "INVALID_PASSWORD"
        \/ e = new_GraphQLError (error_message ValidationError)
                 "REGISTRATION_ERROR"
        \/ e = new_GraphQLError (error_message DuplicateKeyError)
                 "REGISTRATION_ERROR")
  /\ (forall e,
        fst (authResolver.login mail pw s) = inl e ->
        e = new_GraphQLError "Invalid email or password"
              "INVALID_CREDENTIALS").
Proof.
  assert (forall fallback cause,
             error_name (new_GraphQLError (error_message cause)
                           (code_or fallback cause)) = "GraphQLError"
             /\ error_message (new_GraphQLError (error_message cause)
                                 (code_or fallback cause))
                = error_message cause
             /\ (forall c, error_code cause = Some c -> c <> "" ->
                           error_code (new_GraphQLError (error_message cause)
                                         (code_or fallback cause)) = Some c)
             /\ (error_code cause = None \/ error_code cause = Some "" ->
                 error_code (new_GraphQLError (error_message cause)
                               (code_or fallback cause)) = Some fallback))
    as Hwrap.
  { intros fallback cause. split; [done |]. split; [done |].
    unfold code_or. simpl. split.
    - intros c -> Hc. simpl. apply String.eqb_neq in Hc. by rewrite Hc.
    - by intros [-> | ->]. }
  unfold authResolver.register, authResolver.login.
  pose proof (register_error input s) as Hreg.
  pose proof (login_error mail pw s) as Hlogin.
  destruct (AuthService.login mail pw s) as [[e1 | p1] s1];
    destruct (AuthService.register input s) as [[e2 | p2] s2];
    cbn [fst snd] in *.
  all: split; [done |]; split; [done |]; split; [done |]; split; [done |].
  all: split;
    [first [done
           | intros cause [= <-]; eexists; split; [reflexivity | apply Hwrap]]
    |].
  all: split;
    [first [done
           | intros cause [= <-]; eexists; split; [reflexivity | apply Hwrap]]
    |].
  all: split; try done.
  all: try (intros e [= <-]).
  all: try (by rewrite (Hlogin e1 eq_refl)).
  all: destruct (Hreg e2 eq_refl) as [-> | [-> | [-> | ->]]]; auto.
Qed.

Lemma Map_of_lookup (l : list User.IUser) (m : gmap string User.IUser)
  (id : string) :
  match foldl (fun m u => <[User._id u := u]> m) m l !! id with
  | Some x => (x ∈ l /\ User._id x = id) \/ m !! id = Some x
  | None => m !! id = None /\ forall u, u ∈ l -> User._id u <> id
  end.
Proof.
  revert m. induction l as [| u l IH]; intros m; simpl.
  - destruct (m !! id) as [x |] eqn:Hm; [by right |].
    split; [done |]. by intros u Hu%elem_of_nil.
  - specialize (IH (<[User._id u := u]> m)).
    destruct (foldl _ _ l !! id) as [x |].
    + destruct IH as [[Hx Hid] | Hm]; [left; split; [by right | done] |].
      destruct (decide (User._id u = id)) as [Hu | Hu].
      * subst id. rewrite lookup_insert_eq in Hm. injection Hm as <-.
        left. split; [by left | done].
      * rewrite lookup_insert_ne in Hm by done. by right.
    + destruct IH as [Hm Hl].
      destruct (decide (User._id u = id)) as [Hu | Hu].
      * subst id. by rewrite lookup_insert_eq in Hm.
      * rewrite lookup_insert_ne in Hm by done. split; [done |].
        intros u' [-> | Hu']%elem_of_cons; [done | by apply Hl].
Qed.

(** X28. The batch function of the user loader keeps the contract of a
    loader: it answers with one entry per requested id, in the order of
    the request, repeated ids included; the entry is a stored user with
    that id, without the password field, or null when no user has the
    id.  One id that is no ObjectId fails the whole batch. *)
Theorem userLoader_batch_contract `{AuthPlatform}
  (ids : list string) (l : list User.IUser) :
  (forallb isValidObjectId ids = false ->
   userLoader_batch ids l = inl CastError)
  /\ (forallb isValidObjectId ids = true ->
      exists res,
        userLoader_batch ids l = inr res
        /\ length res = length ids
        /\ forall i id,
             ids !! i = Some id ->
             exists o,
               res !! i = Some o
               /\ match o with
                  | Some x =>
                      User._id x = id /\ User.password x = None
                      /\ exists u, u ∈ l /\ x = User.without_password u
                  | None => forall u, u ∈ l -> User._id u <> id
                  end).
Proof.
  unfold userLoader_batch, User_find_in. split; intros ->; [done |].
  eexists. split; [done |]. split; [by rewrite length_map |].
  intros i id Hi.
  exists (Map_of (map User.without_password
                    (filter (fun u => User._id u ∈ ids) l)) !! id).
  split.
  { change (map ?f ids) with (f <$> ids).
    by rewrite list_lookup_fmap, Hi. }
  pose proof (Map_of_lookup
                (map User.without_password
                   (filter (fun u => User._id u ∈ ids) l)) ∅ id) as Hm.
  unfold Map_of. destruct (foldl _ _ _ !! id) as [x |].
  - destruct Hm as [[Hx Hid] | Hm]; [| by rewrite lookup_empty in Hm].
    change (map ?f ?k) with (f <$> k) in Hx.
    apply list_elem_of_fmap in Hx as (u & -> & Hu).
    apply list_elem_of_filter in Hu as [_ Hu].
    split; [done |]. split; [done |]. by exists u.
  - destruct Hm as [_ Hm]. intros u Hu Hid.
    apply (Hm (User.without_password u)); [| done].
    change (map ?f ?k) with (f <$> k). apply list_elem_of_fmap_2.
    apply list_elem_of_filter. split; [| done].
    rewrite Hid. by apply list_elem_of_lookup_2 in Hi.
Qed.

(** X29. [handleError].  A GraphQLError is returned as it is, so the
    conversion applied to its own result changes nothing; an AppError
    keeps its message and code.  For any other error the duplicate-key
    test comes first, then the validation test, and everything else is
    masked as 'Internal server error' whatever its message.  On an
    error object the function itself throws exactly when a duplicate-key
    error carries no [keyPattern] or a validation error carries no
    [errors]. *)
Theorem handleError_outcomes (err : Thrown) :
  (forall g, handleError err = inr g ->
             handleError (ThrownGraphQLError g) = inr g)
  /\ (forall message code status,
        err = ThrownAppError message code status ->
        handleError err = inr (new_GraphQLError message code))
  /\ (forall e,
        err = ThrownOther e ->
        plain_code e = Some (NumberCode 11000) ->
        handleError err
        = match keyPattern e with
          | Some keys =>
              inr (new_GraphQLError
                     (default "undefined" (head keys) +:+ " already exists")
                     "DUPLICATE_KEY")
          | None => inl TypeError
          end)
  /\ (forall e,
        err = ThrownOther e ->
        plain_code e <> Some (NumberCode 11000) ->
        plain_name e <> "ValidationError" ->
        handleError err
        = inr (new_GraphQLError "Internal server error"
                 "INTERNAL_SERVER_ERROR"))
  /\ (forall t,
        handleError err = inl t <->
        t = TypeError
        /\ exists e,
             err = ThrownOther e
             /\ ((plain_code e = Some (NumberCode 11000)
                  /\ keyPattern e = None)
                 \/ (plain_code e <> Some (NumberCode 11000)
                     /\ plain_name e = "ValidationError"
                     /\ errors e = None))).
Proof.
  split; [done |]. split; [by intros ? ? ? -> |]. split; [| split].
  - intros e -> Hcode. simpl. rewrite Hcode. by rewrite Z.eqb_refl.
  - intros e -> Hcode Hname. simpl.
    assert (match plain_code e with
            | Some (NumberCode n) => n =? 11000
            | _ => false
            end = false) as ->.
    { destruct (plain_code e) as [[n | c] |]; try done.
      apply Z.eqb_neq. intros ->. done. }
    apply String.eqb_neq in Hname. by rewrite Hname.
  - intros t. destruct err as [g | message code status | e]; simpl.
    + split; [done | by intros (_ & e & ? & _)].
    + split; [done | by intros (_ & e & ? & _)].
    + destruct (plain_code e) as [[n | c] |] eqn:Hcode.
      * destruct (n =? 11000) eqn:Hn.
        -- apply Z.eqb_eq in Hn. subst n.
           destruct (keyPattern e) eqn:Hkeys.
           ++ split; [done |].
              intros (_ & e' & [= <-] & [[_ ?] | [? _]]); congruence.
           ++ split; [intros [= <-]; split; [done |]; exists e; auto |].
              by intros [-> _].
        -- apply Z.eqb_neq in Hn.
           assert (Some (NumberCode n) <> Some (NumberCode 11000)) as Hne
             by congruence.
           destruct (String.eqb (plain_name e) "ValidationError") eqn:Hname.
           ++ apply String.eqb_eq in Hname.
              destruct (errors e) eqn:Herr.
              ** split; [done |].
                 intros (_ & e' & [= <-] & [[? _] | (_ & _ & ?)]);
                   congruence.
              ** split; [| by intros [-> _]].
                 intros [= <-]. split; [done |]. exists e.
                 split; [done |]. right. by rewrite Hcode.
           ++ apply String.eqb_neq in Hname. split; [done |].
              intros (_ & e' & [= <-] & [[? _] | (_ & ? & _)]); congruence.
      * destruct (String.eqb (plain_name e) "ValidationError") eqn:Hname.
        -- apply String.eqb_eq in Hname. destruct (errors e) eqn:Herr.
           ++ split; [done |].
              intros (_ & e' & [= <-] & [[? _] | (_ & _ & ?)]); congruence.
           ++ split; [| by intros [-> _]].
              intros [= <-]. split; [done |]. exists e.
              split; [done |]. right. by rewrite Hcode.
        -- apply String.eqb_neq in Hname. split; [done |].
           intros (_ & e' & [= <-] & [[? _] | (_ & ? & _)]); congruence.
      * destruct (String.eqb (plain_name e) "ValidationError") eqn:Hname.
        -- apply String.eqb_eq in Hname. destruct (errors e) eqn:Herr.
           ++ split; [done |].
              intros (_ & e' & [= <-] & [[? _] | (_ & _ & ?)]); congruence.
           ++ split; [| by intros [-> _]].
              intros [= <-]. split; [done |]. exists e.
              split; [done |]. right. by rewrite Hcode.
        -- apply String.eqb_neq in Hname. split; [done |].
           intros (_ & e' & [= <-] & [[? _] | (_ & ? & _)]); congruence.
Qed.

(** ** The further properties at concrete inputs *)


Lemma deletePattern_removes_matches_witness :
  let w := snd (EmployeeService.getEmployeeById "e1"
                  (snd (EmployeeService.getEmployees empty_filter None None
                          (world_of [john])))) in
  (cache_available w /\ plain_text "employees:" = true)
  /\ redis w !! cacheKey empty_filter None None = Some first_page_of_john
  /\ fst (CacheService.get (cacheKey empty_filter None None)
            (snd (CacheService.deletePattern "employees:*" w))) = Ok None
  /\ fst (CacheService.get "employee:e1"
            (snd (CacheService.deletePattern "employees:*" w)))
     = Ok (Some (JEmployee john)).
Proof.
  intros w.
  assert (cache_available w) as Hw by (split; reflexivity).
  split; [done |]. split; [vm_compute; reflexivity |]. split.
  - destruct (deletePattern_removes_matches w "employees:"
                (cacheKey empty_filter None None) Hw eq_refl)
      as (_ & Hget & _).
    exact Hget.
  - destruct (deletePattern_removes_matches w "employees:"
                "employee:e1" Hw eq_refl) as (_ & Hget & _).
    exact Hget.
Defined.

Lemma record_read_through_witness :
  let w := world_of [john] in
  let r1 := EmployeeService.getEmployeeById "e1" w in
  (cache_available w /\ redis w !! ("employee:" +:+ "e1") = None
   /\ List.find (has_id "e1") (employees w) = Some john)
  /\ fst r1 = Ok (Some (JEmployee john))
  /\ fst (EmployeeService.getEmployeeById "e1" (snd r1)) = fst r1
  /\ snd (EmployeeService.getEmployeeById "e1" (snd r1))
     = logged [RedisGet ("employee:" +:+ "e1")] (snd r1).
Proof.
  intros w r1.
  assert (cache_available w) as Hw by (split; reflexivity).
  split; [by repeat split |].
  destruct (record_read_through w "e1" john Hw eq_refl eq_refl)
    as (H1 & _ & _ & H2 & H3).
  by repeat split.
Defined.


Lemma list_read_repeats_witness :
  let w := world_of [john; jane] in
  let r1 := EmployeeService.getEmployees empty_filter None None w in
  (cache_available w /\ 0 <= (page_of None - 1) * limit_of None
   /\ limit_of None <> 0)
  /\ fst (EmployeeService.getEmployees empty_filter None None (snd r1))
     = fst r1
  /\ snd (EmployeeService.getEmployees empty_filter None None (snd r1))
     = logged [RedisGet (cacheKey empty_filter None None)] (snd r1).
Proof.
  intros w r1.
  assert (cache_available w) as Hw by (split; reflexivity).
  assert (0 <= (page_of None - 1) * limit_of None) as Hskip
    by (vm_compute; discriminate).
  assert (limit_of None <> 0) as Hlim by (vm_compute; discriminate).
  split; [done |].
  destruct (list_read_repeats w empty_filter None None Hw Hskip Hlim)
    as (_ & H1 & H2).
  by split.
Defined.

Lemma zero_limit_answer_changes_witness :
  let w := world_of [john] in
  let pg := Some {| input_page := Some 1; input_limit := Some 0 |} in
  let r1 := EmployeeService.getEmployees empty_filter pg None w in
  (cache_available w /\ redis w !! cacheKey empty_filter pg None = None
   /\ limit_of pg = 0 /\ selected empty_filter (employees w) <> [])
  /\ exists a b,
       fst r1 = Ok (JConnection a)
       /\ fst (EmployeeService.getEmployees empty_filter pg None (snd r1))
          = Ok (JConnection b)
       /\ pages (pagination a) = PosInf
       /\ pages (pagination b) = Null.
Proof.
  intros w pg r1.
  assert (cache_available w) as Hw by (split; reflexivity).
  assert (selected empty_filter (employees w) <> []) as Hsel
    by (vm_compute; discriminate).
  split; [by repeat split |].
  destruct (zero_limit_answer_changes w empty_filter pg None Hw eq_refl
              eq_refl Hsel) as (a & b & H1 & H2 & H3 & _ & _ & H4 & _).
  exists a, b. by repeat split.
Defined.

Lemma emails_stay_unique_witness :
  let w := world_of [john; jane] in
  unique_emails (employees w)
  /\ unique_emails
       (employees
          (snd (EmployeeService.updateEmployee "e2"
                  (readdress_to "john@example.com") w)))
  /\ unique_emails
       (employees
          (snd (EmployeeService.bulkUpdateEmployees ["e1"; "e2"]
                  (readdress_to "all@example.com") w))).
Proof.
  intros w.
  assert (unique_emails (employees w)) as Hw.
  { unfold unique_emails. apply (bool_decide_unpack _). vm_compute.
    exact I. }
  split; [done |].
  destruct (emails_stay_unique w Hw) as (_ & Hupd & _ & _ & Hbulk).
  split; [apply Hupd | apply Hbulk].
Defined.

Lemma employee_codes_in_sequence_witness :
  let w := world_of [john; jane] in
  let ann := {| new_name := "Ann Lee"; new_email := "ann@x.com";
                new_age := 31; new_class := "Grade 9";
                new_subjects := ["Art"]; new_salary := None;
                new_department := None; new_joiningDate := None |} in
  codes_in_sequence (employees w)
  /\ NoDup (map employeeId (employees w))
  /\ fst (EmployeeService.createEmployee ann "u0" w)
     = Throw MongooseValidationError
  /\ employees (snd (EmployeeService.createEmployee ann "u0" w))
     = employees w
  /\ codes_in_sequence
       (employees (snd (EmployeeService.deleteEmployee "e1" w))).
Proof.
  intros w ann.
  assert (codes_in_sequence (employees w)) as Hw.
  { intros [| [| i]] d; simpl; intros [= <-]; vm_compute; reflexivity. }
  split; [done |].
  destruct (employee_codes_in_sequence w Hw)
    as (Hnd & _ & Hcreate & _ & Hdel & _).
  destruct (Hcreate ann "u0") as (_ & Hfree & Hsame).
  split; [done |]. split; [| split; [done | apply Hdel]].
  apply Hfree. intros e He.
  apply elem_of_cons in He as [-> | He]; [vm_compute; discriminate |].
  apply elem_of_cons in He as [-> | He]; [vm_compute; discriminate |].
  by apply elem_of_nil in He.
Defined.

Lemma failed_writes_change_nothing_witness :
  let w := world_of [john; jane] in
  let r := EmployeeService.updateEmployee "e2"
             (readdress_to "john@example.com") w in
  (forall e, fst r <> Ok (Some e))
  /\ employees (snd r) = employees w /\ redis (snd r) = redis w.
Proof.
  intros w r.
  assert (forall e, fst r <> Ok (Some e)) as Hno by (intros e; vm_compute; discriminate).
  split; [done |].
  destruct (failed_writes_change_nothing w) as (_ & Hupd & _).
  exact (Hupd "e2" (readdress_to "john@example.com") Hno).
Defined.

Lemma record_read_follows_write_witness :
  let w := snd (EmployeeService.getEmployeeById "e1" (world_of [john; jane])) in
  let input := readdress_to "John.Doe@Example.com" in
  (cache_available w
   /\ List.find (has_id "e1") (employees w) = Some john
   /\ redis w !! ("employee:" +:+ "e1") = Some (JEmployee john)
   /\ update_is_duplicate "e1" input (employees w) = false
   /\ validate_set input = true
   /\ set_breaks_unique_email input "e1" (employees w) = false
   /\ update_is_duplicate "e1" (readdress_to "JANE@X.COM") (employees w)
      = true)
  /\ fst (EmployeeService.getEmployeeById "e1"
            (snd (EmployeeService.updateEmployee "e1" input w)))
     = Ok (Some (JEmployee (apply_set input (now w) john)))
  /\ email (apply_set input (now w) john) = "john.doe@example.com"
  /\ fst (EmployeeService.getEmployeeById "e1"
            (snd (EmployeeService.markAttendance "e1" present_today w)))
     = Ok (Some (JEmployee (apply_push present_today (now w) john)))
  /\ fst (EmployeeService.getEmployeeById "e1"
            (snd (EmployeeService.deleteEmployee "e1" w)))
     = Ok (Some (JEmployee
                   (apply_set EmployeeService.set_inactive (now w) john))).
Proof.
  intros w input.
  assert (cache_available w) as Hw by (split; reflexivity).
  split; [repeat split; vm_compute; reflexivity |].
  destruct (record_read_follows_write w "e1" john Hw eq_refl)
    as (Hupd & Hmark & Hdel & _).
  split; [by apply Hupd |]. split; [vm_compute; reflexivity |].
  split; [by apply Hmark | done].
Defined.

Lemma delete_is_soft_witness :
  let w := world_of [john; jane] in
  let r := EmployeeService.deleteEmployee "e1" w in
  List.find (has_id "e1") (employees w) = Some john
  /\ fst r = Ok true
  /\ length (employees (snd r)) = 2%nat
  /\ employees (snd r) !! 1%nat = Some jane
  /\ fst (EmployeeService.deleteEmployee "e1" (snd r)) = Ok true.
Proof.
  intros w r. split; [done |].
  destruct (delete_is_soft w "e1" john eq_refl)
    as (H1 & H2 & _ & H3 & _ & _ & H4).
  split; [done |]. split; [done |]. split; [| done].
  by apply (H3 1%nat jane).
Defined.

Lemma member_changes_own_record_only_witness :
  let w := world_of [john; jane] in
  let u := member_user (Some "e1") in
  role u = EMPLOYEE
  /\ (exists d',
        employees (snd (employeeResolver.markAttendance "e2" present_today
                          {| user := Some u |} w)) !! 1%nat = Some d'
        /\ d' = jane)
  /\ length (employees (snd (employeeResolver.updateEmployee "e1"
                               (rename_to "Jack") {| user := Some u |} w)))
     = 2%nat.
Proof.
  intros w u. split; [done |].
  destruct (member_changes_own_record_only w u eq_refl)
    as (_ & Hmark & Hlen & _).
  split; [| apply Hlen].
  destruct (Hmark "e2" present_today 1%nat jane eq_refl)
    as (d' & Hd' & Hsame & _).
  exists d'. split; [done |]. by apply Hsame.
Defined.

Lemma closed_to_non_admins_witness :
  let w := world_of [john; jane] in
  (forall u, user (member (Some "e1")) = Some u -> role u = EMPLOYEE)
  /\ employeeResolver.deleteEmployee "e2" (member (Some "e1")) w
     = (Throw (GraphQLError "Admin access required" "FORBIDDEN"), w)
  /\ employeeResolver.employeeStats (member (Some "e1")) w
     = (Throw (GraphQLError "Admin access required" "FORBIDDEN"), w).
Proof.
  intros w.
  assert (forall u, user (member (Some "e1")) = Some u -> role u = EMPLOYEE)
    as Hu by (by intros u [= <-]).
  split; [done |].
  destruct (closed_to_non_admins w (member (Some "e1")) Hu)
    as (_ & _ & Hstats & _ & Hdel & _).
  split; [apply Hdel | done].
Defined.


Lemma authenticate_errors_witness :
  let l := [ada; bob] in
  ("Bearer expired" <> ""
   /\ split_on " " "Bearer expired" !! 1%nat = Some "expired"
   /\ "expired" <> ""
   /\ (forall p, jwt_verify "expired" <> VerifiedPayload p))
  /\ authenticate (Some "Bearer expired") l
     = inl (new_Error "Invalid or expired token").
Proof.
  intros l.
  assert (forall p, jwt_verify "expired" <> VerifiedPayload p) as Hbad
    by (intros p; vm_compute; discriminate).
  split; [by repeat split |].
  destruct (authenticate_errors (Some "Bearer expired") l) as [_ Hplain].
  by apply (Hplain "Bearer expired" "expired").
Defined.

Lemma authenticated_user_is_stored_witness :
  let l := [ada; bob] in
  let cu := {| user_id := "u0"; user_email := "ada@example.com";
               role := ADMIN; employeeRef := None |} in
  authenticate (Some "Bearer jwt:u0") l = inr (Some cu)
  /\ (exists u, u ∈ l /\ User.isActive u = true /\ User._id u = user_id cu)
  /\ authenticate (Some "Bearer jwt:u1") l
     = inl (new_GraphQLError "User not found or inactive" "UNAUTHORIZED").
Proof.
  intros l cu.
  assert (authenticate (Some "Bearer jwt:u0") l = inr (Some cu)) as Hin
    by (vm_compute; reflexivity).
  split; [done |]. split; [| vm_compute; reflexivity].
  destruct (authenticated_user_is_stored (Some "Bearer jwt:u0") l)
    as [_ Hstored].
  destruct (Hstored cu Hin) as (header & token & p & u & _ & _ & _ & Hu & Hid
                                & Hact & Hcu).
  exists u. split; [done |]. split; [done |]. by rewrite Hcu.
Defined.

Lemma scheme_is_not_checked_witness :
  let l := [ada; bob] in
  (forall c, In c (list_ascii_of_string "Basic") -> c <> " "%char)
  /\ authenticate (Some ("Basic" +:+ " " +:+ "jwt:u0")) l
     = authenticate (Some ("Bearer " +:+ "jwt:u0")) l
  /\ authenticate (Some "Basic") l
     = inl (new_GraphQLError "Invalid token format" "INVALID_TOKEN").
Proof.
  intros l.
  assert (forall c, In c (list_ascii_of_string "Basic") -> c <> " "%char)
    as Hno.
  { simpl. intros c [<- | [<- | [<- | [<- | [<- | []]]]]]; discriminate. }
  split; [done |].
  destruct (scheme_is_not_checked "Basic" "jwt:u0" l Hno) as (H1 & H2 & _).
  split; [done | by apply H2].
Defined.

Lemma register_outcomes_witness :
  let s := user_store [ada; bob] in
  (exists p,
      fst (AuthService.register carol_input s) = inr p
      /\ users (snd (AuthService.register carol_input s))
         = [ada; bob; payload_user p]
      /\ User.role (payload_user p) = EMPLOYEE
      /\ User.password (payload_user p) = Some (bcrypt_hash "abcdef"))
  /\ AuthService.register
       {| reg_email := "ada@example.com"; reg_password := "x";
          reg_firstName := "A"; reg_lastName := "B"; reg_role := None |} s
     = (inl (new_GraphQLError "User with this email already exists"
               "USER_EXISTS"), s).
Proof.
  intros s.
  destruct (register_outcomes carol_input s) as (_ & _ & _ & Hok).
  destruct (register_outcomes
              {| reg_email := "ada@example.com"; reg_password := "x";
                 reg_firstName := "A"; reg_lastName := "B";
                 reg_role := None |} s) as (Hexists & _).
  split.
  - eexists. split; [vm_compute; reflexivity |].
    match goal with |- context [payload_user ?p] =>
      destruct (Hok p) as (H1 & _ & H2 & H3 & _); [vm_compute; reflexivity |]
    end.
    by repeat split.
  - apply Hexists. vm_compute. eauto.
Defined.

Lemma register_then_login_witness :
  let s := user_store [ada; bob] in
  let s' := snd (AuthService.register carol_input s) in
  (exists p, fst (AuthService.register carol_input s) = inr p)
  /\ email_query (reg_email carol_input) = email_setter (reg_email carol_input)
  /\ (exists q,
        fst (AuthService.login "carol@example.com" "abcdef" s') = inr q
        /\ User.password (payload_user q) = None)
  /\ AuthService.login "carol@example.com" "abcdeF" s'
     = (inl (new_GraphQLError "Invalid email or password"
               "INVALID_CREDENTIALS"), s').
Proof.
  intros s s'.
  destruct (AuthService.register carol_input s) as [[e | p] s1] eqn:Hreg;
    [vm_compute in Hreg; discriminate |].
  assert (fst (AuthService.register carol_input s) = inr p) as Hp
    by (by rewrite Hreg).
  split; [by exists p |]. split; [done |].
  destruct (register_then_login carol_input s p Hp eq_refl)
    as [(q & Hq & _ & Hnone) Hwrong].
  subst s'. rewrite Hreg in *. cbn [snd] in *. split.
  - by exists q.
  - apply Hwrong. vm_compute. reflexivity.
Defined.

Lemma login_outcomes_witness :
  let s := user_store [ada; bob] in
  (forall u, u ∈ users s -> User.email u = email_query "bob@example.com" ->
             User.isActive u = true -> comparePassword u "hunter2" = false)
  /\ AuthService.login "bob@example.com" "hunter2" s
     = (inl (new_GraphQLError "Invalid email or password"
               "INVALID_CREDENTIALS"), s)
  /\ (exists q, fst (AuthService.login "ada@example.com" "Secret1" s) = inr q
                /\ User.password (payload_user q) = None).
Proof.
  intros s.
  assert (forall u, u ∈ users s ->
                    User.email u = email_query "bob@example.com" ->
                    User.isActive u = true ->
                    comparePassword u "hunter2" = false) as Hall.
  { intros u Hu. simpl in Hu.
    apply elem_of_cons in Hu as [-> | Hu]; [done |].
    apply elem_of_cons in Hu as [-> | Hu]; [done |].
    by apply elem_of_nil in Hu. }
  split; [done |].
  destruct (login_outcomes "bob@example.com" "hunter2" s)
    as (Hfail & _ & Hrefused).
  destruct (login_outcomes "ada@example.com" "Secret1" s) as (_ & Hok & _).
  split.
  - destruct (Hrefused Hall) as [e He].
    destruct (Hfail e He) as [-> Hs].
    destruct (AuthService.login "bob@example.com" "hunter2" s) as [res s1].
    simpl in *. by subst.
  - destruct (AuthService.login "ada@example.com" "Secret1" s)
      as [[e | q] s1] eqn:Hrun; [vm_compute in Hrun; discriminate |].
    exists q. split; [done |].
    destruct (Hok q eq_refl) as (u & _ & _ & _ & _ & _ & Hnone & _). done.
Defined.

Lemma password_rules_witness :
  let s := user_store [ada; bob] in
  reg_password carol_input = "abcdef"
  /\ valid (validatePassword "abcdef") = false
  /\ valid (validatePassword "Abcde1") = true
  /\ (forall e, fst (AuthService.register carol_input s) = inl e ->
                error_code e <> Some "INVALID_PASSWORD").
Proof.
  intros s. split; [done |]. split; [done |]. split; [done |].
  destruct (password_rules "abcdef") as (_ & _ & Honly & _).
  intros e He Hcode.
  pose proof (Honly carol_input s e eq_refl He Hcode) as Hlen.
  vm_compute in Hlen. lia.
Defined.

Lemma userLoader_batch_contract_witness :
  let l := [ada; bob] in
  forallb isValidObjectId ["u1"; "u7"; "u1"] = true
  /\ userLoader_batch ["u1"; "u7"; "u1"] l
     = inr [Some (User.without_password bob); None;
            Some (User.without_password bob)]
  /\ exists res, userLoader_batch ["u1"; "u7"; "u1"] l = inr res
                 /\ length res = 3%nat.
Proof.
  intros l. split; [done |]. split; [vm_compute; reflexivity |].
  destruct (userLoader_batch_contract ["u1"; "u7"; "u1"] l) as [_ Hok].
  destruct (Hok eq_refl) as (res & Hres & Hlen & _).
  by exists res.
Defined.

Lemma role_gate_after_authentication_witness :
  let l := [ada; bob] in
  let cu := {| user_id := "u0"; user_email := "ada@example.com";
               role := ADMIN; employeeRef := None |} in
  createContext (Some "Bearer jwt:u0") l = inr {| user := Some cu |}
  /\ requireRole {| user := Some cu |} [ADMIN] = inr cu
  /\ (exists x, x ∈ l /\ User.isActive x = true /\ User.role x ∈ [ADMIN]
                /\ user_id cu = User._id x)
  /\ requireRole {| user := Some cu |} [EMPLOYEE]
     = inl (new_GraphQLError "Insufficient permissions" "FORBIDDEN").
Proof.
  intros l cu.
  assert (createContext (Some "Bearer jwt:u0") l = inr {| user := Some cu |})
    as Hctx by (vm_compute; reflexivity).
  assert (requireRole {| user := Some cu |} [ADMIN] = inr cu) as Hgate
    by (vm_compute; reflexivity).
  split; [done |]. split; [done |]. split; [| vm_compute; reflexivity].
  destruct (role_gate_after_authentication (Some "Bearer jwt:u0") l [ADMIN]
              {| user := Some cu |} Hctx) as (Hpass & _).
  destruct (Hpass cu Hgate) as (x & Hx & Hact & Hrole & Hid & _).
  by exists x.
Defined.
